(** * imagec: pulling a docker image into the local image store

    A shallow embedding of [lib/imagec/imagec.go] and the properties its
    design document states about it.  Go strings are byte strings
    ([string]), slices are lists, maps are [gmap]s, a [nil] pointer is
    [None].  A Go function returning [error] returns an [option error]
    (or a sum) here; a function that can panic returns a [run]. *)

From Stdlib Require Import Ascii ZArith Lia.
From stdpp Require Import base option list gmap strings.

Local Open Scope Z_scope.
Local Open Scope nat_scope.

(** ** Go values: errors and panics *)

(** An [error] value.  The pull switches on the dynamic type of the
    errors of the fetcher, so the type is kept next to the message. *)
Inductive error : Type :=
  | errorString (msg : string)
  | ImageNotFoundError (msg : string)
  | TagNotFoundError (msg : string).

Definition Error (e : error) : string :=
  match e with
  | errorString m | ImageNotFoundError m | TagNotFoundError m => m
  end.

(** [fmt.Errorf(format + ": %s", arg)] and its two-argument form. *)
Definition Errorf (prefix arg : string) : error :=
  errorString (prefix +:+ arg).

Definition Errorf2 (prefix arg1 mid arg2 : string) : error :=
  errorString (prefix +:+ arg1 +:+ mid +:+ arg2).

(** The run of a function that can panic (index out of range, nil
    dereference). *)
Inductive run (A : Type) : Type :=
  | Returns (a : A)
  | Panics (why : string).
Arguments Returns {A} a.
Arguments Panics {A} why.

Global Instance run_ret : MRet run := λ A a, Returns a.
Global Instance run_bind : MBind run := λ A B k r,
  match r with
  | Returns a => k a
  | Panics w => Panics w
  end.

Definition index_out_of_range : string := "index out of range".
Definition nil_dereference : string := "invalid memory address or nil pointer dereference".

(** ** Byte-string helpers of Go's [strings] package *)

Module Strings.

Fixpoint IndexByte (s : string) (c : ascii) : option nat :=
  match s with
  | EmptyString => None
  | String a s' => if Ascii.eqb a c then Some 0 else S <$> IndexByte s' c
  end.

Definition ContainsRune (s : string) (c : ascii) : bool :=
  bool_decide (is_Some (IndexByte s c)).

Fixpoint ContainsAny (s chars : string) : bool :=
  match s with
  | EmptyString => false
  | String a s' => ContainsRune chars a || ContainsAny s' chars
  end.

Fixpoint HasPrefix (s p : string) : bool :=
  match p, s with
  | EmptyString, _ => true
  | String b p', String a s' => Ascii.eqb a b && HasPrefix s' p'
  | String _ _, EmptyString => false
  end.

Fixpoint drop (n : nat) (s : string) : string :=
  match n, s with
  | S n', String _ s' => drop n' s'
  | _, _ => s
  end.

Fixpoint take (n : nat) (s : string) : string :=
  match n, s with
  | S n', String a s' => String a (take n' s')
  | _, _ => EmptyString
  end.

Definition TrimPrefix (s p : string) : string :=
  if HasPrefix s p then drop (String.length p) s else s.

Definition is_upper (a : ascii) : bool :=
  (65 <=? nat_of_ascii a) && (nat_of_ascii a <=? 90).
Definition is_lower (a : ascii) : bool :=
  (97 <=? nat_of_ascii a) && (nat_of_ascii a <=? 122).
Definition is_digit (a : ascii) : bool :=
  (48 <=? nat_of_ascii a) && (nat_of_ascii a <=? 57).

Definition lower (a : ascii) : ascii :=
  if is_upper a then ascii_of_nat (nat_of_ascii a + 32) else a.

Fixpoint ToLower (s : string) : string :=
  match s with
  | EmptyString => EmptyString
  | String a s' => String (lower a) (ToLower s')
  end.

Fixpoint all (p : ascii → bool) (s : string) : bool :=
  match s with
  | EmptyString => true
  | String a s' => p a && all p s'
  end.

(** [strings.Join(elems, sep)] *)
Fixpoint Join (elems : list string) (sep : string) : string :=
  match elems with
  | [] => ""
  | [e] => e
  | e :: rest => e +:+ sep +:+ Join rest sep
  end.

(** [strings.Split(s, sep)] for a one-byte separator. *)
Fixpoint Split (s : string) (sep : ascii) : list string :=
  match s with
  | EmptyString => [""]
  | String a s' =>
      if Ascii.eqb a sep then "" :: Split s' sep
      else match Split s' sep with
           | [] => [String a ""]
           | w :: ws => String a w :: ws
           end
  end.

End Strings.

(** ** Data model *)

(** Modelled from the spec: the schema-1 manifest types [FSLayer],
    [History] and [Manifest], which the package declares outside
    imagec.go: an "ordered list of {history entry, blob-sum} pairs, index
    0 = topmost layer", each history entry "an opaque serialized
    per-layer configuration document".  The fields are the ones
    imagec.go reads. *)
Record FSLayer := { BlobSum : string }.

(** Modelled from the spec: a history entry of the schema-1 manifest,
    the serialised per-layer configuration. *)
Record History := { V1Compatibility : string }.

(** Modelled from the spec: the schema-1 manifest, with the name of the
    repository and the two index-aligned lists; its field [History] is
    [ManifestHistory] here. *)
Record Manifest := {
  Name : string;
  FSLayers : list FSLayer;
  ManifestHistory : list History
}.

(** Modelled from the spec: [schema2.DeserializedManifest] of the
    distribution library, "used only to obtain a more authoritative
    digest"; only its presence matters here. *)
Record DeserializedManifest := { Schema2Payload : string }.

(** What [FetchImageManifest] hands back as [interface{}]. *)
Inductive manifest_value : Type :=
  | Schema1Value (m : Manifest)
  | Schema2Value (m : DeserializedManifest)
  | OtherValue.

(** Modelled from the spec: the bearer token of the fetcher. *)
Record Token := { TokenValue : string }.

(** [ImageWithMeta], with the fields ID, Parent and Store of the
    embedded [*models.Image] inlined. *)
Record ImageWithMeta := {
  ID : string;
  Parent : string;
  Store : string;
  DiffID : string;
  Layer : FSLayer;
  Meta : string;
  Size : Z;
  Downloading : bool
}.

(** [Options].  The output stream and the certificate pool are handles
    that no function below inspects; they are left out.  The field
    [Token] is [OptToken] here. *)
Record Options := {
  Reference : string;
  Registry : string;
  Image : string;
  Tag : string;
  Destination : string;
  Host : string;
  Storename : string;
  Username : string;
  Password : string;
  OptToken : option Token;
  Timeout : Z;
  InsecureSkipVerify : bool;
  InsecureAllowHTTP : bool;
  ImageManifestSchema1 : option Manifest;
  ImageManifestSchema2 : option DeserializedManifest;
  ManifestDigest : string
}.

(** [ImageC]: the embedded options ([Opts]), the layers sourced from the
    manifest (a slice of pointers, [None] being nil) and the image ID
    calculated during download. *)
Record ImageC := {
  Opts : Options;
  ImageLayers : list (option ImageWithMeta);
  ImageID : string
}.

Global Instance FSLayer_eq_dec : EqDecision FSLayer.
Proof. solve_decision. Defined.
Global Instance History_eq_dec : EqDecision History.
Proof. solve_decision. Defined.
Global Instance ImageWithMeta_eq_dec : EqDecision ImageWithMeta.
Proof. solve_decision. Defined.

(** Field assignments. *)
Definition set_Tag (v : string) (o : Options) : Options :=
  {| Reference := Reference o; Registry := Registry o; Image := Image o; Tag := v;
     Destination := Destination o; Host := Host o; Storename := Storename o;
     Username := Username o; Password := Password o; OptToken := OptToken o;
     Timeout := Timeout o; InsecureSkipVerify := InsecureSkipVerify o;
     InsecureAllowHTTP := InsecureAllowHTTP o;
     ImageManifestSchema1 := ImageManifestSchema1 o;
     ImageManifestSchema2 := ImageManifestSchema2 o;
     ManifestDigest := ManifestDigest o |}.

Definition set_Registry (v : string) (o : Options) : Options :=
  {| Reference := Reference o; Registry := v; Image := Image o; Tag := Tag o;
     Destination := Destination o; Host := Host o; Storename := Storename o;
     Username := Username o; Password := Password o; OptToken := OptToken o;
     Timeout := Timeout o; InsecureSkipVerify := InsecureSkipVerify o;
     InsecureAllowHTTP := InsecureAllowHTTP o;
     ImageManifestSchema1 := ImageManifestSchema1 o;
     ImageManifestSchema2 := ImageManifestSchema2 o;
     ManifestDigest := ManifestDigest o |}.

Definition set_Image (v : string) (o : Options) : Options :=
  {| Reference := Reference o; Registry := Registry o; Image := v; Tag := Tag o;
     Destination := Destination o; Host := Host o; Storename := Storename o;
     Username := Username o; Password := Password o; OptToken := OptToken o;
     Timeout := Timeout o; InsecureSkipVerify := InsecureSkipVerify o;
     InsecureAllowHTTP := InsecureAllowHTTP o;
     ImageManifestSchema1 := ImageManifestSchema1 o;
     ImageManifestSchema2 := ImageManifestSchema2 o;
     ManifestDigest := ManifestDigest o |}.

Definition set_Storename (v : string) (o : Options) : Options :=
  {| Reference := Reference o; Registry := Registry o; Image := Image o; Tag := Tag o;
     Destination := Destination o; Host := Host o; Storename := v;
     Username := Username o; Password := Password o; OptToken := OptToken o;
     Timeout := Timeout o; InsecureSkipVerify := InsecureSkipVerify o;
     InsecureAllowHTTP := InsecureAllowHTTP o;
     ImageManifestSchema1 := ImageManifestSchema1 o;
     ImageManifestSchema2 := ImageManifestSchema2 o;
     ManifestDigest := ManifestDigest o |}.

Definition set_Token (v : option Token) (o : Options) : Options :=
  {| Reference := Reference o; Registry := Registry o; Image := Image o; Tag := Tag o;
     Destination := Destination o; Host := Host o; Storename := Storename o;
     Username := Username o; Password := Password o; OptToken := v;
     Timeout := Timeout o; InsecureSkipVerify := InsecureSkipVerify o;
     InsecureAllowHTTP := InsecureAllowHTTP o;
     ImageManifestSchema1 := ImageManifestSchema1 o;
     ImageManifestSchema2 := ImageManifestSchema2 o;
     ManifestDigest := ManifestDigest o |}.

Definition set_ImageManifestSchema1 (v : option Manifest) (o : Options) : Options :=
  {| Reference := Reference o; Registry := Registry o; Image := Image o; Tag := Tag o;
     Destination := Destination o; Host := Host o; Storename := Storename o;
     Username := Username o; Password := Password o; OptToken := OptToken o;
     Timeout := Timeout o; InsecureSkipVerify := InsecureSkipVerify o;
     InsecureAllowHTTP := InsecureAllowHTTP o;
     ImageManifestSchema1 := v;
     ImageManifestSchema2 := ImageManifestSchema2 o;
     ManifestDigest := ManifestDigest o |}.

Definition set_ImageManifestSchema2 (v : option DeserializedManifest) (o : Options) : Options :=
  {| Reference := Reference o; Registry := Registry o; Image := Image o; Tag := Tag o;
     Destination := Destination o; Host := Host o; Storename := Storename o;
     Username := Username o; Password := Password o; OptToken := OptToken o;
     Timeout := Timeout o; InsecureSkipVerify := InsecureSkipVerify o;
     InsecureAllowHTTP := InsecureAllowHTTP o;
     ImageManifestSchema1 := ImageManifestSchema1 o;
     ImageManifestSchema2 := v;
     ManifestDigest := ManifestDigest o |}.

Definition set_ManifestDigest (v : string) (o : Options) : Options :=
  {| Reference := Reference o; Registry := Registry o; Image := Image o; Tag := Tag o;
     Destination := Destination o; Host := Host o; Storename := Storename o;
     Username := Username o; Password := Password o; OptToken := OptToken o;
     Timeout := Timeout o; InsecureSkipVerify := InsecureSkipVerify o;
     InsecureAllowHTTP := InsecureAllowHTTP o;
     ImageManifestSchema1 := ImageManifestSchema1 o;
     ImageManifestSchema2 := ImageManifestSchema2 o;
     ManifestDigest := v |}.

Definition with_Opts (f : Options → Options) (ic : ImageC) : ImageC :=
  {| Opts := f (Opts ic); ImageLayers := ImageLayers ic; ImageID := ImageID ic |}.

Definition set_ImageLayers (v : list (option ImageWithMeta)) (ic : ImageC) : ImageC :=
  {| Opts := Opts ic; ImageLayers := v; ImageID := ImageID ic |}.

Definition set_ImageID (v : string) (ic : ImageC) : ImageC :=
  {| Opts := Opts ic; ImageLayers := ImageLayers ic; ImageID := v |}.

(** Package constants. *)
Definition DefaultDockerURL : string := "registry-1.docker.io".
Definition DefaultDestination : string := "images".
Definition DefaultPortLayerHost : string := "localhost:2377".

(** ** The docker [reference] package *)

Module reference.

(** Modelled from the spec: the constants of the docker library, "the
    well-known default tag", "the well-known default marker" of the
    host, and the prefix of the official repositories. *)
Definition DefaultTag : string := "latest".
Definition DefaultHostname : string := "docker.io".
Definition LegacyDefaultHostname : string := "index.docker.io".
Definition DefaultRepoPrefix : string := "library/".

(** Modelled from the spec: the [reference.Named] values of the docker
    library, which the package imports and whose sources are not part
    of this repository: a repository name that is followed by nothing
    (name only), by a tag ([NamedTagged]) or by a digest ([Canonical]).
    The stored name is the normalised one. *)
Inductive Named : Type :=
  | namedRef (name : string)
  | taggedRef (name tag : string)
  | canonicalRef (name digest : string).

Definition Name (r : Named) : string :=
  match r with
  | namedRef n | taggedRef n _ | canonicalRef n _ => n
  end.

Definition String (r : Named) : string :=
  match r with
  | namedRef n => n
  | taggedRef n t => n +:+ ":" +:+ t
  | canonicalRef n d => n +:+ "@" +:+ d
  end.

(** [IsNameOnly]: neither tagged nor canonical. *)
Definition IsNameOnly (r : Named) : bool :=
  match r with
  | namedRef _ => true
  | _ => false
  end.

(** The type assertion [ref.(NamedTagged)] followed by [Tag()]. *)
Definition AsNamedTagged (r : Named) : option string :=
  match r with
  | taggedRef _ t => Some t
  | _ => None
  end.

(** Modelled from the spec: [splitHostname] of the docker library, the
    rule behind "registry host defaults to a well-known default host
    when absent": the part before the first slash is a host when it
    has a dot or a colon or is localhost; official images live under
    the library/ prefix of the default host. *)
Definition splitHostname (name : string) : string * string :=
  let '(hostname, remoteName) :=
    match Strings.IndexByte name "/" with
    | None => (DefaultHostname, name)
    | Some i =>
        let h := Strings.take i name in
        if negb (Strings.ContainsAny h ".:") && negb (String.eqb h "localhost")
        then (DefaultHostname, name)
        else (h, Strings.drop (S i) name)
    end in
  let hostname :=
    if String.eqb hostname LegacyDefaultHostname then DefaultHostname else hostname in
  let remoteName :=
    if String.eqb hostname DefaultHostname && negb (Strings.ContainsRune remoteName "/")
    then DefaultRepoPrefix +:+ remoteName else remoteName in
  (hostname, remoteName).

Definition Hostname (r : Named) : string := fst (splitHostname (Name r)).
Definition RemoteName (r : Named) : string := snd (splitHostname (Name r)).
Definition FullName (r : Named) : string := Hostname r +:+ "/" +:+ RemoteName r.

(** *** The reference grammar

    reference := name [ ":" tag ] [ "@" digest ];
    name := [hostname "/"] component ["/" component]*. *)

Definition is_alnum_lower (a : ascii) : bool := Strings.is_lower a || Strings.is_digit a.
Definition is_alnum (a : ascii) : bool :=
  Strings.is_lower a || Strings.is_upper a || Strings.is_digit a.
Definition is_word (a : ascii) : bool := is_alnum a || Ascii.eqb a "_".
Definition is_hex (a : ascii) : bool :=
  Strings.is_digit a
  || ((97 <=? nat_of_ascii a) && (nat_of_ascii a <=? 102))
  || ((65 <=? nat_of_ascii a) && (nat_of_ascii a <=? 70)).

Inductive component_state := CStart | CAlnum | CDot | CUnder1 | CUnder2 | CDash.

(** component := alpha-numeric [separator alpha-numeric]*, with
    separator one of ".", "_", "__" or a run of "-". *)
Fixpoint component_from (st : component_state) (s : string) : bool :=
  match s with
  | EmptyString => match st with CAlnum => true | _ => false end
  | String.String a s' =>
      if is_alnum_lower a then component_from CAlnum s'
      else match st with
           | CAlnum =>
               if Ascii.eqb a "." then component_from CDot s'
               else if Ascii.eqb a "_" then component_from CUnder1 s'
               else if Ascii.eqb a "-" then component_from CDash s'
               else false
           | CUnder1 => if Ascii.eqb a "_" then component_from CUnder2 s' else false
           | CDash => if Ascii.eqb a "-" then component_from CDash s' else false
           | _ => false
           end
  end.
Definition is_component : string → bool := component_from CStart.

Definition last_byte (s : string) : option ascii :=
  last (String.list_ascii_of_string s).

(** hostcomponent: letters, digits and inner hyphens. *)
Definition is_hostcomponent (s : string) : bool :=
  match s with
  | EmptyString => false
  | String.String a _ =>
      is_alnum a && Strings.all (λ c, is_alnum c || Ascii.eqb c "-") s
      && match last_byte s with Some z => is_alnum z | None => false end
  end.

(** hostname := hostcomponent ["." hostcomponent]* [":" port-number] *)
Definition is_hostname (s : string) : bool :=
  match Strings.IndexByte s ":" with
  | None => forallb is_hostcomponent (Strings.Split s ".")
  | Some i =>
      let port := Strings.drop (S i) s in
      forallb is_hostcomponent (Strings.Split (Strings.take i s) ".")
      && negb (String.eqb port "") && Strings.all Strings.is_digit port
  end.

Definition is_name (s : string) : bool :=
  (String.length s <=? 255) &&
  match Strings.Split s "/" with
  | [] => false
  | [c] => is_component c
  | c :: rest => (is_hostname c || is_component c) && forallb is_component rest
  end.

(** tag := a word character followed by up to 127 word characters,
    dots and hyphens. *)
Definition is_tag (s : string) : bool :=
  match s with
  | EmptyString => false
  | String.String a s' =>
      is_word a
      && Strings.all (λ c, is_word c || Ascii.eqb c "." || Ascii.eqb c "-") s'
      && (String.length s' <=? 127)
  end.

(** digest := algorithm ":" hex, at least 32 hexadecimal digits. *)
Definition is_digest (s : string) : bool :=
  match Strings.IndexByte s ":" with
  | None => false
  | Some i =>
      let alg := Strings.take i s in
      let hex := Strings.drop (S i) s in
      match alg with
      | EmptyString => false
      | String.String a _ =>
          (Strings.is_lower a || Strings.is_upper a)
          && Strings.all (λ c, is_alnum c || Ascii.eqb c "-" || Ascii.eqb c "_"
                               || Ascii.eqb c "+" || Ascii.eqb c ".") alg
      end
      && Strings.all is_hex hex && (32 <=? String.length hex)
  end.

(** The last colon of [s] when it lies after the last slash. *)
Fixpoint tag_colon (s : string) : option nat :=
  match s with
  | EmptyString => None
  | String.String a s' =>
      match tag_colon s' with
      | Some i => Some (S i)
      | None =>
          if Ascii.eqb a ":" && negb (Strings.ContainsRune s' "/") then Some 0 else None
      end
  end.

Definition ErrReferenceInvalidFormat : string := "invalid reference format".
Definition ErrNameEmpty : string := "repository name must have at least one component".

(** The grammar's parse: name, optional tag, optional digest. *)
Definition parse_grammar (s : string) : string + (string * option string * option string) :=
  let '(front, digest) :=
    match Strings.IndexByte s "@" with
    | None => (s, None)
    | Some i => (Strings.take i s, Some (Strings.drop (S i) s))
    end in
  let '(name, tag) :=
    match tag_colon front with
    | None => (front, None)
    | Some i => (Strings.take i front, Some (Strings.drop (S i) front))
    end in
  if String.eqb s "" then inl ErrNameEmpty
  else if is_name name
          && from_option is_tag true tag
          && from_option is_digest true digest
  then inr (name, tag, digest)
  else inl ErrReferenceInvalidFormat.

(** [normalize]: the name without the default host and without the
    library/ prefix of official images. *)
Definition normalize (name : string) : string + string :=
  let '(host, remoteName) := splitHostname name in
  if negb (String.eqb (Strings.ToLower remoteName) remoteName)
  then inl "invalid reference format: repository name must be lowercase"
  else if String.eqb host DefaultHostname
  then inr (Strings.TrimPrefix remoteName DefaultRepoPrefix)
  else inr name.

(** [validateName]: a name must not be a 64-digit hexadecimal image ID. *)
Definition validateName (name : string) : bool :=
  negb ((String.length name =? 64) && Strings.all is_hex name).

(** Modelled from the spec: [reference.ParseNamed] of the docker
    library ("parses repository name, optional tag, optional digest;
    fails on malformed input").  A digest takes precedence over a tag. *)
Definition ParseNamed (s : string) : error + Named :=
  match parse_grammar s with
  | inl e =>
      inl (errorString ("Error parsing reference: " +:+ s
                        +:+ " is not a valid repository/tag: " +:+ e))
  | inr (name, tag, digest) =>
      match normalize name with
      | inl e => inl (errorString e)
      | inr n =>
          if negb (validateName n)
          then inl (errorString ("Invalid repository name (" +:+ n
                      +:+ "), cannot specify 64-byte hexadecimal strings"))
          else if negb (is_name n) then inl (errorString ErrReferenceInvalidFormat)
          else match digest, tag with
               | Some d, _ => inr (canonicalRef n d)
               | None, Some t => inr (taggedRef n t)
               | None, None => inr (namedRef n)
               end
      end
  end.

End reference.

(** The parser is a collaborator: the properties of the functions that
    call it hold for every parser. *)
Class ReferenceParser := { ParseNamed : string → error + reference.Named }.

Definition docker_reference : ReferenceParser := {| ParseNamed := reference.ParseNamed |}.

(** ** ParseReference *)

Section ParseReference.
Context `{ReferenceParser}.

(** [ParseReference] parses the reference parameter and populates the
    options; the returned [ImageC] is the receiver after the call. *)
Definition ParseReference (ic : ImageC) : ImageC * option error :=
  match ParseNamed (Reference (Opts ic)) with
  | inl err => (ic, Some err)
  | inr ref =>
      let ic := with_Opts (set_Tag reference.DefaultTag) ic in
      let ic :=
        if negb (reference.IsNameOnly ref) then
          match reference.AsNamedTagged ref with
          | Some tag => with_Opts (set_Tag tag) ic
          | None => ic
          end
        else ic in
      let ic := with_Opts (set_Registry DefaultDockerURL) ic in
      let ic :=
        if negb (String.eqb (reference.Hostname ref) reference.DefaultHostname)
        then with_Opts (set_Registry (reference.Hostname ref)) ic
        else ic in
      let ic := with_Opts (set_Image (reference.RemoteName ref)) ic in
      (ic, None)
  end.

End ParseReference.

Definition opts0 : Options :=
  {| Reference := ""; Registry := ""; Image := ""; Tag := "";
     Destination := DefaultDestination; Host := DefaultPortLayerHost; Storename := "";
     Username := ""; Password := ""; OptToken := None; Timeout := 3600;
     InsecureSkipVerify := false; InsecureAllowHTTP := false;
     ImageManifestSchema1 := None; ImageManifestSchema2 := None;
     ManifestDigest := "" |}.

Definition set_Reference (v : string) (o : Options) : Options :=
  {| Reference := v; Registry := Registry o; Image := Image o; Tag := Tag o;
     Destination := Destination o; Host := Host o; Storename := Storename o;
     Username := Username o; Password := Password o; OptToken := OptToken o;
     Timeout := Timeout o; InsecureSkipVerify := InsecureSkipVerify o;
     InsecureAllowHTTP := InsecureAllowHTTP o;
     ImageManifestSchema1 := ImageManifestSchema1 o;
     ImageManifestSchema2 := ImageManifestSchema2 o;
     ManifestDigest := ManifestDigest o |}.

Definition NewImageC (options : Options) : ImageC :=
  {| Opts := options; ImageLayers := []; ImageID := "" |}.

(** ** Go's [path] and [net/url] packages *)

Module path.

(** One step of [Clean] on the path elements: [out] holds the kept
    elements, newest first, and [dotdot] counts the leading ".."
    elements that cannot be backtracked over. *)
Definition clean_step (rooted : bool) (st : list string * nat) (elem : string)
  : list string * nat :=
  let '(out, dotdot) := st in
  if String.eqb elem "" then st
  else if String.eqb elem "." then st
  else if String.eqb elem ".." then
    if dotdot <? length out then (tail out, dotdot)
    else if rooted then st
    else (".." :: out, S (length out))
  else (elem :: out, dotdot).

Definition is_rooted (p : string) : bool :=
  match p with
  | String "/" _ => true
  | _ => false
  end.

(** Modelled from the spec: [path.Clean] of Go's standard library, which
    the sources do not contain, by its documented rules: multiple slashes become one, "." elements go,
    an inner ".." goes with the element before it, ".." at the start
    of a rooted path goes, and the empty result is ".". *)
Definition Clean (p : string) : string :=
  if String.eqb p "" then "."
  else
    let rooted := is_rooted p in
    let out := fst (foldl (clean_step rooted) ([], 0) (Strings.Split p "/")) in
    let body := Strings.Join (rev out) "/" in
    if rooted then "/" +:+ body
    else if String.eqb body "" then "." else body.

(** Modelled from the spec: [path.Join] of Go's standard library, which
    builds the path "destination/scheme/host/path/.../image/tag": the
    elements from the first non-empty one on, joined by slashes and
    cleaned; the empty string when all are empty. *)
Fixpoint Join (elem : list string) : string :=
  match elem with
  | [] => ""
  | e :: rest =>
      if String.eqb e "" then Join rest else Clean (Strings.Join elem "/")
  end.

End path.

Module url.

Record URL := { Scheme : string; Opaque : string; UrlHost : string; Path : string }.

Inductive scheme_result :=
  | NoScheme
  | SchemeAt (i : nat)
  | MissingScheme.

(** [getscheme]: letters, then letters, digits, "+", "-" and "." up
    to the first colon. *)
Fixpoint getscheme (i : nat) (s : string) : scheme_result :=
  match s with
  | EmptyString => NoScheme
  | String c s' =>
      if Strings.is_lower c || Strings.is_upper c then getscheme (S i) s'
      else if Strings.is_digit c || Ascii.eqb c "+" || Ascii.eqb c "-" || Ascii.eqb c "."
      then (if i =? 0 then NoScheme else getscheme (S i) s')
      else if Ascii.eqb c ":" then (if i =? 0 then MissingScheme else SchemeAt i)
      else NoScheme
  end.

Definition before (c : ascii) (s : string) : string :=
  match Strings.IndexByte s c with
  | Some i => Strings.take i s
  | None => s
  end.

Definition from (c : ascii) (s : string) : string :=
  match Strings.IndexByte s c with
  | Some i => Strings.drop i s
  | None => ""
  end.

(** Modelled from the spec: [url.Parse] of Go's standard library, for
    registry strings without user information and percent escapes:
    [scheme:opaque] or [[scheme:][//host]path], query and fragment cut
    off.  [None] is the parse error, with which Go returns a nil URL. *)
Definition Parse (rawurl : string) : option URL :=
  let u := before "#" rawurl in
  if String.eqb u "*" then Some {| Scheme := ""; Opaque := ""; UrlHost := ""; Path := "*" |}
  else
    match getscheme 0 u with
    | MissingScheme => None
    | r =>
        let '(scheme, rest) :=
          match r with
          | SchemeAt i => (Strings.ToLower (Strings.take i u), Strings.drop (S i) u)
          | _ => ("", u)
          end in
        let rest := before "?" rest in
        if negb (Strings.HasPrefix rest "/") && negb (String.eqb scheme "")
        then Some {| Scheme := scheme; Opaque := rest; UrlHost := ""; Path := "" |}
        else if negb (Strings.HasPrefix rest "/")
                && Strings.ContainsRune (before "/" rest) ":"
        then None
        else if Strings.HasPrefix rest "//"
                && (negb (String.eqb scheme "") || negb (Strings.HasPrefix rest "///"))
        then
          let authority := before "/" (Strings.drop 2 rest) in
          Some {| Scheme := scheme; Opaque := ""; UrlHost := authority;
                  Path := from "/" (Strings.drop 2 rest) |}
        else Some {| Scheme := scheme; Opaque := ""; UrlHost := ""; Path := rest |}
    end.

End url.

(** The URL parser is a collaborator as well. *)
Class URLParser := { url_Parse : string → option url.URL }.

Definition go_url : URLParser := {| url_Parse := url.Parse |}.

(** ** DestinationDirectory *)

Section DestinationDirectory.
Context `{URLParser}.

(** [DestinationDirectory] returns the path of the output directory.
    The error of [url.Parse] is dropped, so the nil URL of a failed
    parse is dereferenced. *)
Definition DestinationDirectory (options : Options) : run string :=
  match url_Parse (Registry options) with
  | None => Panics nil_dereference
  | Some u =>
      Returns (path.Join [Destination options; url.Scheme u; url.UrlHost u; url.Path u;
                          Image options; Tag options])
  end.

End DestinationDirectory.

(** ** The docker image types and the JSON decoder *)

Module docker.

(** Modelled from the spec: [container.Config] of the docker library:
    the command line, which the history needs, and the remaining fields
    in one piece. *)
Record ContainerConfig := { Cmd : list string; ConfigRest : string }.

(** Modelled from the spec: [image.V1Image] of the docker library, the
    per-layer configuration "containing at minimum {id, parent id or
    empty, creation time, author, command, comment}".  The creation time
    is kept as written. *)
Record V1Image := {
  v1ID : string;
  v1Parent : string;
  Comment : string;
  Created : string;
  Container : string;
  ContainerConfig_ : ContainerConfig;
  DockerVersion : string;
  Author : string;
  Config : option ContainerConfig;
  Architecture : string;
  OS : string;
  v1Size : Z
}.

Definition zeroConfig : ContainerConfig := {| Cmd := []; ConfigRest := "" |}.

(** The zero value [V1Image{}]. *)
Definition zeroV1Image : V1Image :=
  {| v1ID := ""; v1Parent := ""; Comment := ""; Created := ""; Container := "";
     ContainerConfig_ := zeroConfig; DockerVersion := ""; Author := "";
     Config := None; Architecture := ""; OS := ""; v1Size := 0 |}.

(** Modelled from the spec: [image.History] of the docker library, one
    entry of the history of the image configuration. *)
Record History := {
  hCreated : string;
  hAuthor : string;
  CreatedBy : string;
  hComment : string;
  EmptyLayer : bool
}.

(** Modelled from the spec: [image.RootFS] of the docker library, with
    "the accumulated root-filesystem diff-ID list". *)
Record RootFS := { Type_ : string; DiffIDs : list string }.

(** Modelled from the spec: [image.NewRootFS], a root filesystem of type
    "layers" without diff IDs. *)
Definition NewRootFS : RootFS := {| Type_ := "layers"; DiffIDs := [] |}.

(** Modelled from the spec: [image.Image] of the docker library, the
    "canonical configuration document". *)
Record Image := {
  imgV1Image : V1Image;
  imgRootFS : RootFS;
  imgHistory : list History
}.

(** Modelled from the spec: [layer.DigestSHA256EmptyTar] of the docker
    library, "the well-known empty-layer digest": the SHA-256 digest of
    the empty tar archive. *)
Definition DigestSHA256EmptyTar : string :=
  "sha256:5f70bf18a086007016e948b04aed3b82103a36bea41755b6cddfaf10ace3c6ef".

End docker.

(** [json.Unmarshal(data, &v)] writes the fields present in [data] into
    [v] and leaves the others as they are; the decoder itself is a
    collaborator. *)
Class JSONDecoder := { Unmarshal : string → docker.V1Image → error + docker.V1Image }.

(** The canonical serialisation of the image configuration and the
    SHA-256 digest in hexadecimal. *)
Class Digester := {
  MarshalJSON : docker.Image → error + string;
  sha256_hex : string → string
}.

(** ** The layer cache, the repository cache and the image cache *)

Module LayerCache.
Abbreviation t := (gmap string ImageWithMeta) (only parsing).

(** Modelled from the spec: the lookup of the layer cache of the
    package ("keyed lookup/insert by local image ID"), whose source file
    is not at hand. *)
Definition Get (lc : t) (id : string) : error + ImageWithMeta :=
  match lc !! id with
  | Some layer => inr layer
  | None => inl (errorString "layer does not exist in cache")
  end.

(** Modelled from the spec: the insert of the layer cache. *)
Definition Add (lc : t) (layer : ImageWithMeta) : t := <[ID layer := layer]> lc.
End LayerCache.

(** Modelled from the spec: [metadata.ImageConfig] of the repository,
    "the full computed image configuration", with the fields that
    imagec.go fills. *)
Record ImageConfig := {
  cfgV1Image : docker.V1Image;
  cfgImageID : string;
  Digests : list string;
  Tags : list string;
  cfgName : string;
  cfgDiffIDs : gmap string string;
  cfgHistory : list docker.History;
  cfgReference : string
}.

(** Persisting the repository cache to the port layer can fail.  An
    instance is the port layer as it answers during one call; what it
    answers to a later call is another instance. *)
Class PortLayerStore := { Save : gmap string string → gmap string string → option error }.

Module cache.

(** Modelled from the spec: the repository cache of the engine backend
    ("keyed lookup/insert by reference, supports tag and digest
    references bound to one image ID"), whose sources are not at hand. *)
Record Repo := {
  References : gmap string string;   (* reference string ↦ image ID *)
  Layers : gmap string string        (* layer ID ↦ image ID *)
}.

Definition emptyRepo : Repo := {| References := ∅; Layers := ∅ |}.

(** Modelled from the spec: "looked up by the repository cache using
    the layer ID": the image ID of a layer, empty when there is none. *)
Definition GetImageID (rc : Repo) (layerID : string) : string :=
  default "" (Layers rc !! layerID).

(** Modelled from the spec: the image ID a reference resolves to. *)
Definition Get (rc : Repo) (ref : reference.Named) : option string :=
  References rc !! reference.String ref.

(** Modelled from the spec: "binds the reference to the image ID";
    "both bindings are persisted", and persisting can fail.  The binding
    made in memory stays when persisting fails; [force] plays no part. *)
Definition AddReference `{PortLayerStore} (rc : Repo) (ref : reference.Named)
    (imageID : string) (force : bool) (layerID : string) (save : bool)
  : Repo * option error :=
  let rc' := {| References := <[reference.String ref := imageID]> (References rc);
                Layers := <[layerID := imageID]> (Layers rc) |} in
  (rc', if save then Save (References rc') (Layers rc') else None).

Abbreviation ImageCache := (gmap string ImageConfig) (only parsing).

(** Modelled from the spec: the lookup of the image cache ("by image
    ID, stores the full computed image configuration for reuse"). *)
Definition ImageCache_Get (c : ImageCache) (id : string) : error + ImageConfig :=
  match c !! id with
  | Some image => inr image
  | None => inl (errorString ("No such image: " +:+ id))
  end.

End cache.

(** ** LayersToDownload *)

Section LayersToDownload.
Context `{JSONDecoder}.

(** [images[i] = x] on a slice. *)
Definition slice_set {A} (i : nat) (x : A) (l : list A) : run (list A) :=
  if decide (i < length l) then Returns (<[i := x]> l) else Panics index_out_of_range.

(** The record built at one index from the decoded history entry. *)
Definition fresh_layer (storename : string) (v1 : docker.V1Image)
    (history : History) (layer : FSLayer) : ImageWithMeta :=
  let parent := if String.eqb (docker.v1Parent v1) "" then "scratch" else docker.v1Parent v1 in
  {| ID := docker.v1ID v1; Parent := parent; Store := storename;
     DiffID := ""; Layer := layer; Meta := V1Compatibility history;
     Size := 0; Downloading := false |}.

(** The loop body for [i] running from [n - 1] down to [0]; [v1] is
    the one decoding target shared by all iterations. *)
Fixpoint LayersToDownload_from (manifest : Manifest) (storename : string)
    (lc : LayerCache.t) (n : nat) (v1 : docker.V1Image)
    (images : list (option ImageWithMeta))
  : run (error + list (option ImageWithMeta)) :=
  match n with
  | 0 => Returns (inr images)
  | S i =>
      match ManifestHistory manifest !! i, FSLayers manifest !! i with
      | Some history, Some layer =>
          match Unmarshal (V1Compatibility history) v1 with
          | inl err =>
              Returns (inl (Errorf "Failed to unmarshall image history: " (Error err)))
          | inr v1 =>
              let img := fresh_layer storename v1 history layer in
              images ← slice_set i (Some img) images;
              (* populate manifest layer with existing cached data *)
              images ←
                match LayerCache.Get lc (ID img) with
                | inr layer =>
                    if negb (Downloading layer) then slice_set i (Some layer) images
                    else Returns images
                | inl _ => Returns images
                end;
              LayersToDownload_from manifest storename lc i v1 images
          end
      | _, _ => Panics index_out_of_range
      end
  end.

(** [LayersToDownload] creates the slice of the layers that need to
    be downloaded. *)
Definition LayersToDownload (ic : ImageC) (lc : LayerCache.t)
  : run (error + list (option ImageWithMeta)) :=
  match ImageManifestSchema1 (Opts ic) with
  | None => Panics nil_dereference
  | Some manifest =>
      let images := replicate (length (FSLayers manifest)) None in
      LayersToDownload_from manifest (Storename (Opts ic)) lc
        (length (ManifestHistory manifest)) docker.zeroV1Image images
  end.

End LayersToDownload.

(** ** updateRepositoryCache *)

Section updateRepositoryCache.
Context `{ReferenceParser} `{PortLayerStore}.

(** [updateRepositoryCache] adds the tag and the digest of the pulled
    image to the repository cache.  The receiver and the cache after
    the call are returned next to the error. *)
Definition updateRepositoryCache (ic : ImageC) (repoCache : cache.Repo)
  : run (ImageC * cache.Repo * option error) :=
  match ImageLayers ic with
  | [] => Panics index_out_of_range
  | None :: _ => Panics nil_dereference
  | Some layer0 :: _ =>
      let imageLayerID := ID layer0 in
      match ParseNamed (Reference (Opts ic)) with
      | inl err =>
          Returns (ic, repoCache, Some (Errorf "Unable to parse reference: " (Error err)))
      | inr ref =>
          let ic :=
            if String.eqb (ImageID ic) ""
            then set_ImageID (cache.GetImageID repoCache imageLayerID) ic
            else ic in
          if String.eqb (ImageID ic) "" then
            Returns (ic, repoCache,
                     Some (Errorf2 "ImageID not found by LayerID(" imageLayerID
                                   ") in RepositoryCache" ""))
          else
            match cache.AddReference repoCache ref (ImageID ic) true imageLayerID true with
            | (repoCache, Some err) =>
                Returns (ic, repoCache,
                         Some (Errorf2 "Unable to Add Image Reference("
                                       (reference.String ref) "): " (Error err)))
            | (repoCache, None) =>
                match ParseNamed (reference.Name ref +:+ "@" +:+ ManifestDigest (Opts ic)) with
                | inl err =>
                    Returns (ic, repoCache,
                             Some (Errorf "Unable to parse digest: " (Error err)))
                | inr dig =>
                    match cache.AddReference repoCache dig (ImageID ic) true
                                             imageLayerID true with
                    | (repoCache, Some err) =>
                        Returns (ic, repoCache,
                                 Some (Errorf2 "Unable to Add Image Digest("
                                               (reference.String dig) "): " (Error err)))
                    | (repoCache, None) => Returns (ic, repoCache, None)
                    end
                end
            end
      end
  end.

End updateRepositoryCache.

(** ** WriteImageBlob *)

(** The files of the host, as far as [WriteImageBlob] touches them. *)
Class OperatingSystem := {
  FileSystem : Type;
  File : Type;
  os_Open : FileSystem → string → error + File;
  File_Stat : FileSystem → File → error + Z;
  os_RemoveAll : FileSystem → string → FileSystem * option error
}.

(** The progress reader handed to the image store: the open file, its
    size, and the ID and action shown with the progress. *)
Record ProgressReader `{OperatingSystem} := {
  source : File;
  total : Z;
  progressID : string;
  action : string
}.

(** The image store of the port layer: [WriteImage] unpacks the stream
    and persists the layer, or fails.  The stream it is given is the
    progress reader, which reports to the progress output as it is
    read, and once more when it is closed before it has been read to
    its end: [reports] is how often it does so during the write and at
    the closing, which depends on how the store reads. *)
Class ImageStoreWriter `{OperatingSystem} := {
  ImageStore : Type;
  WriteImage : ImageStore → string → ImageWithMeta → ProgressReader → ImageStore * option error;
  reports : ImageStore → string → ImageWithMeta → ProgressReader → nat * nat
}.

(** An event of the progress output: the ID and the action; the byte
    counts of the events of a reader are left out. *)
Record Progress := { progID : string; progAction : string }.

(** Modelled from the spec: the progress reader of the docker library,
    which "reports size-scaled progress events during the write": every
    event of a reader carries the ID and the action the reader was made
    with. *)
Definition progress_report `{OperatingSystem} (rd : ProgressReader) : Progress :=
  {| progID := progressID rd; progAction := action rd |}.

Module stringid.
Definition shortLen : nat := 12.

(** Modelled from the spec: [stringid.TruncateID] of the docker
    library, which names a layer in the progress output: the ID without
    its algorithm prefix, cut to 12 bytes. *)
Definition TruncateID (id : string) : string :=
  let id := match Strings.IndexByte id ":" with
            | Some i => Strings.drop (S i) id
            | None => id
            end in
  Strings.take shortLen id.
End stringid.

Definition ImageWithMeta_String (i : ImageWithMeta) : string :=
  stringid.TruncateID (BlobSum (Layer i)).

Section WriteImageBlob.
Context `{URLParser} `{ImageStoreWriter}.

(** What the call can change: the files, the image store and the
    progress output, to which the call and the progress reader write. *)
Record World := {
  fs : FileSystem;
  store : ImageStore;
  output : list Progress
}.

(** [WriteImageBlob] writes the image blob to the storage layer. *)
Definition WriteImageBlob (ic : ImageC) (image : ImageWithMeta) (cleanup : bool)
    (w : World) : run (World * option error) :=
  destination ← DestinationDirectory (Opts ic);
  let id := ID image in
  match os_Open (fs w) (path.Join [destination; id; id +:+ ".tar"]) with
  | inl err => Returns (w, Some (Errorf "Failed to open file: " (Error err)))
  | inr f =>
      match File_Stat (fs w) f with
      | inl err => Returns (w, Some (Errorf "Failed to stat file: " (Error err)))
      | inr size =>
          let in_ := {| source := f; total := size;
                        progressID := ImageWithMeta_String image;
                        action := "Extracting" |} in
          (* what [in] reports while it is read, and what the deferred
             [in.Close()] reports when the function returns *)
          let reported := reports (store w) (Host (Opts ic)) image in_ in
          let reading := replicate reported.1 (progress_report in_) in
          let closing := replicate reported.2 (progress_report in_) in
          (* Write the image *)
          match WriteImage (store w) (Host (Opts ic)) image in_ with
          | (store', Some err) =>
              Returns ({| fs := fs w; store := store';
                          output := output w ++ reading ++ closing |},
                       Some (Errorf "Failed to write to image store: " (Error err)))
          | (store', None) =>
              let out := output w ++ reading
                         ++ [{| progID := ImageWithMeta_String image;
                                progAction := "Pull complete" |}] in
              if cleanup then
                match os_RemoveAll (fs w) destination with
                | (fs', Some err) =>
                    Returns ({| fs := fs'; store := store'; output := out ++ closing |},
                             Some (Errorf "Failed to remove download directory: "
                                          (Error err)))
                | (fs', None) =>
                    Returns ({| fs := fs'; store := store'; output := out ++ closing |},
                             None)
                end
              else Returns ({| fs := fs w; store := store'; output := out ++ closing |},
                            None)
          end
      end
  end.

End WriteImageBlob.

(** ** CreateImageConfig *)

Definition int64_wrap (z : Z) : Z :=
  ((z + 2 ^ 63) mod 2 ^ 64 - 2 ^ 63)%Z.

Section CreateImageConfig.
Context `{JSONDecoder} `{Digester}.

(** The history entry of a decoded layer configuration. *)
Definition history_of (image : docker.V1Image) (emptyLayer : bool) : docker.History :=
  {| docker.hCreated := docker.Created image;
     docker.hAuthor := docker.Author image;
     docker.CreatedBy := Strings.Join (docker.Cmd (docker.ContainerConfig_ image)) " ";
     docker.hComment := docker.Comment image;
     docker.EmptyLayer := emptyLayer |}.

Definition loop_state : Type :=
  docker.V1Image * docker.RootFS * list docker.History * Z.

(** "step through layers to get command history and diffID from oldest
    to newest": [i] runs from [n - 1] down to [0]. *)
Fixpoint CreateImageConfig_from (images : list (option ImageWithMeta)) (n : nat)
    (image : docker.V1Image) (rootFS : docker.RootFS)
    (history : list docker.History) (size : Z) : run (error + loop_state) :=
  match n with
  | 0 => Returns (inr (image, rootFS, history, size))
  | S i =>
      match images !! i with
      | None => Panics index_out_of_range
      | Some None => Panics nil_dereference
      | Some (Some layer) =>
          match Unmarshal (Meta layer) image with
          | inl err =>
              Returns (inl (Errorf "Failed to unmarshall layer history: " (Error err)))
          | inr image =>
              (* is this an empty layer? *)
              if String.eqb (DiffID layer) docker.DigestSHA256EmptyTar then
                CreateImageConfig_from images i image rootFS
                  (history ++ [history_of image true])
                  (int64_wrap (size + Size layer))
              else
                (* if not empty, add diffID to rootFS *)
                CreateImageConfig_from images i image
                  {| docker.Type_ := docker.Type_ rootFS;
                     docker.DiffIDs := docker.DiffIDs rootFS ++ [DiffID layer] |}
                  (history ++ [history_of image false])
                  (int64_wrap (size + Size layer))
          end
      end
  end.

(** "result is constructed without unused fields" *)
Definition result_image (image : docker.V1Image) (rootFS : docker.RootFS)
    (history : list docker.History) : docker.Image :=
  {| docker.imgV1Image :=
       {| docker.v1ID := ""; docker.v1Parent := "";
          docker.Comment := docker.Comment image;
          docker.Created := docker.Created image;
          docker.Container := docker.Container image;
          docker.ContainerConfig_ := docker.ContainerConfig_ image;
          docker.DockerVersion := docker.DockerVersion image;
          docker.Author := docker.Author image;
          docker.Config := docker.Config image;
          docker.Architecture := docker.Architecture image;
          docker.OS := docker.OS image;
          docker.v1Size := 0 |};
     docker.imgRootFS := rootFS;
     docker.imgHistory := history |}.

(** "prepare metadata": parent, size and ID are filled in after the
    digest has been taken. *)
Definition metadata_image (result : docker.Image) (image : docker.V1Image) (size : Z)
    (id : string) : docker.V1Image :=
  let v := docker.imgV1Image result in
  {| docker.v1ID := id; docker.v1Parent := docker.v1Parent image;
     docker.Comment := docker.Comment v; docker.Created := docker.Created v;
     docker.Container := docker.Container v;
     docker.ContainerConfig_ := docker.ContainerConfig_ v;
     docker.DockerVersion := docker.DockerVersion v;
     docker.Author := docker.Author v; docker.Config := docker.Config v;
     docker.Architecture := docker.Architecture v; docker.OS := docker.OS v;
     docker.v1Size := size |}.

(** [CreateImageConfig] constructs the image metadata from the layers
    that compose the image. *)
Definition CreateImageConfig (ic : ImageC) (repoCache : cache.Repo)
    (imageCache : cache.ImageCache) (images : list (option ImageWithMeta))
  : run (error + ImageConfig) :=
  match images with
  | [] => Panics index_out_of_range
  | None :: _ => Panics nil_dereference
  | Some imageLayer :: _ =>
      (* if we already have an imageID associated with this layerID, we
         can just grab the image config from the cache *)
      let id := cache.GetImageID repoCache (ID imageLayer) in
      match cache.ImageCache_Get imageCache id with
      | inr image => Returns (inr image)
      | inl _ =>
          let manifest := ImageManifestSchema1 (Opts ic) in
          r ← CreateImageConfig_from images (length images) docker.zeroV1Image
                docker.NewRootFS [] 0%Z;
          match r with
          | inl err => Returns (inl err)
          | inr (image, rootFS, history, size) =>
              let result := result_image image rootFS history in
              match MarshalJSON result with
              | inl err =>
                  Returns (inl (Errorf "Failed to marshall image metadata: " (Error err)))
              | inr imageConfigBytes =>
                  (* calculate image ID *)
                  let sum := sha256_hex imageConfigBytes in
                  match manifest with
                  | None => Panics nil_dereference
                  | Some manifest =>
                      Returns (inr
                        {| cfgV1Image := metadata_image result image size (ID imageLayer);
                           cfgImageID := sum;
                           Digests := [ManifestDigest (Opts ic)];
                           Tags := [Tag (Opts ic)];
                           cfgName := Name manifest;
                           cfgDiffIDs := ∅;
                           cfgHistory := history;
                           cfgReference := Reference (Opts ic) |})
                  end
              end
          end
      end
  end.

End CreateImageConfig.

(** ** PullImage *)

(** The collaborators of a pull: the host identity, the port layer, the
    registry and the layer downloader.  A failed call is [inl]; where
    the code uses the returned value next to the error, both are kept.
    The collaborators are taken to return, and a fetched schema 1
    manifest to be a manifest; the context with its timeout and the
    message "Pulling from" to the progress output are not part of the
    embedding. *)
Class PullCollaborators := {
  sys_UUID : error + string;
  PingPortLayer : string → bool * option error;
  LearnRegistryURL : Options → string * option error;
  LearnAuthURL : Options → error + option string;
  FetchToken : Options → string → error + Token;
  FetchImageManifest : Options → nat → error + manifest_value * string;
  DownloadLayers : ImageC → LayerCache.t → ImageC * LayerCache.t * option error
}.

Section PullImage.
Context `{ReferenceParser} `{JSONDecoder} `{PullCollaborators}.

(** A phase either ends the pull with the receiver and the returned
    error, or hands the receiver on. *)
Definition phase : Type := (ImageC * option error) + ImageC.

(** Reference, host identity, port layer, registry, OAuth endpoint
    and token. *)
Definition pull_connect (ic : ImageC) : phase :=
  (* Parse the -reference parameter *)
  match ParseReference ic with
  | (ic, Some err) => inl (ic, Some err)
  | (ic, None) =>
      match sys_UUID with
      | inl err => inl (ic, Some err)
      | inr host =>
          let ic := with_Opts (set_Storename host) ic in
          (* Ping the server to ensure it's at least running *)
          let '(ok, err) := PingPortLayer (Host (Opts ic)) in
          if bool_decide (is_Some err) || negb ok then inl (ic, err)
          else
            (* Calculate (and overwrite) the registry URL *)
            let '(registry, err) := LearnRegistryURL (Opts ic) in
            let ic := with_Opts (set_Registry registry) ic in
            match err with
            | Some err => inl (ic, Some err)
            | None =>
                (* Get the URL of the OAuth endpoint *)
                match LearnAuthURL (Opts ic) with
                | inl (ImageNotFoundError _) =>
                    inl (ic, Some (Errorf2 "Error: image " (Reference (Opts ic))
                                           " not found" ""))
                | inl err =>
                    inl (ic, Some (Errorf "Failed to obtain OAuth endpoint: " (Error err)))
                | inr None => inr ic
                | inr (Some url) =>
                    (* Get the OAuth token - if only we have a URL *)
                    match FetchToken (Opts ic) url with
                    | inl err => inl (ic, Some err)
                    | inr token => inr (with_Opts (set_Token (Some token)) ic)
                    end
                end
            end
      end
  end.

(** "Get the schema1 manifest" *)
Definition pull_schema1 (ic : ImageC) : phase :=
  match FetchImageManifest (Opts ic) 1 with
  | inl (ImageNotFoundError _) =>
      inl (ic, Some (Errorf2 "Error: image " (Image (Opts ic)) " not found" ""))
  | inl (TagNotFoundError _) =>
      inl (ic, Some (Errorf2 "Tag " (Tag (Opts ic)) " not found in repository "
                             (Image (Opts ic))))
  | inl err =>
      inl (ic, Some (Errorf "Error while pulling image manifest: " (Error err)))
  | inr (Schema1Value schema1, digest) =>
      inr (with_Opts (set_ManifestDigest digest)
             (with_Opts (set_ImageManifestSchema1 (Some schema1)) ic))
  | inr (_, _) => inl (ic, Some (errorString "Error pulling manifest schema 1"))
  end.

(** The schema 2 manifest, fetched for its digest. *)
Definition pull_schema2 (ic : ImageC) : ImageC :=
  match FetchImageManifest (Opts ic) 2 with
  | inr (Schema2Value schema2, digest) =>
      (* Override the manifest digest as Docker uses schema 2 *)
      with_Opts (set_ManifestDigest digest)
        (with_Opts (set_ImageManifestSchema2 (Some schema2)) ic)
  | _ => ic
  end.

(** The layers of the manifest and their download. *)
Definition pull_layers (ic : ImageC) (lc : LayerCache.t)
  : run (ImageC * LayerCache.t * option error) :=
  r ← LayersToDownload ic lc;
  match r with
  | inl err => Returns (ic, lc, Some err)
  | inr layers =>
      let ic := set_ImageLayers layers ic in
      match DownloadLayers ic lc with
      | (ic, lc, Some err) => Returns (ic, lc, Some err)
      | (ic, lc, None) => Returns (ic, lc, None)
      end
  end.

(** [PullImage] pulls an image from docker hub. *)
Definition PullImage (ic : ImageC) (lc : LayerCache.t)
  : run (ImageC * LayerCache.t * option error) :=
  match pull_connect ic with
  | inl (ic, err) => Returns (ic, lc, err)
  | inr ic =>
      match pull_schema1 ic with
      | inl (ic, err) => Returns (ic, lc, err)
      | inr ic => pull_layers (pull_schema2 ic) lc
      end
  end.

End PullImage.

(** ** Instances of the collaborators

    Small executable collaborators with which the functions above run
    on concrete inputs. *)

Module json.

Definition quote : ascii := "034"%char.
Definition backslash : ascii := "092"%char.

(** A string literal from just after its opening quote: the content
    and what follows the closing quote.  Escapes are refused. *)
Fixpoint read_string (s : string) : option (string * string) :=
  match s with
  | EmptyString => None
  | String c s' =>
      if Ascii.eqb c quote then Some ("", s')
      else if Ascii.eqb c backslash then None
      else '(v, r) ← read_string s'; Some (String c v, r)
  end.

(** The members ["key":"value"] of an object up to the closing brace. *)
Fixpoint read_members (fuel : nat) (s : string) : option (list (string * string)) :=
  match fuel, s with
  | S fuel, String c s1 =>
      if Ascii.eqb c quote then
        '(k, s2) ← read_string s1;
        match s2 with
        | String ":" (String c' s3) =>
            if Ascii.eqb c' quote then
              '(v, s4) ← read_string s3;
              match s4 with
              | String "}" EmptyString => Some [(k, v)]
              | String "," s5 => ms ← read_members fuel s5; Some ((k, v) :: ms)
              | _ => None
              end
            else None
        | _ => None
        end
      else None
  | _, _ => None
  end.

Definition read_object (s : string) : option (list (string * string)) :=
  match s with
  | String "{" (String "}" EmptyString) => Some []
  | String "{" s' => read_members (String.length s') s'
  | _ => None
  end.

Definition set_field (img : docker.V1Image) (kv : string * string) : docker.V1Image :=
  let '(k, v) := kv in
  let pick (name : string) (old : string) := if String.eqb k name then v else old in
  {| docker.v1ID := pick "id" (docker.v1ID img);
     docker.v1Parent := pick "parent" (docker.v1Parent img);
     docker.Comment := pick "comment" (docker.Comment img);
     docker.Created := pick "created" (docker.Created img);
     docker.Container := pick "container" (docker.Container img);
     docker.ContainerConfig_ := docker.ContainerConfig_ img;
     docker.DockerVersion := pick "docker_version" (docker.DockerVersion img);
     docker.Author := pick "author" (docker.Author img);
     docker.Config := docker.Config img;
     docker.Architecture := pick "architecture" (docker.Architecture img);
     docker.OS := pick "os" (docker.OS img);
     docker.v1Size := docker.v1Size img |}.

(** A decoder for the objects whose members are strings without
    escapes and without white space, such as
    [{"id":"a","parent":"b"}]: the members named after a string field
    of [V1Image] are written, in order; the other fields stay.
    Every other document is refused. *)
Definition Unmarshal (data : string) (v : docker.V1Image) : error + docker.V1Image :=
  match read_object data with
  | Some members => inr (foldl set_field v members)
  | None => inl (errorString "invalid character looking for beginning of value")
  end.

(** The text of an object with the given string members. *)
Definition member (kv : string * string) : string :=
  String quote (kv.1 +:+ String quote (String ":" (String quote (kv.2 +:+ String quote "")))).

Definition object (members : list (string * string)) : string :=
  "{" +:+ Strings.Join (member <$> members) "," +:+ "}".

End json.

Definition flat_json : JSONDecoder := {| Unmarshal := json.Unmarshal |}.

(** A digester that prints the hashed fields one after the other and
    keeps the text as its own digest. *)
Definition print_history (h : docker.History) : string :=
  docker.hCreated h +:+ "|" +:+ docker.hAuthor h +:+ "|" +:+ docker.CreatedBy h +:+ "|"
  +:+ docker.hComment h +:+ "|" +:+ (if docker.EmptyLayer h then "empty" else "layer").

Definition print_image (img : docker.Image) : string :=
  docker.Comment (docker.imgV1Image img) +:+ ";"
  +:+ docker.Created (docker.imgV1Image img) +:+ ";"
  +:+ docker.Author (docker.imgV1Image img) +:+ ";"
  +:+ Strings.Join (docker.DiffIDs (docker.imgRootFS img)) "," +:+ ";"
  +:+ Strings.Join (print_history <$> docker.imgHistory img) ",".

Definition text_digester : Digester :=
  {| MarshalJSON := λ img, inr (print_image img); sha256_hex := λ s, s |}.

(** Files as a list of paths with their contents; removing a directory
    removes the paths below it. *)
Definition below (dir p : string) : bool :=
  String.eqb p dir || Strings.HasPrefix p (dir +:+ "/").

Fixpoint read_file (files : list (string * string)) (p : string) : option string :=
  match files with
  | [] => None
  | (q, content) :: files' => if String.eqb q p then Some content else read_file files' p
  end.

Definition map_os : OperatingSystem :=
  {| FileSystem := list (string * string);
     File := string;
     os_Open := λ files p,
       match read_file files p with
       | Some content => inr content
       | None => inl (errorString ("open " +:+ p +:+ ": no such file or directory"))
       end;
     File_Stat := λ _ f, inr (Z.of_nat (String.length f));
     os_RemoveAll := λ files dir,
       (List.filter (λ kv, negb (below dir kv.1)) files, None) |}.

(** An image store that keeps the contents per layer ID and refuses an
    empty stream; it reads the stream in one piece. *)
Definition list_store : @ImageStoreWriter map_os :=
  {| ImageStore := list (string * string);
     WriteImage := λ st host image rd,
       if String.eqb (@source map_os rd) ""
       then (st, Some (errorString "unexpected EOF"))
       else ((ID image, @source map_os rd) :: st, None);
     reports := λ _ _ _ _, (1, 0) |}.

(** A port layer that persists every cache, and one that has room for
    a single reference. *)
Definition reliable_store : PortLayerStore := {| Save := λ _ _, None |}.

Definition small_store : PortLayerStore :=
  {| Save := λ references _,
       if bool_decide (size references ≤ 1) then None
       else Some (errorString "port layer: no space left") |}.

(** A registry with one two-layer image; [schema2] is what it answers
    to the request for the schema 2 manifest. *)
Definition busybox_manifest : Manifest :=
  {| Name := "library/busybox";
     FSLayers := [ {| BlobSum := "sha256:a3ed95caeb02ffe68cdd9fd84406680ae93d633cb16422d00e8a7c22955b46d4" |};
                   {| BlobSum := "sha256:385e281300cc6d88bdd155e0931fbdfbb1801c2b0265340a40481ee2b733ae66" |} ];
     ManifestHistory :=
       [ {| V1Compatibility := json.object [("id", "top"); ("parent", "base"); ("created", "2016-03-18T18:22:48Z")] |};
         {| V1Compatibility := json.object [("id", "base"); ("created", "2016-03-18T18:22:47Z")] |} ] |}.

Definition one_registry (schema2 : error + manifest_value * string) : PullCollaborators :=
  {| sys_UUID := inr "564d0a3c-host";
     PingPortLayer := λ _, (true, None);
     LearnRegistryURL := λ o, ("https://" +:+ Registry o +:+ "/v2", None);
     LearnAuthURL := λ _, inr None;
     FetchToken := λ _ _, inr {| TokenValue := "" |};
     FetchImageManifest := λ _ schema,
       if schema =? 1 then inr (Schema1Value busybox_manifest, "sha256:schema1digest")
       else schema2;
     DownloadLayers := λ ic lc, (ic, lc, None) |}.

(** * The vocabulary of the properties

    Predicates, projections and example values that the statements
    below are written with. *)

(** The three fields a reference resolves to. *)
Definition resolved (ic : ImageC) : string * string * string :=
  (Registry (Opts ic), Image (Opts ic), Tag (Opts ic)).

(** The tuple the destination path is built from. *)
Definition destination_tuple (u : url.URL) (o : Options)
  : string * string * string * string * string :=
  (url.Scheme u, url.UrlHost u, url.Path u, Image o, Tag o).

(** A single path element: not empty, not "." or "..", no slash. *)
Definition is_element (e : string) : bool :=
  negb (String.eqb e "") && negb (String.eqb e ".") && negb (String.eqb e "..")
  && negb (Strings.ContainsRune e "/").

Definition slash_free (e : string) : Prop := Strings.IndexByte e "/" = None.

(** What the destination contributes to the joined path: whether it is
    rooted, and its cleaned elements. *)
Definition join_root (d : string) : string :=
  if path.is_rooted d then "/" else "".

Definition join_base (d : string) : list string :=
  if String.eqb d "" then []
  else rev (foldl (path.clean_step (path.is_rooted d)) ([], 0) (Strings.Split d "/")).1.

(** The non-empty elements of a slash-separated path. *)
Definition elements (p : string) : list string :=
  filter (λ e, e ≠ "") (Strings.Split p "/").

(** A path without "." and ".." elements, and a name made of single
    elements separated by one slash each. *)
Definition is_clean_path (p : string) : bool :=
  forallb (λ e, String.eqb e "" || is_element e) (Strings.Split p "/").

Definition is_relative_name (s : string) : bool :=
  forallb is_element (Strings.Split s "/").

(** Two options with one destination and distinct tuples that have the
    same destination directory. *)
Definition collide (o1 o2 : Options) : Prop :=
  ∃ u1 u2,
    url.Parse (Registry o1) = Some u1 ∧ url.Parse (Registry o2) = Some u2
    ∧ Destination o1 = Destination o2
    ∧ destination_tuple u1 o1 ≠ destination_tuple u2 o2
    ∧ @DestinationDirectory go_url o1 = @DestinationDirectory go_url o2.

(** A tuple whose scheme, host and tag are single elements and whose
    image is a name of single elements. *)
Definition well_formed_tuple (u : url.URL) (o : Options) : bool :=
  is_element (url.Scheme u) && is_element (url.UrlHost u)
  && is_relative_name (Image o) && is_element (Tag o).

(** "populate manifest layer with existing cached data": the cached
    record when there is one that is not being downloaded. *)
Definition from_cache (lc : LayerCache.t) (img : ImageWithMeta) : ImageWithMeta :=
  match lc !! ID img with
  | Some layer => if Downloading layer then img else layer
  | None => img
  end.

(** The record with the given ID among the layers, and the walk along
    the parents: a chain reaches "scratch" within [hops] hops. *)
Definition find_layer (layers : list (option ImageWithMeta)) (id : string)
  : option ImageWithMeta :=
  list_find (λ r, ID <$> r = Some id) layers ≫= snd.

Fixpoint reaches_scratch (layers : list (option ImageWithMeta)) (hops : nat)
    (parent : string) : bool :=
  if String.eqb parent "scratch" then true
  else match hops with
       | 0 => false
       | S hops =>
           match find_layer layers parent with
           | Some r => reaches_scratch layers hops (Parent r)
           | None => false
           end
       end.

Section decoding.
Context `{JSONDecoder}.

(** The decoding target after the entries of [hist] have been decoded
    into it, last entry first. *)
Fixpoint decode_chain (hist : list History) : error + docker.V1Image :=
  match hist with
  | [] => inr docker.zeroV1Image
  | h :: older =>
      match decode_chain older with
      | inl err => inl err
      | inr v1 => Unmarshal (V1Compatibility h) v1
      end
  end.

(** The decoded configuration of the entry at index [i]. *)
Definition decoded (m : Manifest) (i : nat) : error + docker.V1Image :=
  decode_chain (drop i (ManifestHistory m)).

(** The history entries form a chain: the oldest one has no parent,
    every other one names the ID of the next older one as its parent,
    and no two entries have the same ID. *)
Definition is_chain (m : Manifest) : Prop :=
  let n := length (ManifestHistory m) in
  ∀ i v, i < n → decoded m i = inr v →
    (S i = n → docker.v1Parent v = "")
    ∧ (∀ v', S i < n → decoded m (S i) = inr v' → docker.v1Parent v = docker.v1ID v')
    ∧ (∀ j v', j < n → decoded m j = inr v' → docker.v1ID v' = docker.v1ID v → j = i).

(** The layer cache has no finished copy of a layer of the manifest. *)
Definition not_cached (lc : LayerCache.t) (m : Manifest) : Prop :=
  ∀ i v c, i < length (ManifestHistory m) → decoded m i = inr v →
    lc !! docker.v1ID v = Some c → Downloading c = true.

(** The finished copies that the layer cache has of layers of the
    manifest agree with the manifest on the ID and on the parent, as the
    records of an earlier pull of the manifest do. *)
Definition cache_agrees (lc : LayerCache.t) (m : Manifest) : Prop :=
  ∀ i v c, i < length (ManifestHistory m) → decoded m i = inr v →
    lc !! docker.v1ID v = Some c → Downloading c = false →
    ID c = docker.v1ID v
    ∧ Parent c = (if String.eqb (docker.v1Parent v) "" then "scratch"
                  else docker.v1Parent v).

End decoding.

Definition with_manifest (m : Manifest) : ImageC :=
  NewImageC (set_Storename "store" (set_ImageManifestSchema1 (Some m) opts0)).

(** A cache with a finished copy of the top layer and a copy of the
    base layer that is still being downloaded. *)
Definition cached_top : ImageWithMeta :=
  {| ID := "top"; Parent := "base"; Store := "store";
     DiffID := "sha256:d1"; Layer := {| BlobSum := "sha256:a3" |};
     Meta := "{}"; Size := 667590; Downloading := false |}.

Definition loading_base : ImageWithMeta :=
  {| ID := "base"; Parent := "scratch"; Store := "store";
     DiffID := ""; Layer := {| BlobSum := "sha256:38" |};
     Meta := "{}"; Size := 0; Downloading := true |}.

(** The errors of the three phases. *)
Definition ErrImageIDNotFound (layerID : string) : error :=
  Errorf2 "ImageID not found by LayerID(" layerID ") in RepositoryCache" "".
Definition ErrAddReference (ref : reference.Named) (err : error) : error :=
  Errorf2 "Unable to Add Image Reference(" (reference.String ref) "): " (Error err).
Definition ErrAddDigest (dig : reference.Named) (err : error) : error :=
  Errorf2 "Unable to Add Image Digest(" (reference.String dig) "): " (Error err).

Definition pulled_busybox : ImageC :=
  {| Opts := set_ManifestDigest
               "sha256:fc1a6b909f82ce4b72204198d49de3aaf757b3ab2bb823cb6e47c416b97c5985"
               (set_Reference "busybox" opts0);
     ImageLayers := [Some cached_top];
     ImageID := "e292aa76ad3b" |}.

(** Closes the cases of a call whose collaborators' answers are known. *)
Ltac settle_calls :=
  repeat split; intros; simplify_eq;
  repeat match goal with
         | H1 : ?x = inr _, H2 : ?x = _ |- _ => rewrite H1 in H2; simplify_eq
         | H1 : ?x = inl _, H2 : ?x = _ |- _ => rewrite H1 in H2; simplify_eq
         | H1 : ?x = (_, _), H2 : context [?x] |- _ =>
             rewrite H1 in H2; cbn [fst snd] in H2; simplify_eq
         end;
  try reflexivity.

Definition busybox_options : Options :=
  set_Tag "latest" (set_Image "library/busybox"
    (set_Registry "https://registry-1.docker.io/v2" opts0)).

Definition busybox_tar : string :=
  "images/https/registry-1.docker.io/v2/library/busybox/latest/top/top.tar".

Definition scratch_files : list (string * string) :=
  [ (busybox_tar, "layer.tar contents"); ("images/README", "keep") ].

Definition scratch_world : @World map_os list_store :=
  @Build_World map_os list_store scratch_files [] [].

(** Two records that agree in every field but the in-progress flag. *)
Definition same_content (a b : ImageWithMeta) : Prop :=
  ID a = ID b ∧ Parent a = Parent b ∧ Store a = Store b ∧ DiffID a = DiffID b
  ∧ Layer a = Layer b ∧ Meta a = Meta b ∧ Size a = Size b.

(** The image cache has no configuration for the image of the first
    layer, so that the configuration is computed. *)
Definition not_in_image_cache (rc : cache.Repo) (imgc : cache.ImageCache)
    (chain : list ImageWithMeta) : Prop :=
  ∀ l, head chain = Some l → imgc !! cache.GetImageID rc (ID l) = None.

Definition is_empty_layer (l : ImageWithMeta) : bool :=
  String.eqb (DiffID l) docker.DigestSHA256EmptyTar.

(** A top layer without content over a base layer. *)
Definition empty_top : ImageWithMeta :=
  {| ID := "top"; Parent := "scratch"; Store := "store";
     DiffID := docker.DigestSHA256EmptyTar;
     Layer := {| BlobSum := "sha256:a3ed95caeb02ffe68cdd9fd84406680ae93d633cb16422d00e8a7c22955b46d4" |};
     Meta := json.object [("id", "top"); ("created", "2016-03-18T18:22:48Z")];
     Size := 0; Downloading := false |}.

Definition base_layer : ImageWithMeta :=
  {| ID := "base"; Parent := "scratch"; Store := "store";
     DiffID := "sha256:385e281300cc6d88bdd155e0931fbdfbb1801c2b0265340a40481ee2b733ae66";
     Layer := {| BlobSum := "sha256:385e281300cc6d88bdd155e0931fbdfbb1801c2b0265340a40481ee2b733ae66" |};
     Meta := json.object [("id", "base"); ("created", "2016-03-18T18:22:47Z")];
     Size := 667590; Downloading := false |}.

Definition loading (l : ImageWithMeta) : ImageWithMeta :=
  {| ID := ID l; Parent := Parent l; Store := Store l; DiffID := DiffID l;
     Layer := Layer l; Meta := Meta l; Size := Size l; Downloading := true |}.

(** ** More vocabulary *)

(** The options apart from the three fields a reference resolves to. *)
Definition unresolved_part (o : Options) : Options :=
  set_Tag "" (set_Image "" (set_Registry "" o)).

(** Every record of the layer cache is stored under its own ID, as
    [LayerCache.Add] stores it. *)
Definition well_keyed (lc : LayerCache.t) : Prop :=
  ∀ id layer, lc !! id = Some layer → ID layer = id.

(** The layer cache after the records of a slice have been added, the
    first one last. *)
Definition remember (lc : LayerCache.t) (layers : list (option ImageWithMeta))
  : LayerCache.t :=
  foldr (λ r lc, match r with Some layer => LayerCache.Add lc layer | None => lc end)
        lc layers.

(** The IDs of the records of a slice. *)
Definition layer_ids (layers : list (option ImageWithMeta)) : list string :=
  omap (fmap ID) layers.

(** Manifests with one FS layer too many, with one too few, and with a
    history entry that is not a JSON document. *)
Definition long_manifest : Manifest :=
  {| Name := "library/busybox";
     FSLayers := [ {| BlobSum := "sha256:a3" |}; {| BlobSum := "sha256:38" |};
                   {| BlobSum := "sha256:00" |} ];
     ManifestHistory := ManifestHistory busybox_manifest |}.

Definition short_manifest : Manifest :=
  {| Name := "library/busybox";
     FSLayers := [ {| BlobSum := "sha256:a3" |} ];
     ManifestHistory := ManifestHistory busybox_manifest |}.

Definition broken_manifest : Manifest :=
  {| Name := "library/busybox";
     FSLayers := FSLayers busybox_manifest;
     ManifestHistory :=
       [ {| V1Compatibility := json.object [("id", "top"); ("parent", "base")] |};
         {| V1Compatibility := "{id: base}" |} ] |}.

(** A receiver whose reference does not parse. *)
Definition misspelt_busybox : ImageC :=
  {| Opts := set_Reference "Busy Box" opts0;
     ImageLayers := [Some cached_top];
     ImageID := "e292aa76ad3b" |}.

(** Files that can be read but not removed, and the image store over
    them. *)
Definition readonly_os : OperatingSystem :=
  {| FileSystem := list (string * string);
     File := string;
     os_Open := λ files p,
       match read_file files p with
       | Some content => inr content
       | None => inl (errorString ("open " +:+ p +:+ ": no such file or directory"))
       end;
     File_Stat := λ _ f, inr (Z.of_nat (String.length f));
     os_RemoveAll := λ files dir,
       (files, Some (errorString ("unlinkat " +:+ dir +:+ ": read-only file system"))) |}.

Definition readonly_store : @ImageStoreWriter readonly_os :=
  {| ImageStore := list (string * string);
     WriteImage := λ st host image rd,
       if String.eqb (@source readonly_os rd) ""
       then (st, Some (errorString "unexpected EOF"))
       else ((ID image, @source readonly_os rd) :: st, None);
     reports := λ _ _ _ _, (2, 0) |}.

Definition readonly_world : @World readonly_os readonly_store :=
  @Build_World readonly_os readonly_store scratch_files [] [].

(** The progress event that ends the extraction of a layer, and the
    progress reader that [WriteImageBlob] makes for a layer. *)
Definition pull_complete (image : ImageWithMeta) : Progress :=
  {| progID := ImageWithMeta_String image; progAction := "Pull complete" |}.

Definition extracting `{OperatingSystem} (image : ImageWithMeta) (f : File) (size : Z)
  : ProgressReader :=
  {| source := f; total := size; progressID := ImageWithMeta_String image;
     action := "Extracting" |}.

(** The events that a call has added to the progress output. *)
Definition added (before after : list Progress) : list Progress :=
  drop (length before) after.

Section decoding_layers.
Context `{JSONDecoder}.

(** The decoding target after the configurations of the records of
    [chain] have been decoded into [image], last record first. *)
Fixpoint decode_layers (image : docker.V1Image) (chain : list ImageWithMeta)
  : error + docker.V1Image :=
  match chain with
  | [] => inr image
  | l :: older =>
      match decode_layers image older with
      | inl err => inl err
      | inr image => Unmarshal (Meta l) image
      end
  end.

End decoding_layers.

(** The sum of the sizes of the records, as a number. *)
Definition total_size (chain : list ImageWithMeta) : Z :=
  foldr (λ l sum, (Size l + sum)%Z) 0%Z chain.

(** Two records with the same configuration text and the same diff ID. *)
Definition same_document (a b : ImageWithMeta) : Prop :=
  Meta a = Meta b ∧ DiffID a = DiffID b.

(** What of the state of the loop goes into the serialised document:
    everything but the size. *)
Definition document_of (r : run (error + loop_state))
  : run (error + docker.V1Image * docker.RootFS * list docker.History) :=
  match r with
  | Returns (inr (image, rootFS, history, _)) => Returns (inr (image, rootFS, history))
  | Returns (inl err) => Returns (inl err)
  | Panics why => Panics why
  end.

(** A record of a slice with its ID and its configuration text kept,
    whatever has been filled in since. *)
Definition filled_from (r : option ImageWithMeta) (l : ImageWithMeta) : Prop :=
  ∃ x, r = Some x ∧ ID l = ID x ∧ Meta l = Meta x.

(** The layers of busybox under other IDs, in another store and with
    other sizes. *)
Definition renamed_top : ImageWithMeta :=
  {| ID := "5a0f"; Parent := "77c1"; Store := "other";
     DiffID := DiffID empty_top; Layer := {| BlobSum := "sha256:a3" |};
     Meta := Meta empty_top; Size := 32; Downloading := false |}.

Definition renamed_base : ImageWithMeta :=
  {| ID := "77c1"; Parent := "scratch"; Store := "other";
     DiffID := DiffID base_layer; Layer := {| BlobSum := "sha256:38" |};
     Meta := Meta base_layer; Size := 1; Downloading := false |}.

(** A layer whose configuration is not a JSON document, and two layers
    whose sizes add up to more than a 64-bit integer holds. *)
Definition broken_layer : ImageWithMeta :=
  {| ID := "base"; Parent := "scratch"; Store := "store";
     DiffID := "sha256:38"; Layer := {| BlobSum := "sha256:38" |};
     Meta := "{id: base}"; Size := 10; Downloading := false |}.

Definition huge_layer : ImageWithMeta :=
  {| ID := "huge"; Parent := "scratch"; Store := "store";
     DiffID := "sha256:38"; Layer := {| BlobSum := "sha256:38" |};
     Meta := "{}"; Size := 2 ^ 62; Downloading := false |}.

(** The records of the layers of busybox after their download: the
    diff IDs and the sizes are filled in. *)
Definition pulled_top : ImageWithMeta :=
  {| ID := "top"; Parent := "base"; Store := "store";
     DiffID := docker.DigestSHA256EmptyTar;
     Layer := {| BlobSum := "sha256:a3ed95caeb02ffe68cdd9fd84406680ae93d633cb16422d00e8a7c22955b46d4" |};
     Meta := json.object [("id", "top"); ("parent", "base"); ("created", "2016-03-18T18:22:48Z")];
     Size := 32; Downloading := false |}.

Definition pulled_base : ImageWithMeta :=
  {| ID := "base"; Parent := "scratch"; Store := "store";
     DiffID := "sha256:385e281300cc6d88bdd155e0931fbdfbb1801c2b0265340a40481ee2b733ae66";
     Layer := {| BlobSum := "sha256:385e281300cc6d88bdd155e0931fbdfbb1801c2b0265340a40481ee2b733ae66" |};
     Meta := json.object [("id", "base"); ("created", "2016-03-18T18:22:47Z")];
     Size := 667590; Downloading := false |}.

(** What of the receiver is the caller's: the layers, the image ID and
    the options that no step before the download assigns. *)
Definition callers_part (ic : ImageC) :=
  (ImageLayers ic, ImageID ic, Reference (Opts ic), Destination (Opts ic),
   Host (Opts ic), Username (Opts ic), Password (Opts ic), Timeout (Opts ic),
   InsecureSkipVerify (Opts ic), InsecureAllowHTTP (Opts ic)).

(** A port layer that answers the ping with neither ok nor an error, in
    front of a downloader that always fails; and a registry whose
    manifest has fewer FS layers than history entries. *)
Definition silent_port_layer : PullCollaborators :=
  {| sys_UUID := inr "564d0a3c-host";
     PingPortLayer := λ _, (false, None);
     LearnRegistryURL := λ o, ("https://" +:+ Registry o +:+ "/v2", None);
     LearnAuthURL := λ _, inr None;
     FetchToken := λ _ _, inr {| TokenValue := "" |};
     FetchImageManifest := λ _ _, inr (Schema1Value busybox_manifest, "sha256:schema1digest");
     DownloadLayers := λ ic lc, (ic, lc, Some (errorString "no route to host")) |}.

Definition short_registry : PullCollaborators :=
  {| sys_UUID := inr "564d0a3c-host";
     PingPortLayer := λ _, (true, None);
     LearnRegistryURL := λ o, ("https://" +:+ Registry o +:+ "/v2", None);
     LearnAuthURL := λ _, inr None;
     FetchToken := λ _ _, inr {| TokenValue := "" |};
     FetchImageManifest := λ _ _, inr (Schema1Value short_manifest, "sha256:schema1digest");
     DownloadLayers := λ ic lc, (ic, lc, None) |}.


(** A receiver whose second layer is nil and that has no manifest, and
    a configuration of its image as the image cache holds it. *)
Definition half_pulled : ImageC :=
  set_ImageLayers [Some cached_top; None] pulled_busybox.

Definition stored_config : ImageConfig :=
  {| cfgV1Image := docker.zeroV1Image;
     cfgImageID := "e292aa76ad3b";
     Digests := ["sha256:fc1a6b909f82ce4b72204198d49de3aaf757b3ab2bb823cb6e47c416b97c5985"];
     Tags := ["latest"];
     cfgName := "library/busybox";
     cfgDiffIDs := ∅;
     cfgHistory := [];
     cfgReference := "busybox" |}.

(** * Properties *)

(** ** ParseReference *)

Section ParseReference_facts.
Context `{ReferenceParser}.

Lemma ParseReference_ok (ic : ImageC) (ref : reference.Named) :
  ParseNamed (Reference (Opts ic)) = inr ref →
  ParseReference ic =
    (with_Opts (set_Image (reference.RemoteName ref))
       (with_Opts (set_Registry
                     (if String.eqb (reference.Hostname ref) reference.DefaultHostname
                      then DefaultDockerURL else reference.Hostname ref))
          (with_Opts (set_Tag (if reference.IsNameOnly ref then reference.DefaultTag
                               else default reference.DefaultTag (reference.AsNamedTagged ref)))
             ic)), None).
Proof.
  intros Hparse. unfold ParseReference. rewrite Hparse.
  destruct ic as [o ls id].
  destruct ref as [n | n t | n d]; cbn [reference.IsNameOnly reference.AsNamedTagged negb default];
    destruct (String.eqb _ reference.DefaultHostname); reflexivity.
Qed.

Lemma ParseReference_inl (ic : ImageC) (err : error) :
  ParseNamed (Reference (Opts ic)) = inl err → ParseReference ic = (ic, Some err).
Proof. intros Hparse. unfold ParseReference. by rewrite Hparse. Qed.

(** Only a parse failure makes [ParseReference] fail. *)
Lemma ParseReference_fails_inv (ic ic' : ImageC) (err : error) :
  ParseReference ic = (ic', Some err) →
  ic' = ic ∧ ParseNamed (Reference (Opts ic)) = inl err.
Proof.
  destruct (ParseNamed (Reference (Opts ic))) as [e | ref] eqn:Hparse.
  - unfold ParseReference. rewrite Hparse. intros [= <- <-]. done.
  - rewrite (ParseReference_ok _ _ Hparse). discriminate.
Qed.

End ParseReference_facts.

(** C6: the reference "busybox" resolves to the default registry host,
    the repository library/busybox and the tag latest; the reference
    "myregistry.example.com:5000/app:v2" resolves to the host
    myregistry.example.com:5000, the repository app and the tag v2; and
    for every parser, the registry is the default host exactly when the
    parsed host is the default marker, and the tag is the default tag
    when the reference names only a repository. *)
Theorem ParseReference_resolves :
  (∀ ic, Reference (Opts ic) = "busybox" →
     let '(ic', err) := @ParseReference docker_reference ic in
     err = None ∧ resolved ic' = ("registry-1.docker.io", "library/busybox", "latest"))
  ∧ (∀ ic, Reference (Opts ic) = "myregistry.example.com:5000/app:v2" →
       let '(ic', err) := @ParseReference docker_reference ic in
       err = None ∧ resolved ic' = ("myregistry.example.com:5000", "app", "v2"))
  ∧ (∀ (parser : ReferenceParser) ic ref,
       ParseNamed (Reference (Opts ic)) = inr ref →
       let '(ic', err) := ParseReference ic in
       err = None
       ∧ Registry (Opts ic') =
           (if String.eqb (reference.Hostname ref) reference.DefaultHostname
            then DefaultDockerURL else reference.Hostname ref)
       ∧ (reference.IsNameOnly ref = true → Tag (Opts ic') = reference.DefaultTag)
       ∧ (∀ tag, reference.AsNamedTagged ref = Some tag → Tag (Opts ic') = tag)
       ∧ Image (Opts ic') = reference.RemoteName ref).
Proof.
  split; [|split].
  - intros ic Href.
    rewrite (ParseReference_ok (H := docker_reference) ic (reference.namedRef "busybox"))
      by (cbn; rewrite Href; reflexivity).
    split; reflexivity.
  - intros ic Href.
    rewrite (ParseReference_ok (H := docker_reference) ic
               (reference.taggedRef "myregistry.example.com:5000/app" "v2"))
      by (cbn; rewrite Href; reflexivity).
    split; reflexivity.
  - intros parser ic ref Hparse. rewrite (ParseReference_ok _ _ Hparse).
    repeat split.
    + cbn. intros ->. reflexivity.
    + cbn. intros tag Htag. destruct ref; try discriminate. cbn in *. congruence.
Qed.

Lemma ParseReference_resolves_witness :
  resolved (@ParseReference docker_reference (NewImageC (set_Reference "busybox" opts0))).1
  = ("registry-1.docker.io", "library/busybox", "latest").
Proof.
  pose proof (proj1 ParseReference_resolves
                (NewImageC (set_Reference "busybox" opts0)) eq_refl) as Hw.
  destruct (@ParseReference docker_reference _) as [ic' err].
  exact (proj2 Hw).
Defined.

(** C10: when the reference does not parse, [ParseReference] returns
    the parse error and the receiver is as it was: tag, registry, image
    and every other field keep their values. *)
Theorem ParseReference_error_atomic `{ReferenceParser} (ic : ImageC) (err : error) :
  ParseNamed (Reference (Opts ic)) = inl err →
  ParseReference ic = (ic, Some err).
Proof.
  intros Hparse. unfold ParseReference. rewrite Hparse. reflexivity.
Qed.

Lemma ParseReference_error_atomic_witness :
  let ic := NewImageC (set_Tag "old" (set_Reference "Busy Box" opts0)) in
  ∃ err, @ParseReference docker_reference ic = (ic, Some err).
Proof.
  eexists.
  apply (ParseReference_error_atomic (H := docker_reference)).
  reflexivity.
Defined.

(** ** DestinationDirectory *)

Section path_facts.

Lemma Split_nonempty s c : Strings.Split s c ≠ [].
Proof.
  destruct s as [|a s]; cbn; [done|].
  destruct (Ascii.eqb a c); [done|]. destruct (Strings.Split s c); done.
Qed.

Lemma Split_app s1 s2 c :
  Strings.Split (s1 +:+ String c s2) c = Strings.Split s1 c ++ Strings.Split s2 c.
Proof.
  induction s1 as [|a s1 IH]; simpl.
  - rewrite Ascii.eqb_refl. reflexivity.
  - rewrite IH. destruct (Ascii.eqb a c); [reflexivity|].
    pose proof (Split_nonempty s1 c).
    destruct (Strings.Split s1 c); [done|reflexivity].
Qed.

Lemma Split_free s c : Strings.IndexByte s c = None → Strings.Split s c = [s].
Proof.
  induction s as [|a s IH]; cbn; [done|].
  destruct (Ascii.eqb a c); [done|].
  destruct (Strings.IndexByte s c); [done|]. intros _. rewrite IH; done.
Qed.

Lemma Split_elements_free s c :
  Forall (λ e, Strings.IndexByte e c = None) (Strings.Split s c).
Proof.
  induction s as [|a s IH]; cbn.
  - repeat constructor.
  - destruct (Ascii.eqb a c) eqn:Hac.
    + constructor; done.
    + destruct (Strings.Split s c) as [|w ws]; [repeat constructor; cbn; by rewrite Hac|].
      inversion IH as [|? ? Hw Hws]; subst. constructor; [|done].
      cbn. rewrite Hac, Hw. done.
Qed.

Lemma Join_cons e es sep :
  es ≠ [] → Strings.Join (e :: es) sep = e +:+ sep +:+ Strings.Join es sep.
Proof. destruct es; done. Qed.

Lemma Split_Join (l : list string) :
  l ≠ [] → Forall slash_free l → Strings.Split (Strings.Join l "/") "/" = l.
Proof.
  induction l as [|e es IH]; [done|]. intros _ Hfree.
  inversion Hfree as [|? ? He Hes]; subst.
  destruct es as [|e' es].
  - cbn. by apply Split_free.
  - rewrite Join_cons by done.
    change ("/" +:+ ?s) with (String "/" s).
    rewrite Split_app, (Split_free e) by done.
    rewrite IH by done. reflexivity.
Qed.

Lemma is_element_spec e :
  is_element e = true → e ≠ "" ∧ e ≠ "." ∧ e ≠ ".." ∧ slash_free e.
Proof.
  unfold is_element, slash_free, Strings.ContainsRune.
  rewrite !andb_true_iff, !negb_true_iff.
  intros [[[H1 H2] H3] H4].
  apply String.eqb_neq in H1, H2, H3.
  apply bool_decide_eq_false in H4.
  repeat split; try done.
  destruct (Strings.IndexByte e "/"); [|done]. exfalso. apply H4. by eexists.
Qed.

Lemma clean_step_element rooted out dotdot e :
  is_element e = true →
  path.clean_step rooted (out, dotdot) e = (e :: out, dotdot).
Proof.
  intros (H1 & H2 & H3 & _)%is_element_spec. unfold path.clean_step.
  apply String.eqb_neq in H1, H2, H3. rewrite H1, H2, H3. reflexivity.
Qed.

Lemma clean_elements rooted out dotdot es :
  Forall (λ e, is_element e = true) es →
  foldl (path.clean_step rooted) (out, dotdot) es = (rev es ++ out, dotdot).
Proof.
  revert out. induction es as [|e es IH]; intros out Hes; [done|].
  inversion Hes; subst. cbn [foldl]. rewrite clean_step_element by done.
  rewrite IH by done. cbn. rewrite <- app_assoc. reflexivity.
Qed.

Lemma clean_step_free rooted st e :
  Forall slash_free st.1 → slash_free e →
  Forall slash_free (path.clean_step rooted st e).1.
Proof.
  destruct st as [out dotdot]. cbn. intros Hout He.
  repeat case_match; cbn; try done.
  all: try (constructor; done).
  destruct out; cbn; [done|]. by inversion Hout.
Qed.

Lemma clean_free rooted st es :
  Forall slash_free st.1 → Forall slash_free es →
  Forall slash_free (foldl (path.clean_step rooted) st es).1.
Proof.
  revert st. induction es as [|e es IH]; intros st Hst Hes; [done|].
  inversion Hes; subst. cbn [foldl]. apply IH; [|done].
  by apply clean_step_free.
Qed.

End path_facts.

Section Join_facts.

Lemma forallb_Forall_true {A} (f : A → bool) (l : list A) :
  forallb f l = true ↔ Forall (λ x, f x = true) l.
Proof.
  induction l as [|x l IH]; cbn.
  - split; [constructor|done].
  - rewrite andb_true_iff, IH, Forall_cons. done.
Qed.

Lemma Join_eq_empty (l : list string) :
  Strings.Join l "/" = "" → l = [] ∨ l = [""].
Proof.
  destruct l as [|e [|e' es]]; [by left| |].
  - cbn. intros ->. by right.
  - rewrite Join_cons by done. destruct e; discriminate.
Qed.

Lemma is_rooted_element e : is_element e = true → path.is_rooted e = false.
Proof.
  intros (H1 & _ & _ & H4)%is_element_spec. destruct e as [|a e]; [done|].
  unfold slash_free in H4. cbn in H4. cbn.
  destruct (Ascii.eqb_spec a "/") as [->|Hne]; [done|].
  destruct a as [[] [] [] [] [] [] [] []]; try reflexivity. done.
Qed.

Lemma is_rooted_app d s : d ≠ "" → path.is_rooted (d +:+ s) = path.is_rooted d.
Proof. destruct d; done. Qed.

Lemma base_free d : Forall slash_free (join_base d).
Proof.
  unfold join_base. destruct (String.eqb d ""); [constructor|].
  apply Forall_rev, clean_free; [constructor|]. apply Split_elements_free.
Qed.

Lemma elements_free p : Forall slash_free (elements p).
Proof.
  apply Forall_forall. intros e [_ He]%list_elem_of_filter. revert e He.
  apply Forall_forall, Split_elements_free.
Qed.

Lemma Join_elements_ne L e es :
  e ≠ "" → Strings.Join (L ++ e :: es) "/" ≠ "".
Proof.
  intros H1 Hj. apply Join_eq_empty in Hj as [Hj | Hj].
  - by destruct L.
  - destruct L as [|x [|y L]]; simplify_eq/=.
Qed.

Lemma Split_Join_concat (l : list string) :
  l ≠ [] →
  Strings.Split (Strings.Join l "/") "/" = concat ((λ e, Strings.Split e "/") <$> l).
Proof.
  induction l as [|e es IH]; [done|]. intros _.
  destruct es as [|e' es].
  - cbn. by rewrite app_nil_r.
  - rewrite Join_cons by done.
    change ("/" +:+ Strings.Join (e' :: es) "/")
      with (String "/" (Strings.Join (e' :: es) "/")).
    rewrite Split_app, IH by done. reflexivity.
Qed.

Lemma Join_Split (s : string) : Strings.Join (Strings.Split s "/") "/" = s.
Proof.
  induction s as [|a s IH]; [done|]. cbn [Strings.Split].
  pose proof (Split_nonempty s "/") as Hne.
  destruct (Ascii.eqb_spec a "/") as [->|_].
  - rewrite Join_cons by done. by rewrite IH.
  - destruct (Strings.Split s "/") as [|w [|w' ws]]; [done| |].
    + cbn in *. by rewrite IH.
    + rewrite Join_cons in * by done. cbn. rewrite <- IH. reflexivity.
Qed.

Lemma clean_segments rooted out dotdot segs :
  Forall (λ e, String.eqb e "" || is_element e = true) segs →
  foldl (path.clean_step rooted) (out, dotdot) segs
  = (rev (filter (λ e, e ≠ "") segs) ++ out, dotdot).
Proof.
  revert out. induction segs as [|e segs IH]; intros out Hsegs; [done|].
  inversion Hsegs as [|? ? He Hsegs']; subst. cbn [foldl].
  destruct (String.eqb_spec e "") as [->|Hne].
  - change (path.clean_step rooted (out, dotdot) "") with (out, dotdot).
    rewrite IH by done. rewrite filter_cons_False by naive_solver. reflexivity.
  - rewrite clean_step_element by done. rewrite IH by done.
    rewrite filter_cons_True by done. cbn. by rewrite <- app_assoc.
Qed.

Lemma elements_element e : is_element e = true → elements e = [e].
Proof.
  intros (H1 & _ & _ & H4)%is_element_spec. unfold elements.
  rewrite Split_free by done. by rewrite filter_cons_True, filter_nil.
Qed.

Lemma elements_relative_name s :
  is_relative_name s = true → elements s = Strings.Split s "/".
Proof.
  unfold is_relative_name, elements. intros Hs%forallb_Forall_true.
  induction Hs as [|e l He _ IH]; [done|].
  rewrite filter_cons_True, IH; [done|].
  by apply is_element_spec in He as (? & _).
Qed.

(** The joined path of a destination, a single element and clean
    paths: the root and the cleaned elements of the destination, then
    the element and the elements of the paths. *)
Lemma Join_clean d e rest :
  is_element e = true → forallb is_clean_path rest = true →
  path.Join (d :: e :: rest) =
    join_root d +:+ Strings.Join (join_base d ++ e :: concat (elements <$> rest)) "/".
Proof.
  intros He Hrest. pose proof He as (He1 & _ & _ & He4)%is_element_spec.
  assert (Forall (λ x, String.eqb x "" || is_element x = true)
            (concat ((λ x, Strings.Split x "/") <$> rest))) as Hsegs.
  { apply forallb_Forall_true in Hrest. clear -Hrest.
    induction Hrest as [|p ps Hp _ IH]; [constructor|]. cbn.
    apply Forall_app. split; [|done].
    by apply forallb_Forall_true in Hp. }
  assert (filter (λ x, x ≠ "") (concat ((λ x, Strings.Split x "/") <$> rest))
          = concat (elements <$> rest)) as Hflat.
  { clear. induction rest as [|p ps IH]; [done|]. cbn.
    by rewrite filter_app, IH. }
  unfold join_root, join_base.
  destruct (String.eqb_spec d "") as [->|Hd].
  - cbn [path.Join path.is_rooted app]. rewrite (proj2 (String.eqb_neq e "")) by done.
    unfold path.Clean.
    destruct (String.eqb_spec (Strings.Join (e :: rest) "/") "") as [Hj|_];
      [by apply (Join_elements_ne [] e rest) in Hj|].
    rewrite Split_Join_concat by done. cbn [fmap list_fmap concat].
    rewrite (Split_free e) by done. cbn [app foldl].
    assert (path.is_rooted (Strings.Join (e :: rest) "/") = false) as ->.
    { destruct rest; [by apply is_rooted_element|].
      rewrite Join_cons, is_rooted_app by done. by apply is_rooted_element. }
    rewrite clean_step_element by done.
    rewrite clean_segments by done. cbn [fst]. rewrite Hflat.
    rewrite rev_app_distr, rev_involutive. cbn [rev app].
    destruct (String.eqb_spec (Strings.Join (e :: concat (elements <$> rest)) "/") "")
      as [Hj|_]; [by apply (Join_elements_ne [] e _) in Hj|].
    reflexivity.
  - cbn [path.Join]. rewrite (proj2 (String.eqb_neq d "")) by done.
    unfold path.Clean. rewrite Join_cons by done.
    destruct (String.eqb_spec (d +:+ "/" +:+ Strings.Join (e :: rest) "/") "") as [Hj|_];
      [by destruct d|].
    rewrite is_rooted_app by done.
    change ("/" +:+ Strings.Join (e :: rest) "/")
      with (String "/" (Strings.Join (e :: rest) "/")).
    rewrite Split_app, Split_Join_concat, foldl_app by done.
    cbn [fmap list_fmap concat]. rewrite (Split_free e) by done. cbn [app foldl].
    destruct (foldl (path.clean_step (path.is_rooted d)) ([], 0) (Strings.Split d "/"))
      as [out dotdot] eqn:Hfold.
    rewrite clean_step_element by done.
    rewrite clean_segments by done. cbn [fst]. rewrite Hflat.
    rewrite rev_app_distr, rev_involutive. cbn [rev]. rewrite <- app_assoc. cbn [app].
    destruct (path.is_rooted d); [reflexivity|].
    destruct (String.eqb_spec (Strings.Join (rev out ++ e :: concat (elements <$> rest)) "/") "")
      as [Hj|_]; [by apply Join_elements_ne in Hj|].
    reflexivity.
Qed.

End Join_facts.

Lemma Returns_inj {A} (a b : A) : Returns a = Returns b → a = b.
Proof. by intros [= ->]. Qed.

Section DestinationDirectory_facts.
Context `{URLParser}.

Lemma DestinationDirectory_parsed (o : Options) (u : url.URL) :
  url_Parse (Registry o) = Some u →
  DestinationDirectory o =
    Returns (path.Join [Destination o; url.Scheme u; url.UrlHost u; url.Path u;
                        Image o; Tag o]).
Proof. intros Hu. unfold DestinationDirectory. by rewrite Hu. Qed.

Lemma is_clean_path_element e : is_element e = true → is_clean_path e = true.
Proof.
  intros He. pose proof He as (_ & _ & _ & Hfree)%is_element_spec.
  unfold is_clean_path. rewrite Split_free by done. cbn. by rewrite He, orb_true_r.
Qed.

Lemma is_clean_path_name s : is_relative_name s = true → is_clean_path s = true.
Proof.
  unfold is_relative_name, is_clean_path. rewrite !forallb_Forall_true.
  intros Hs. eapply Forall_impl; [exact Hs|]. cbn. intros x ->. apply orb_true_r.
Qed.

Lemma Join_tuple d (u : url.URL) (o : Options) :
  well_formed_tuple u o = true → is_clean_path (url.Path u) = true →
  path.Join [d; url.Scheme u; url.UrlHost u; url.Path u; Image o; Tag o]
  = join_root d +:+
    Strings.Join (join_base d ++ url.Scheme u :: url.UrlHost u ::
                    elements (url.Path u) ++ Strings.Split (Image o) "/" ++ [Tag o]) "/".
Proof.
  unfold well_formed_tuple. rewrite !andb_true_iff.
  intros [[[Hs Hh] Hi] Ht] Hp.
  rewrite Join_clean; [|done|].
  - cbn [fmap list_fmap concat].
    rewrite (elements_element (url.UrlHost u)), (elements_element (Tag o)) by done.
    rewrite (elements_relative_name (Image o)) by done.
    cbn [app]. rewrite ?app_nil_r. reflexivity.
  - cbn. rewrite Hp, (is_clean_path_element _ Hh), (is_clean_path_element _ Ht),
      (is_clean_path_name _ Hi). done.
Qed.

End DestinationDirectory_facts.

(** C8, as stated, fails: the registry path /v2/library with the image
    busybox and the registry path /v2 with the image library/busybox
    are distinct tuples with one destination directory; so are the image
    busybox/latest without a tag and the image busybox with the tag
    latest, and an image with a ".." element and the image it cleans
    to. *)
Lemma DestinationDirectory_collision :
  let registry := "https://registry.example.com/v2" in
  let busybox := set_Tag "latest" (set_Image "busybox" (set_Registry registry opts0)) in
  let o1 := set_Tag "latest" (set_Image "library/busybox" (set_Registry registry opts0)) in
  let o2 := set_Tag "latest" (set_Image "busybox"
              (set_Registry "https://registry.example.com/v2/library" opts0)) in
  let o3 := set_Tag "" (set_Image "busybox/latest" (set_Registry registry opts0)) in
  let o4 := set_Tag "latest" (set_Image "tmp/../busybox" (set_Registry registry opts0)) in
  collide o1 o2
  ∧ @DestinationDirectory go_url o1
    = Returns "images/https/registry.example.com/v2/library/busybox/latest"
  ∧ collide o3 busybox
  ∧ collide o4 busybox
  ∧ @DestinationDirectory go_url busybox
    = Returns "images/https/registry.example.com/v2/busybox/latest".
Proof.
  repeat split;
    try (eexists _, _; split; [reflexivity|]; split; [reflexivity|];
         split; [reflexivity|]; split; [discriminate|reflexivity]).
Qed.

(** C8, amended: the destination directory is a function of the
    destination, the scheme, host and path of the registry, the image
    and the tag, namely their joined and cleaned path, computed from the
    options alone; and for one destination and one registry path without
    "." and ".." elements, two tuples whose scheme, host and tag are
    single path elements and whose image is a name of such elements have
    the same directory only if they are equal. *)
Theorem DestinationDirectory_function `{URLParser} (o1 o2 : Options) (u1 u2 : url.URL) :
  url_Parse (Registry o1) = Some u1 →
  url_Parse (Registry o2) = Some u2 →
  Destination o1 = Destination o2 →
  DestinationDirectory o1 =
    Returns (path.Join [Destination o1; url.Scheme u1; url.UrlHost u1; url.Path u1;
                        Image o1; Tag o1])
  ∧ (destination_tuple u1 o1 = destination_tuple u2 o2 →
     DestinationDirectory o1 = DestinationDirectory o2)
  ∧ (url.Path u1 = url.Path u2 →
     is_clean_path (url.Path u1) = true →
     well_formed_tuple u1 o1 = true →
     well_formed_tuple u2 o2 = true →
     DestinationDirectory o1 = DestinationDirectory o2 →
     destination_tuple u1 o1 = destination_tuple u2 o2).
Proof.
  intros Hu1 Hu2 Hd.
  rewrite (DestinationDirectory_parsed o1 u1 Hu1), (DestinationDirectory_parsed o2 u2 Hu2).
  split; [done|]. split.
  - unfold destination_tuple. intros [= -> -> -> -> ->]. by rewrite Hd.
  - intros Hp Hclean Hw1 Hw2 Hjoin%Returns_inj.
    rewrite <- Hd, (Join_tuple _ u1 o1), (Join_tuple _ u2 o2) in Hjoin
      by (done || by rewrite <- Hp).
    apply (inj (String.app _)) in Hjoin.
    apply (f_equal (λ s, Strings.Split s "/")) in Hjoin.
    unfold well_formed_tuple in Hw1, Hw2. rewrite !andb_true_iff in Hw1, Hw2.
    destruct Hw1 as [[[Hs1 Hh1] Hi1] Ht1], Hw2 as [[[Hs2 Hh2] Hi2] Ht2].
    apply is_element_spec in Hs1 as (_ & _ & _ & Hs1), Hh1 as (_ & _ & _ & Hh1),
      Ht1 as (_ & _ & _ & Ht1), Hs2 as (_ & _ & _ & Hs2), Hh2 as (_ & _ & _ & Hh2),
      Ht2 as (_ & _ & _ & Ht2).
    rewrite !Split_Join in Hjoin.
    + apply app_inv_head in Hjoin. injection Hjoin as Hs Hh Hrest.
      rewrite <- Hp in Hrest. apply app_inv_head in Hrest.
      apply app_inj_tail in Hrest as [Hi Ht].
      apply (f_equal (λ l, Strings.Join l "/")) in Hi. rewrite !Join_Split in Hi.
      unfold destination_tuple. congruence.
    + by destruct (join_base (Destination o1)).
    + apply Forall_app. split; [apply base_free|].
      repeat (apply Forall_cons; split; [done|]).
      rewrite !Forall_app. split; [apply elements_free|].
      split; [apply Split_elements_free | by repeat constructor].
    + by destruct (join_base (Destination o1)).
    + apply Forall_app. split; [apply base_free|].
      repeat (apply Forall_cons; split; [done|]).
      rewrite !Forall_app. split; [apply elements_free|].
      split; [apply Split_elements_free | by repeat constructor].
Qed.

Lemma DestinationDirectory_function_witness :
  let o := set_Tag "latest" (set_Image "library/busybox"
             (set_Registry "https://registry-1.docker.io/v2" opts0)) in
  @DestinationDirectory go_url o
  = Returns "images/https/registry-1.docker.io/v2/library/busybox/latest".
Proof.
  intros o.
  pose proof (DestinationDirectory_function (H := go_url) o o
                {| url.Scheme := "https"; url.Opaque := "";
                   url.UrlHost := "registry-1.docker.io"; url.Path := "/v2" |}
                {| url.Scheme := "https"; url.Opaque := "";
                   url.UrlHost := "registry-1.docker.io"; url.Path := "/v2" |}
                eq_refl eq_refl eq_refl) as (Hpath & _ & Hinj).
  pose proof (Hinj eq_refl eq_refl eq_refl eq_refl eq_refl) as _.
  exact Hpath.
Defined.

(** ** LayersToDownload *)

Section LayersToDownload_facts.
Context `{JSONDecoder}.

Lemma decoded_step (m : Manifest) (i : nat) (h : History) :
  ManifestHistory m !! i = Some h →
  decoded m i =
    match decoded m (S i) with
    | inl err => inl err
    | inr v1 => Unmarshal (V1Compatibility h) v1
    end.
Proof.
  intros Hh. unfold decoded. by rewrite (drop_S _ _ _ Hh).
Qed.

Lemma decoded_end (m : Manifest) :
  decoded m (length (ManifestHistory m)) = inr docker.zeroV1Image.
Proof. unfold decoded. by rewrite drop_all. Qed.

Lemma slice_set_Returns {A} (i : nat) (x : A) (l l' : list A) :
  slice_set i x l = Returns l' → i < length l ∧ l' = <[i := x]> l.
Proof. unfold slice_set. case_decide; naive_solver. Qed.

Lemma slice_set_lt {A} (i : nat) (x : A) (l : list A) :
  i < length l → slice_set i x l = Returns (<[i := x]> l).
Proof. intros. unfold slice_set. by rewrite decide_True. Qed.

(** One iteration stores the record of the index, or its cached copy. *)
Lemma populate_Returns (lc : LayerCache.t) (img : ImageWithMeta) (i : nat)
    (images : list (option ImageWithMeta)) :
  i < length images →
  match LayerCache.Get lc (ID img) with
  | inr layer =>
      if negb (Downloading layer) then slice_set i (Some layer) (<[i := Some img]> images)
      else Returns (<[i := Some img]> images)
  | inl _ => Returns (<[i := Some img]> images)
  end = Returns (<[i := Some (from_cache lc img)]> images).
Proof.
  intros Hi. unfold LayerCache.Get, from_cache.
  destruct (lc !! ID img) as [layer|]; [|done].
  destruct (Downloading layer); cbn; [done|].
  rewrite slice_set_lt by (by rewrite length_insert). by rewrite list_insert_insert_eq.
Qed.

(** What a returning loop has done: the slice keeps its length and its
    entries from [n] on, and each index below [n] holds the record
    built from the entries of that index, or its cached copy. *)
Lemma LayersToDownload_from_inv (m : Manifest) (storename : string) (lc : LayerCache.t)
    (n : nat) (v1 : docker.V1Image) (images out : list (option ImageWithMeta)) :
  LayersToDownload_from m storename lc n v1 images = Returns (inr out) →
  decoded m n = inr v1 →
  length out = length images
  ∧ (∀ j, n ≤ j → out !! j = images !! j)
  ∧ (∀ i, i < n →
       ∃ h l v, ManifestHistory m !! i = Some h ∧ FSLayers m !! i = Some l
                ∧ decoded m i = inr v
                ∧ out !! i = Some (Some (from_cache lc (fresh_layer storename v h l)))).
Proof.
  revert v1 images. induction n as [|i IH]; intros v1 images Hrun Hdec.
  - cbn in Hrun. injection Hrun as <-. split; [done|]. split; [done|]. intros; lia.
  - cbn [LayersToDownload_from] in Hrun.
    destruct (ManifestHistory m !! i) as [h|] eqn:Hh; [|done].
    destruct (FSLayers m !! i) as [l|] eqn:Hl; [|done].
    destruct (Unmarshal (V1Compatibility h) v1) as [err|v] eqn:Hv; [done|].
    assert (decoded m i = inr v) as Hdi by (by rewrite (decoded_step _ _ _ Hh), Hdec).
    destruct (slice_set i (Some (fresh_layer storename v h l)) images)
      as [images1|] eqn:Hset; [|done].
    apply slice_set_Returns in Hset as [Hi ->].
    cbn [mbind run_bind] in Hrun. rewrite populate_Returns in Hrun by done.
    cbn [mbind run_bind] in Hrun.
    apply IH in Hrun as (Hlen & Hkeep & Hbelow); [|done].
    rewrite length_insert in Hlen. split; [done|]. split.
    + intros j Hj. rewrite Hkeep by lia. apply list_lookup_insert_ne. lia.
    + intros j Hj. destruct (decide (j = i)) as [->|Hne].
      * exists h, l, v. rewrite Hkeep by lia.
        by rewrite list_lookup_insert_eq.
      * apply Hbelow. lia.
Qed.

(** With as many layers as history entries, all of which decode, the
    loop returns. *)
Lemma LayersToDownload_from_total (m : Manifest) (storename : string) (lc : LayerCache.t)
    (n : nat) (v1 v0 : docker.V1Image) (images : list (option ImageWithMeta)) :
  n ≤ length (ManifestHistory m) →
  length (FSLayers m) = length (ManifestHistory m) →
  length images = length (FSLayers m) →
  decoded m n = inr v1 →
  decoded m 0 = inr v0 →
  ∃ out, LayersToDownload_from m storename lc n v1 images = Returns (inr out).
Proof.
  intros Hn Hlen. revert v1 images.
  induction n as [|i IH]; intros v1 images Himages Hdec Hall; [by eexists|].
  cbn [LayersToDownload_from].
  destruct (lookup_lt_is_Some_2 (ManifestHistory m) i) as [h Hh]; [lia|].
  destruct (lookup_lt_is_Some_2 (FSLayers m) i) as [l Hl]; [lia|].
  rewrite Hh, Hl.
  destruct (Unmarshal (V1Compatibility h) v1) as [err|v] eqn:Hv.
  - exfalso. assert (decoded m i = inl err) as Hfail
      by (by rewrite (decoded_step _ _ _ Hh), Hdec).
    clear -Hfail Hall Hn. revert Hfail.
    assert (i ≤ length (ManifestHistory m)) as Hi by lia. clear Hn.
    induction i as [|k IHk]; [congruence|]. intros Hfail. apply IHk; [lia|].
    destruct (lookup_lt_is_Some_2 (ManifestHistory m) k) as [hk Hhk]; [lia|].
    by rewrite (decoded_step _ _ _ Hhk), Hfail.
  - rewrite slice_set_lt by lia. cbn [mbind run_bind].
    rewrite populate_Returns by lia. cbn [mbind run_bind]. apply IH.
    + lia.
    + by rewrite length_insert.
    + by rewrite (decoded_step _ _ _ Hh), Hdec.
    + done.
Qed.

Lemma from_cache_not_cached (lc : LayerCache.t) (img : ImageWithMeta) :
  (∀ c, lc !! ID img = Some c → Downloading c = true) → from_cache lc img = img.
Proof.
  intros Hc. unfold from_cache. destruct (lc !! ID img) as [c|]; [|done].
  by rewrite (Hc c eq_refl).
Qed.

(** A cached record that agrees with the fresh one on the ID and the
    parent leaves both as they are. *)
Lemma from_cache_agrees (lc : LayerCache.t) (img : ImageWithMeta) :
  (∀ c, lc !! ID img = Some c → Downloading c = false →
        ID c = ID img ∧ Parent c = Parent img) →
  ID (from_cache lc img) = ID img ∧ Parent (from_cache lc img) = Parent img.
Proof.
  intros Hc. unfold from_cache. destruct (lc !! ID img) as [c|]; [|done].
  destruct (Downloading c) eqn:Hload; [done|]. by apply Hc.
Qed.

(** A cache without finished copies agrees with every manifest, and so
    does the cache that holds the records of a pull of the manifest. *)
Lemma not_cached_agrees (lc : LayerCache.t) (m : Manifest) :
  not_cached lc m → cache_agrees lc m.
Proof.
  intros Hfresh i v c Hi Hv Hc Hdone. by rewrite (Hfresh i v c Hi Hv Hc) in Hdone.
Qed.

Lemma find_layer_unique (layers : list (option ImageWithMeta)) (i : nat)
    (r : ImageWithMeta) :
  (∀ j k x y, layers !! j = Some (Some x) → layers !! k = Some (Some y) →
              ID x = ID y → j = k) →
  layers !! i = Some (Some r) →
  find_layer layers (ID r) = Some r.
Proof.
  intros Huniq Hr. unfold find_layer.
  destruct (list_find _ layers) as [[j y]|] eqn:Hfind; cbn.
  - apply list_find_Some in Hfind as (Hj & Hy & _).
    destruct y as [y|]; [|done]. cbn in Hy. injection Hy as Hy.
    assert (j = i) as -> by eauto. congruence.
  - apply list_find_None in Hfind.
    apply (proj1 (Forall_lookup _ _) Hfind i) in Hr. by destruct Hr.
Qed.

(** Along a chain every parent walk ends at "scratch". *)
Lemma chain_reaches (layers : list (option ImageWithMeta)) :
  (∀ j k x y, layers !! j = Some (Some x) → layers !! k = Some (Some y) →
              ID x = ID y → j = k) →
  (∀ i r, layers !! i = Some (Some r) →
          Parent r = "scratch"
          ∨ ∃ r', layers !! S i = Some (Some r') ∧ Parent r = ID r') →
  ∀ hops i r, layers !! i = Some (Some r) → length layers ≤ i + 1 + hops →
              reaches_scratch layers hops (Parent r) = true.
Proof.
  intros Huniq Hstep. induction hops as [|hops IH]; intros i r Hr Hlen.
  - destruct (Hstep i r Hr) as [-> | (r' & Hr' & _)]; [done|].
    apply lookup_lt_Some in Hr'. lia.
  - cbn [reaches_scratch].
    destruct (String.eqb_spec (Parent r) "scratch"); [done|].
    destruct (Hstep i r Hr) as [? | (r' & Hr' & Hp)]; [done|].
    rewrite Hp, (find_layer_unique layers (S i) r') by done.
    apply (IH (S i)); [done|lia].
Qed.

End LayersToDownload_facts.

(** C2, as stated, fails: a history entry that names itself as its
    parent gives a record whose parent walk never reaches "scratch"; a
    manifest with one history entry and two layers gives two entries,
    the second one nil; a finished record of the layer cache takes the
    place of the record of the manifest, parent included; and entries
    that share an ID give a parent walk that cycles. *)
Lemma LayersToDownload_counterexample :
  let layer := {| BlobSum := "sha256:aa" |} in
  let entry members := {| V1Compatibility := json.object members |} in
  let m1 := {| Name := "loop"; FSLayers := [layer];
               ManifestHistory := [entry [("id", "a"); ("parent", "a")]] |} in
  let m2 := {| Name := "short"; FSLayers := [layer; layer];
               ManifestHistory := [entry [("id", "a")]] |} in
  let m3 := {| Name := "cached"; FSLayers := [layer];
               ManifestHistory := [entry [("id", "top")]] |} in
  let m4 := {| Name := "twice"; FSLayers := [layer; layer; layer];
               ManifestHistory := [entry [("id", "a"); ("parent", "b")];
                                   entry [("id", "b"); ("parent", "a")];
                                   entry [("id", "a"); ("parent", "")]] |} in
  (∃ r, @LayersToDownload flat_json (with_manifest m1) ∅ = Returns (inr [Some r])
        ∧ ID r = "a" ∧ Parent r = "a"
        ∧ ∀ hops, reaches_scratch [Some r] hops (Parent r) = false)
  ∧ (∃ r, @LayersToDownload flat_json (with_manifest m2) ∅ = Returns (inr [Some r; None])
          ∧ length (ManifestHistory m2) = 1)
  ∧ (@LayersToDownload flat_json (with_manifest m3) (LayerCache.Add ∅ cached_top)
     = Returns (inr [Some cached_top])
     ∧ Parent cached_top = "base"
     ∧ ∀ hops, reaches_scratch [Some cached_top] hops (Parent cached_top) = false)
  ∧ (∃ r0 r1 r2,
       @LayersToDownload flat_json (with_manifest m4) ∅
       = Returns (inr [Some r0; Some r1; Some r2])
       ∧ Parent r0 = ID r1 ∧ Parent r1 = ID r2 ∧ Parent r2 = "scratch"
       ∧ ∀ hops, reaches_scratch [Some r0; Some r1; Some r2] hops (Parent r0) = false).
Proof.
  split; [|split; [|split]].
  - eexists. split; [reflexivity|]. split; [reflexivity|]. split; [reflexivity|].
    intros hops. induction hops as [|hops IH]; [reflexivity|]. exact IH.
  - eexists. split; reflexivity.
  - split; [vm_compute; reflexivity|]. split; [reflexivity|].
    intros [|hops]; reflexivity.
  - eexists _, _, _. split; [vm_compute; reflexivity|]. repeat (split; [reflexivity|]).
    cbn [Parent].
    assert (∀ hops layers,
              layers = [Some {| ID := "a"; Parent := "b"; Store := "store"; DiffID := "";
                                Layer := {| BlobSum := "sha256:aa" |};
                                Meta := json.object [("id", "a"); ("parent", "b")];
                                Size := 0; Downloading := false |};
                        Some {| ID := "b"; Parent := "a"; Store := "store"; DiffID := "";
                                Layer := {| BlobSum := "sha256:aa" |};
                                Meta := json.object [("id", "b"); ("parent", "a")];
                                Size := 0; Downloading := false |};
                        Some {| ID := "a"; Parent := "scratch"; Store := "store"; DiffID := "";
                                Layer := {| BlobSum := "sha256:aa" |};
                                Meta := json.object [("id", "a"); ("parent", "")];
                                Size := 0; Downloading := false |}] →
              reaches_scratch layers hops "b" = false
              ∧ reaches_scratch layers hops "a" = false) as Hcycle.
    { intros hops layers ->. induction hops as [|hops [IHb IHa]]; [by split|].
      split; [exact IHa|exact IHb]. }
    intros hops. exact (proj1 (Hcycle hops _ eq_refl)).
Qed.

(** C2, amended: for a manifest with N history entries and N layers
    whose entries all deserialise, [LayersToDownload] returns exactly N
    records; the record at index i is built from the history and layer
    entries at index i, with the parent of the decoded entry or
    "scratch" when that is empty, unless the layer cache has a finished
    record for its ID, which then takes its place; and when the entries
    form a chain and the finished records that the cache has for IDs of
    the manifest carry the ID and the parent of their entries (as they
    do when nothing is cached, and when the cache holds the records of
    an earlier pull of the manifest), the parent walk of every record
    reaches "scratch" within N hops. *)
Theorem LayersToDownload_records `{JSONDecoder} (ic : ImageC) (lc : LayerCache.t)
    (m : Manifest) (v0 : docker.V1Image) :
  ImageManifestSchema1 (Opts ic) = Some m →
  length (FSLayers m) = length (ManifestHistory m) →
  decoded m 0 = inr v0 →
  ∃ out,
    LayersToDownload ic lc = Returns (inr out)
    ∧ length out = length (ManifestHistory m)
    ∧ (∀ i, i < length (ManifestHistory m) →
         ∃ h l v, ManifestHistory m !! i = Some h ∧ FSLayers m !! i = Some l
                  ∧ decoded m i = inr v
                  ∧ out !! i =
                      Some (Some (from_cache lc
                                    {| ID := docker.v1ID v;
                                       Parent := if String.eqb (docker.v1Parent v) ""
                                                 then "scratch" else docker.v1Parent v;
                                       Store := Storename (Opts ic);
                                       DiffID := ""; Layer := l;
                                       Meta := V1Compatibility h;
                                       Size := 0; Downloading := false |})))
    ∧ (is_chain m → cache_agrees lc m →
       ∀ i r, out !! i = Some (Some r) →
              reaches_scratch out (length (ManifestHistory m)) (Parent r) = true).
Proof.
  intros Hm Hlen Hall. unfold LayersToDownload. rewrite Hm.
  destruct (LayersToDownload_from_total m (Storename (Opts ic)) lc
              (length (ManifestHistory m)) docker.zeroV1Image v0
              (replicate (length (FSLayers m)) None))
    as [out Hrun]; [done|done|by rewrite length_replicate|apply decoded_end|done|].
  exists out. split; [done|].
  apply LayersToDownload_from_inv in Hrun as (Hout & _ & Hrec); [|apply decoded_end].
  rewrite length_replicate, Hlen in Hout.
  split; [done|]. split; [exact Hrec|].
  intros Hchain Hagree.
  assert (∀ i r, out !! i = Some (Some r) →
            i < length (ManifestHistory m)
            ∧ ∃ v, decoded m i = inr v ∧ ID r = docker.v1ID v
                   ∧ Parent r = (if String.eqb (docker.v1Parent v) ""
                                 then "scratch" else docker.v1Parent v)) as Hat.
  { intros i r Hr. assert (i < length (ManifestHistory m)) as Hi
      by (rewrite <- Hout; by eapply lookup_lt_Some).
    split; [done|]. destruct (Hrec i Hi) as (h & l & v & _ & _ & Hv & Hi').
    exists v. rewrite Hr in Hi'. injection Hi' as ->. split; [done|].
    apply from_cache_agrees. intros c. by apply (Hagree i). }
  intros i r Hr. apply (chain_reaches out) with (i := i); [| |done|lia].
  - intros j k x y (Hj & vj & Hvj & Hxj & _)%Hat (Hk & vk & Hvk & Hyk & _)%Hat Hid.
    destruct (Hchain k vk Hk Hvk) as (_ & _ & Huniq).
    apply (Huniq j vj); [done|done|congruence].
  - intros j x Hx. destruct (Hat j x Hx) as (Hj & vj & Hvj & _ & Hpj).
    destruct (Hchain j vj Hj Hvj) as (Hlast & Hnext & _).
    destruct (decide (S j = length (ManifestHistory m))) as [Hend|Hmore].
    + left. by rewrite Hpj, (Hlast Hend).
    + assert (S j < length (ManifestHistory m)) as Hsj by lia.
      destruct (Hrec (S j) Hsj) as (h' & l' & v' & _ & _ & Hv' & Hout').
      destruct (Hat (S j) _ Hout') as (_ & v'' & Hv'' & Hid' & _).
      assert (v'' = v') as -> by congruence.
      rewrite Hpj, (Hnext v' Hsj Hv').
      destruct (String.eqb_spec (docker.v1ID v') ""); [by left|].
      right. eexists. split; [exact Hout'|done].
Qed.

Lemma busybox_is_chain : @is_chain flat_json busybox_manifest.
Proof.
  intros i v Hi Hv. cbn in Hi.
  destruct i as [|[|i]]; [| |lia]; vm_compute in Hv; injection Hv as <-.
  - split; [done|]. split.
    + intros v' _ Hv'. vm_compute in Hv'. by injection Hv' as <-.
    + intros [|[|j]] v' Hj Hv'; [done| |cbn in Hj; lia].
      vm_compute in Hv'. by injection Hv' as <-.
  - split; [done|]. split.
    + intros v' Hlt. cbn in Hlt. lia.
    + intros [|[|j]] v' Hj Hv'; [|done|cbn in Hj; lia].
      vm_compute in Hv'. by injection Hv' as <-.
Qed.

Lemma LayersToDownload_records_witness :
  let lc := LayerCache.Add (LayerCache.Add ∅ cached_top) loading_base in
  ∃ base,
    @LayersToDownload flat_json (with_manifest busybox_manifest) lc
    = Returns (inr [Some cached_top; Some base])
    ∧ ∀ i r, [Some cached_top; Some base] !! i = Some (Some r) →
             reaches_scratch [Some cached_top; Some base] 2 (Parent r) = true.
Proof.
  intros lc.
  destruct (LayersToDownload_records (H := flat_json) (with_manifest busybox_manifest) lc
              busybox_manifest _ eq_refl eq_refl eq_refl)
    as (out & Hrun & _ & _ & Hchain).
  assert (cache_agrees (H := flat_json) lc busybox_manifest) as Hagree.
  { intros i v c Hi Hv Hc Hdone. cbn in Hi.
    destruct i as [|[|i]]; [| |lia]; vm_compute in Hv; injection Hv as <-;
      vm_compute in Hc; injection Hc as <-; [by split|discriminate Hdone]. }
  specialize (Hchain busybox_is_chain Hagree).
  assert (@LayersToDownload flat_json (with_manifest busybox_manifest) lc
          = Returns (inr [Some cached_top; Some _])) as Heq by (vm_compute; reflexivity).
  rewrite Heq in Hrun. injection Hrun as <-.
  eexists. split; [exact Heq|exact Hchain].
Defined.

(** C7: at each manifest index, when the layer cache has an entry for
    the ID of the freshly built record and that entry is not being
    downloaded, the output holds the cached record at that index; when
    the lookup fails or the entry is being downloaded, it holds the
    freshly built record. *)
Theorem LayersToDownload_cache_substitution `{JSONDecoder} (ic : ImageC)
    (lc : LayerCache.t) (m : Manifest) (out : list (option ImageWithMeta)) :
  ImageManifestSchema1 (Opts ic) = Some m →
  LayersToDownload ic lc = Returns (inr out) →
  ∀ i, i < length (ManifestHistory m) →
    ∃ h l v,
      ManifestHistory m !! i = Some h ∧ FSLayers m !! i = Some l
      ∧ decoded m i = inr v
      ∧ let img := fresh_layer (Storename (Opts ic)) v h l in
        match LayerCache.Get lc (ID img) with
        | inr cached =>
            if Downloading cached then out !! i = Some (Some img)
            else out !! i = Some (Some cached)
        | inl _ => out !! i = Some (Some img)
        end.
Proof.
  intros Hm Hrun i Hi. unfold LayersToDownload in Hrun. rewrite Hm in Hrun.
  apply LayersToDownload_from_inv in Hrun as (_ & _ & Hrec); [|apply decoded_end].
  destruct (Hrec i Hi) as (h & l & v & Hh & Hl & Hv & Hout).
  exists h, l, v. repeat (split; [done|]). cbn zeta.
  unfold from_cache in Hout. unfold LayerCache.Get.
  destruct (lc !! ID (fresh_layer (Storename (Opts ic)) v h l)) as [c|]; [|done].
  by destruct (Downloading c).
Qed.

Lemma LayersToDownload_cache_substitution_witness :
  ∃ fresh,
    @LayersToDownload flat_json (with_manifest busybox_manifest)
      (LayerCache.Add (LayerCache.Add ∅ cached_top) loading_base)
    = Returns (inr [Some cached_top; Some fresh])
    ∧ ID fresh = "base" ∧ Downloading fresh = false.
Proof.
  eexists. split; [reflexivity|].
  pose proof (LayersToDownload_cache_substitution (H := flat_json)
                (with_manifest busybox_manifest)
                (LayerCache.Add (LayerCache.Add ∅ cached_top) loading_base)
                busybox_manifest _ eq_refl eq_refl 1 ltac:(cbn; lia))
    as (h & l & v & Hh & Hl & Hv & Hout).
  injection Hh as <-. injection Hl as <-. injection Hv as <-.
  split; reflexivity.
Defined.

(** ** updateRepositoryCache *)

Section updateRepositoryCache_facts.
Context `{ReferenceParser} `{PortLayerStore}.

Lemma AddReference_binds (rc : cache.Repo) (ref : reference.Named) (id layerID : string)
    (force save : bool) :
  cache.Get (cache.AddReference rc ref id force layerID save).1 ref = Some id.
Proof. unfold cache.Get, cache.AddReference. cbn. apply lookup_insert_eq. Qed.

Lemma AddReference_keeps (rc : cache.Repo) (ref other : reference.Named)
    (id layerID : string) (force save : bool) :
  cache.Get rc other = Some id →
  cache.Get (cache.AddReference rc ref id force layerID save).1 other = Some id.
Proof.
  unfold cache.Get, cache.AddReference. cbn. intros Hother.
  rewrite lookup_insert. by case_decide.
Qed.

Lemma phase_errors_distinct (ref dig : reference.Named) (e1 e2 : error) (layerID : string) :
  ErrAddReference ref e1 ≠ ErrAddDigest dig e2
  ∧ ErrImageIDNotFound layerID ≠ ErrAddReference ref e1
  ∧ ErrImageIDNotFound layerID ≠ ErrAddDigest dig e2.
Proof. repeat split; discriminate. Qed.

End updateRepositoryCache_facts.

(** C5: with a non-empty layer list (and a reference that parses), an
    empty image ID is looked up in the repository cache by the ID of the
    first layer, and when it is still empty the call fails before any
    binding; otherwise the tag reference is bound to the image ID first
    and the digest reference name@digest second, the failures of the two
    bindings are different errors, a failure of the digest binding leaves
    the tag reference bound to the image ID, and after success both
    references resolve to the image ID. *)
Theorem updateRepositoryCache_bindings `{ReferenceParser} `{PortLayerStore}
    (ic : ImageC) (rc : cache.Repo) (layer0 : ImageWithMeta)
    (rest : list (option ImageWithMeta)) (ref : reference.Named) :
  ImageLayers ic = Some layer0 :: rest →
  ParseNamed (Reference (Opts ic)) = inr ref →
  let id := if String.eqb (ImageID ic) "" then cache.GetImageID rc (ID layer0)
            else ImageID ic in
  ∃ ic' rc' err,
    updateRepositoryCache ic rc = Returns (ic', rc', err)
    ∧ ImageID ic' = id
    ∧ (id = "" → rc' = rc ∧ err = Some (ErrImageIDNotFound (ID layer0)))
    ∧ (id ≠ "" →
       let tagged := cache.AddReference rc ref id true (ID layer0) true in
       match tagged.2 with
       | Some e => rc' = tagged.1 ∧ err = Some (ErrAddReference ref e)
       | None =>
           cache.Get rc' ref = Some id
           ∧ match ParseNamed (reference.Name ref +:+ "@" +:+ ManifestDigest (Opts ic)) with
             | inl e => rc' = tagged.1 ∧ err = Some (Errorf "Unable to parse digest: " (Error e))
             | inr dig =>
                 let digested := cache.AddReference tagged.1 dig id true (ID layer0) true in
                 rc' = digested.1
                 ∧ match digested.2 with
                   | Some e =>
                       err = Some (ErrAddDigest dig e)
                       ∧ ∀ e', ErrAddDigest dig e ≠ ErrAddReference ref e'
                   | None => err = None ∧ cache.Get rc' dig = Some id
                   end
             end
       end).
Proof.
  intros Hlayers Href id. unfold updateRepositoryCache. rewrite Hlayers, Href.
  assert (ImageID (if String.eqb (ImageID ic) ""
                   then set_ImageID (cache.GetImageID rc (ID layer0)) ic else ic) = id) as Hid.
  { subst id. by destruct (String.eqb (ImageID ic) ""). }
  assert (Opts (if String.eqb (ImageID ic) ""
                then set_ImageID (cache.GetImageID rc (ID layer0)) ic else ic) = Opts ic) as Hopts.
  { by destruct (String.eqb (ImageID ic) ""). }
  rewrite Hid, Hopts. generalize dependent id. intros id Hid.
  destruct (String.eqb_spec id "") as [->|Hne].
  - eexists _, _, _. split; [reflexivity|]. by repeat split.
  - pose proof (AddReference_binds rc ref id (ID layer0) true true) as Htag.
    destruct (cache.AddReference rc ref id true (ID layer0) true) as [rc1 [e1|]] eqn:Hadd1;
      cbn [fst snd] in *.
    + eexists _, _, _. split; [reflexivity|]. by repeat split.
    + destruct (ParseNamed (reference.Name ref +:+ "@" +:+ ManifestDigest (Opts ic)))
        as [e|dig] eqn:Hdig.
      * eexists _, _, _. split; [reflexivity|]. split; [done|]. split; [done|].
        intros _. by cbn.
      * pose proof (AddReference_binds rc1 dig id (ID layer0) true true) as Hbound.
        pose proof (AddReference_keeps rc1 dig ref id (ID layer0) true true Htag) as Hkept.
        destruct (cache.AddReference rc1 dig id true (ID layer0) true) as [rc2 [e2|]] eqn:Hadd2.
        -- eexists _, _, _. split; [reflexivity|]. split; [done|]. split; [done|].
           intros _. cbn. repeat split; done.
        -- eexists _, _, _. split; [reflexivity|]. split; [done|]. split; [done|].
           intros _. by cbn.
Qed.

Lemma updateRepositoryCache_bindings_witness :
  ∃ ic' rc' err,
    @updateRepositoryCache docker_reference small_store pulled_busybox cache.emptyRepo
    = Returns (ic', rc', Some err)
    ∧ Error err = "Unable to Add Image Digest(busybox@sha256:fc1a6b909f82ce4b72204198d49de3aaf757b3ab2bb823cb6e47c416b97c5985): port layer: no space left"
    ∧ cache.Get rc' (reference.namedRef "busybox") = Some "e292aa76ad3b".
Proof.
  destruct (updateRepositoryCache_bindings (H := docker_reference) (H0 := small_store)
              pulled_busybox cache.emptyRepo cached_top [] (reference.namedRef "busybox")
              eq_refl eq_refl)
    as (ic' & rc' & err & Hrun & _ & _ & Hbind).
  specialize (Hbind ltac:(discriminate)).
  vm_compute in Hbind. destruct Hbind as (Htag & _ & Herr & _).
  exists ic', rc'. eexists. rewrite Herr in Hrun. split; [exact Hrun|].
  split; [reflexivity|exact Htag].
Defined.

(** ** WriteImageBlob *)

(** C9: the destination directory is removed only when the cleanup flag
    is set and the tar stream has been written to the image store; when
    the tar file cannot be opened, when its size cannot be read and when
    the store writer fails, the call returns an error and the files are
    as they were. *)
Theorem WriteImageBlob_cleanup `{URLParser} `{ImageStoreWriter} (ic : ImageC)
    (image : ImageWithMeta) (cleanup : bool) (w : World) (destination : string) :
  DestinationDirectory (Opts ic) = Returns destination →
  let tar := path.Join [destination; ID image; ID image +:+ ".tar"] in
  let reader f size := {| source := f; total := size;
                          progressID := ImageWithMeta_String image;
                          action := "Extracting" |} in
  ∃ w' err,
    WriteImageBlob ic image cleanup w = Returns (w', err)
    ∧ (∀ e, os_Open (fs w) tar = inl e →
         err = Some (Errorf "Failed to open file: " (Error e)) ∧ fs w' = fs w)
    ∧ (∀ f e, os_Open (fs w) tar = inr f → File_Stat (fs w) f = inl e →
         err = Some (Errorf "Failed to stat file: " (Error e)) ∧ fs w' = fs w)
    ∧ (∀ f size e, os_Open (fs w) tar = inr f → File_Stat (fs w) f = inr size →
         (WriteImage (store w) (Host (Opts ic)) image (reader f size)).2 = Some e →
         err = Some (Errorf "Failed to write to image store: " (Error e)) ∧ fs w' = fs w)
    ∧ (∀ f size, os_Open (fs w) tar = inr f → File_Stat (fs w) f = inr size →
         (WriteImage (store w) (Host (Opts ic)) image (reader f size)).2 = None →
         fs w' = if cleanup then (os_RemoveAll (fs w) destination).1 else fs w)
    ∧ (cleanup = false → fs w' = fs w).
Proof.
  intros Hdest tar reader. unfold WriteImageBlob. rewrite Hdest. cbn [mbind run_bind].
  fold tar.
  destruct (os_Open (fs w) tar) as [e|f] eqn:Hopen.
  { eexists _, _. split; [reflexivity|]. settle_calls. }
  destruct (File_Stat (fs w) f) as [e|size] eqn:Hstat.
  { eexists _, _. split; [reflexivity|]. settle_calls. }
  fold (reader f size).
  destruct (WriteImage (store w) (Host (Opts ic)) image (reader f size))
    as [store' [e|]] eqn:Hwrite.
  { eexists _, _. split; [reflexivity|]. settle_calls. }
  destruct cleanup.
  - destruct (os_RemoveAll (fs w) destination) as [fs' [e|]] eqn:Hremove;
      (eexists _, _; split; [reflexivity|]); settle_calls.
  - eexists _, _. split; [reflexivity|]. settle_calls.
Qed.

Lemma WriteImageBlob_cleanup_witness :
  ∃ w',
    @WriteImageBlob go_url map_os list_store (NewImageC busybox_options) cached_top true
      scratch_world
    = Returns (w', None)
    ∧ read_file (@fs map_os list_store w') busybox_tar = None
    ∧ read_file (@fs map_os list_store w') "images/README" = Some "keep".
Proof.
  destruct (WriteImageBlob_cleanup (H := go_url) (H1 := list_store)
              (NewImageC busybox_options) cached_top true scratch_world
              "images/https/registry-1.docker.io/v2/library/busybox/latest" eq_refl)
    as (w' & err & Hrun & _ & _ & _ & Hdone & _).
  specialize (Hdone "layer.tar contents" 18%Z eq_refl eq_refl eq_refl).
  exists w'. rewrite Hdone.
  assert (err = None) as ->.
  { vm_compute in Hrun. by injection Hrun as _ <-. }
  split; [exact Hrun|]. split; vm_compute; reflexivity.
Defined.

(** ** CreateImageConfig *)

Section CreateImageConfig_facts.
Context `{JSONDecoder} `{Digester}.

(** The loop reads the records' [Meta], [DiffID] and [Size] only. *)
Lemma CreateImageConfig_from_same (chain1 chain2 : list ImageWithMeta) (n : nat)
    (image : docker.V1Image) (rootFS : docker.RootFS) (history : list docker.History)
    (size : Z) :
  Forall2 same_content chain1 chain2 →
  CreateImageConfig_from (Some <$> chain1) n image rootFS history size
  = CreateImageConfig_from (Some <$> chain2) n image rootFS history size.
Proof.
  intros Hsame. revert image rootFS history size.
  induction n as [|i IH]; intros image rootFS history size; [done|].
  cbn [CreateImageConfig_from]. rewrite !list_lookup_fmap.
  destruct (chain1 !! i) as [a|] eqn:Ha.
  - destruct (Forall2_lookup_l _ _ _ _ _ Hsame Ha) as (b & Hb & Hab).
    rewrite Hb. cbn. destruct Hab as (_ & _ & _ & Hd & _ & Hm & Hs).
    rewrite Hd, Hm, Hs. destruct (Unmarshal (Meta b) image); [done|].
    destruct (String.eqb _ _); apply IH.
  - destruct (chain2 !! i) as [b|] eqn:Hb; [|done].
    destruct (Forall2_lookup_r _ _ _ _ _ Hsame Hb) as (a & Ha' & _). congruence.
Qed.

(** What a returning loop has added: one history entry per layer, from
    index [n - 1] down to [0], and the diff IDs of the layers that are
    not empty, in that order. *)
Lemma CreateImageConfig_from_inv (chain : list ImageWithMeta) (n : nat)
    (image image' : docker.V1Image) (rootFS rootFS' : docker.RootFS)
    (history history' : list docker.History) (size size' : Z) :
  CreateImageConfig_from (Some <$> chain) n image rootFS history size
  = Returns (inr (image', rootFS', history', size')) →
  n ≤ length chain →
  docker.DiffIDs rootFS'
  = docker.DiffIDs rootFS
    ++ (DiffID <$> filter (λ l, is_empty_layer l = false) (rev (take n chain)))
  ∧ (docker.EmptyLayer <$> history')
    = (docker.EmptyLayer <$> history) ++ (is_empty_layer <$> rev (take n chain))
  ∧ docker.Type_ rootFS' = docker.Type_ rootFS.
Proof.
  revert image rootFS history size.
  induction n as [|i IH]; intros image rootFS history size Hrun Hn.
  - cbn in Hrun. injection Hrun as <- <- <- <-. by rewrite take_0, !app_nil_r.
  - cbn [CreateImageConfig_from] in Hrun. rewrite list_lookup_fmap in Hrun.
    destruct (lookup_lt_is_Some_2 chain i) as [l Hl]; [lia|].
    rewrite Hl in Hrun. cbn in Hrun.
    destruct (Unmarshal (Meta l) image) as [err|v]; [done|].
    rewrite (take_S_r _ _ _ Hl), rev_app_distr. cbn [rev app].
    change (String.eqb (DiffID l) docker.DigestSHA256EmptyTar)
      with (is_empty_layer l) in Hrun.
    rewrite !fmap_cons.
    destruct (is_empty_layer l) eqn:Hempty.
    + apply IH in Hrun as (Hd & Hh & Ht); [|lia].
      rewrite filter_cons_False by (by rewrite Hempty).
      rewrite Hd, Hh, Ht, fmap_app. cbn. by rewrite <- app_assoc.
    + apply IH in Hrun as (Hd & Hh & Ht); [|lia]. cbn in Hd, Ht.
      rewrite filter_cons_True by done.
      rewrite Hd, Hh, Ht, fmap_app. cbn. by rewrite <- !app_assoc.
Qed.

(** The computed configuration: the loop, the serialised document and
    its digest. *)
Lemma CreateImageConfig_computed (ic : ImageC) (rc : cache.Repo) (imgc : cache.ImageCache)
    (chain : list ImageWithMeta) (cfg : ImageConfig) :
  not_in_image_cache rc imgc chain →
  CreateImageConfig ic rc imgc (Some <$> chain) = Returns (inr cfg) →
  ∃ image rootFS size doc,
    CreateImageConfig_from (Some <$> chain) (length chain) docker.zeroV1Image
      docker.NewRootFS [] 0%Z
    = Returns (inr (image, rootFS, cfgHistory cfg, size))
    ∧ MarshalJSON (result_image image rootFS (cfgHistory cfg)) = inr doc
    ∧ cfgImageID cfg = sha256_hex doc.
Proof.
  intros Hmiss Hrun. unfold CreateImageConfig in Hrun.
  destruct chain as [|l chain]; [done|]. cbn [fmap list_fmap] in Hrun.
  unfold cache.ImageCache_Get in Hrun. rewrite (Hmiss l eq_refl) in Hrun.
  change (Some l :: (Some <$> chain)) with (Some <$> l :: chain) in Hrun.
  rewrite length_fmap in Hrun.
  destruct (CreateImageConfig_from (Some <$> l :: chain) _ _ _ _ _)
    as [[err|[[[image rootFS] history] size]]|] eqn:Hloop; [done| |done].
  cbn in Hrun.
  destruct (MarshalJSON (result_image image rootFS history)) as [err|doc] eqn:Hdoc; [done|].
  destruct (ImageManifestSchema1 (Opts ic)); [|done].
  injection Hrun as <-. cbn. by exists image, rootFS, size, doc.
Qed.

End CreateImageConfig_facts.

(** C3: in a chain for which [CreateImageConfig] computes the
    configuration, going from the oldest layer to the newest, every
    record gives exactly one history entry; the entry of a record whose
    diff ID is the digest of the empty layer is marked empty and the
    record adds nothing to the diff IDs of the root filesystem, and a
    record with another diff ID adds exactly that diff ID, in the same
    oldest-to-newest order.  The document with these diff IDs and this
    history is the one whose digest is the image ID. *)
Theorem CreateImageConfig_empty_layers `{JSONDecoder} `{Digester} (ic : ImageC)
    (rc : cache.Repo) (imgc : cache.ImageCache) (chain : list ImageWithMeta)
    (cfg : ImageConfig) :
  not_in_image_cache rc imgc chain →
  CreateImageConfig ic rc imgc (Some <$> chain) = Returns (inr cfg) →
  ∃ image rootFS doc,
    MarshalJSON (result_image image rootFS (cfgHistory cfg)) = inr doc
    ∧ cfgImageID cfg = sha256_hex doc
    ∧ docker.DiffIDs rootFS
      = (DiffID <$> filter (λ l, is_empty_layer l = false) (rev chain))
    ∧ (docker.EmptyLayer <$> cfgHistory cfg) = (is_empty_layer <$> rev chain)
    ∧ length (cfgHistory cfg) = length chain.
Proof.
  intros Hmiss Hrun.
  destruct (CreateImageConfig_computed ic rc imgc chain cfg Hmiss Hrun)
    as (image & rootFS & size & doc & Hloop & Hdoc & Hid).
  apply CreateImageConfig_from_inv in Hloop as (Hd & Hh & _); [|done].
  rewrite firstn_all in Hd, Hh. cbn in Hd, Hh.
  exists image, rootFS, doc. repeat (split; [done|]).
  apply (f_equal length) in Hh. by rewrite !length_fmap, length_rev in Hh.
Qed.

Lemma nothing_cached (chain : list ImageWithMeta) :
  not_in_image_cache cache.emptyRepo ∅ chain.
Proof. intros l _. apply lookup_empty. Qed.

Lemma CreateImageConfig_empty_layers_witness :
  ∃ cfg rootFS,
    @CreateImageConfig flat_json text_digester (with_manifest busybox_manifest)
      cache.emptyRepo ∅ [Some empty_top; Some base_layer] = Returns (inr cfg)
    ∧ length (docker.DiffIDs rootFS) = 1
    ∧ length (cfgHistory cfg) = 2
    ∧ (docker.EmptyLayer <$> cfgHistory cfg) = [false; true].
Proof.
  eexists. 
  assert (@CreateImageConfig flat_json text_digester (with_manifest busybox_manifest)
            cache.emptyRepo ∅ (Some <$> [empty_top; base_layer]) = Returns (inr _)) as Hrun
    by (vm_compute; reflexivity).
  destruct (CreateImageConfig_empty_layers (H := flat_json) (H0 := text_digester)
              _ _ _ _ _ (nothing_cached _) Hrun)
    as (image & rootFS & doc & _ & _ & Hd & Hh & Hlen).
  exists rootFS. split; [exact Hrun|]. split; [by rewrite Hd|].
  split; [exact Hlen|exact Hh].
Defined.

(** C1: the image ID that [CreateImageConfig] computes is a function of
    the content of the chain: two chains that are equal in all fields but
    the in-progress flag of their records give the same result under the
    same options and caches, and, whenever the configuration is computed,
    the same image ID under any options and caches. *)
Theorem CreateImageConfig_deterministic `{JSONDecoder} `{Digester}
    (chain1 chain2 : list ImageWithMeta) :
  Forall2 same_content chain1 chain2 →
  (∀ ic rc imgc,
     CreateImageConfig ic rc imgc (Some <$> chain1)
     = CreateImageConfig ic rc imgc (Some <$> chain2))
  ∧ (∀ ic1 ic2 rc1 rc2 imgc1 imgc2 cfg1 cfg2,
       not_in_image_cache rc1 imgc1 chain1 →
       not_in_image_cache rc2 imgc2 chain2 →
       CreateImageConfig ic1 rc1 imgc1 (Some <$> chain1) = Returns (inr cfg1) →
       CreateImageConfig ic2 rc2 imgc2 (Some <$> chain2) = Returns (inr cfg2) →
       cfgImageID cfg1 = cfgImageID cfg2).
Proof.
  intros Hsame. split.
  - intros ic rc imgc. unfold CreateImageConfig.
    pose proof (CreateImageConfig_from_same chain1 chain2 (length chain1)
                  docker.zeroV1Image docker.NewRootFS [] 0%Z Hsame) as Hloop.
    pose proof (Forall2_length _ _ _ Hsame) as Hlen.
    destruct Hsame as [|a b chain1 chain2 Hab Hsame]; [done|].
    rewrite !fmap_cons. destruct Hab as (Hid & _). rewrite Hid.
    destruct (cache.ImageCache_Get imgc _); [|done].
    change (Some a :: (Some <$> chain1)) with (Some <$> a :: chain1).
    change (Some b :: (Some <$> chain2)) with (Some <$> b :: chain2).
    rewrite !length_fmap, <- Hlen, Hloop. reflexivity.
  - intros ic1 ic2 rc1 rc2 imgc1 imgc2 cfg1 cfg2 Hmiss1 Hmiss2 Hrun1 Hrun2.
    destruct (CreateImageConfig_computed _ _ _ _ _ Hmiss1 Hrun1)
      as (image1 & rootFS1 & size1 & doc1 & Hloop1 & Hdoc1 & ->).
    destruct (CreateImageConfig_computed _ _ _ _ _ Hmiss2 Hrun2)
      as (image2 & rootFS2 & size2 & doc2 & Hloop2 & Hdoc2 & ->).
    rewrite (CreateImageConfig_from_same chain1 chain2 _ _ _ _ _ Hsame),
      (Forall2_length _ _ _ Hsame), Hloop2 in Hloop1.
    injection Hloop1 as <- <- Hhist <-. rewrite <- Hhist, Hdoc2 in Hdoc1. congruence.
Qed.

Lemma same_content_chain :
  Forall2 same_content [empty_top; base_layer] [empty_top; loading base_layer].
Proof. repeat constructor. Qed.

Lemma CreateImageConfig_deterministic_witness :
  ∃ cfg,
    @CreateImageConfig flat_json text_digester (with_manifest busybox_manifest)
      cache.emptyRepo ∅ [Some empty_top; Some (loading base_layer)] = Returns (inr cfg)
    ∧ @CreateImageConfig flat_json text_digester (with_manifest busybox_manifest)
        cache.emptyRepo ∅ [Some empty_top; Some base_layer] = Returns (inr cfg).
Proof.
  eexists.
  assert (@CreateImageConfig flat_json text_digester (with_manifest busybox_manifest)
            cache.emptyRepo ∅ (Some <$> [empty_top; base_layer]) = Returns (inr _)) as Hrun
    by (vm_compute; reflexivity).
  pose proof (proj1 (CreateImageConfig_deterministic (H := flat_json) (H0 := text_digester)
                [empty_top; base_layer] [empty_top; loading base_layer]
                same_content_chain)
                (with_manifest busybox_manifest) cache.emptyRepo ∅) as Heq.
  split; [|exact Hrun]. rewrite Heq in Hrun. exact Hrun.
Defined.

(** ** PullImage *)

Section PullImage_facts.
Context `{ReferenceParser} `{JSONDecoder} `{PullCollaborators}.

(** The phases before the schema 2 fetch leave the schema 2 manifest
    of the options alone. *)
Lemma ParseReference_schema2 (ic ic' : ImageC) (err : option error) :
  ParseReference ic = (ic', err) →
  ImageManifestSchema2 (Opts ic') = ImageManifestSchema2 (Opts ic).
Proof.
  destruct (ParseNamed (Reference (Opts ic))) as [e|ref] eqn:Hparse.
  - rewrite (ParseReference_inl ic e Hparse). by intros [= <- _].
  - rewrite (ParseReference_ok ic ref Hparse). by intros [= <- _].
Qed.

Lemma pull_connect_schema2 (ic ic0 : ImageC) :
  pull_connect ic = inr ic0 →
  ImageManifestSchema2 (Opts ic0) = ImageManifestSchema2 (Opts ic).
Proof.
  unfold pull_connect.
  destruct (ParseReference ic) as [ic' [e|]] eqn:Hparse; [done|].
  apply ParseReference_schema2 in Hparse. rewrite <- Hparse.
  repeat case_match; try done; by intros [= <-].
Qed.

Lemma pull_schema1_inv (ic0 ic1 : ImageC) :
  pull_schema1 ic0 = inr ic1 →
  ∃ m1 d1,
    FetchImageManifest (Opts ic0) 1 = inr (Schema1Value m1, d1)
    ∧ ic1 = with_Opts (set_ManifestDigest d1)
              (with_Opts (set_ImageManifestSchema1 (Some m1)) ic0).
Proof.
  unfold pull_schema1. repeat case_match; try done. intros [= <-]. by eexists _, _.
Qed.

End PullImage_facts.

(** C4: once the schema 1 manifest has been fetched, the schema 2 fetch
    cannot end the pull: whatever it answers, the pull goes on to the
    layers.  When it fails, the schema 2 manifest of the options is what
    it was before the pull (absent, for new options) and the manifest
    digest is the digest of the schema 1 fetch; when it succeeds with a
    deserialised schema 2 manifest, that manifest is stored and the
    manifest digest is the schema 2 digest. *)
Theorem PullImage_schema2_best_effort `{ReferenceParser} `{JSONDecoder}
    `{PullCollaborators} (ic ic0 : ImageC) (lc : LayerCache.t)
    (m1 : Manifest) (d1 : string) :
  pull_connect ic = inr ic0 →
  FetchImageManifest (Opts ic0) 1 = inr (Schema1Value m1, d1) →
  let ic1 := with_Opts (set_ManifestDigest d1)
               (with_Opts (set_ImageManifestSchema1 (Some m1)) ic0) in
  ∃ ic2,
    PullImage ic lc = pull_layers ic2 lc
    ∧ ImageManifestSchema1 (Opts ic2) = Some m1
    ∧ (∀ e, FetchImageManifest (Opts ic1) 2 = inl e →
         ic2 = ic1
         ∧ ImageManifestSchema2 (Opts ic2) = ImageManifestSchema2 (Opts ic)
         ∧ ManifestDigest (Opts ic2) = d1)
    ∧ (∀ m2 d2, FetchImageManifest (Opts ic1) 2 = inr (Schema2Value m2, d2) →
         ImageManifestSchema2 (Opts ic2) = Some m2
         ∧ ManifestDigest (Opts ic2) = d2).
Proof.
  intros Hconnect Hfetch ic1. exists (pull_schema2 ic1).
  pose proof (pull_connect_schema2 ic ic0 Hconnect) as Hkeep.
  split.
  - unfold PullImage. rewrite Hconnect. unfold pull_schema1. by rewrite Hfetch.
  - unfold pull_schema2.
    destruct (FetchImageManifest (Opts ic1) 2) as [e|[[m|m|] d]] eqn:Hfetch2;
      (split; [done|]); split; intros; simplify_eq; done.
Qed.

Lemma PullImage_schema2_best_effort_witness :
  ∃ ic',
    @PullImage docker_reference flat_json
      (one_registry (inl (errorString "manifest unknown")))
      (NewImageC (set_Reference "busybox" opts0)) ∅
    = Returns (ic', ∅, None)
    ∧ ManifestDigest (Opts ic') = "sha256:schema1digest"
    ∧ ImageManifestSchema2 (Opts ic') = None
    ∧ length (ImageLayers ic') = 2.
Proof.
  destruct (PullImage_schema2_best_effort (H := docker_reference) (H0 := flat_json)
              (H1 := one_registry (inl (errorString "manifest unknown")))
              (NewImageC (set_Reference "busybox" opts0))
              _ ∅ busybox_manifest "sha256:schema1digest" eq_refl eq_refl)
    as (ic2 & Hrun & _ & Hfail & _).
  destruct (Hfail _ eq_refl) as (-> & _ & _).
  eexists. split; [rewrite Hrun; vm_compute; reflexivity|].
  split; [reflexivity|]. split; reflexivity.
Defined.

(** * More properties of the code *)

(** ** ParseReference *)

(** X1: [ParseReference] writes the tag, the registry and the image and
    nothing else: the reference, the destination, the hosts, the
    credentials, the manifests and their digest, the layers and the image
    ID of the receiver are as before, with or without an error. *)
Theorem ParseReference_frame `{ReferenceParser} (ic : ImageC) :
  let ic' := (ParseReference ic).1 in
  unresolved_part (Opts ic') = unresolved_part (Opts ic)
  ∧ ImageLayers ic' = ImageLayers ic
  ∧ ImageID ic' = ImageID ic.
Proof.
  destruct (ParseNamed (Reference (Opts ic))) as [err|ref] eqn:Hparse.
  - by rewrite (ParseReference_inl ic err Hparse).
  - by rewrite (ParseReference_ok ic ref Hparse).
Qed.

(** X2: a reference with a digest is neither name-only nor tagged, so
    its tag is the default tag, whatever the tag was before. *)
Theorem ParseReference_digest_tag `{ReferenceParser} (ic : ImageC) (name digest : string) :
  ParseNamed (Reference (Opts ic)) = inr (reference.canonicalRef name digest) →
  Tag (Opts (ParseReference ic).1) = reference.DefaultTag
  ∧ (ParseReference ic).2 = None.
Proof. intros Hparse. by rewrite (ParseReference_ok ic _ Hparse). Qed.

Lemma ParseReference_digest_tag_witness :
  let ic := NewImageC (set_Tag "1.25" (set_Reference
    "busybox:1.25@sha256:fc1a6b909f82ce4b72204198d49de3aaf757b3ab2bb823cb6e47c416b97c5985" opts0)) in
  Tag (Opts (@ParseReference docker_reference ic).1) = "latest".
Proof.
  intros ic.
  exact (proj1 (ParseReference_digest_tag (H := docker_reference) ic "busybox"
    "sha256:fc1a6b909f82ce4b72204198d49de3aaf757b3ab2bb823cb6e47c416b97c5985" eq_refl)).
Defined.

(** X3: what a successful [ParseReference] leaves in the tag, the
    registry and the image depends on the reference alone: the values
    these fields had before are overwritten; and two receivers with one
    reference fail or succeed together. *)
Theorem ParseReference_overwrites `{ReferenceParser} (ic1 ic2 : ImageC) :
  Reference (Opts ic1) = Reference (Opts ic2) →
  (ParseReference ic1).2 = (ParseReference ic2).2
  ∧ ((ParseReference ic1).2 = None →
     resolved (ParseReference ic1).1 = resolved (ParseReference ic2).1).
Proof.
  intros Href.
  destruct (ParseNamed (Reference (Opts ic1))) as [err|ref] eqn:Hparse.
  - rewrite (ParseReference_inl ic1 err Hparse).
    rewrite Href in Hparse. rewrite (ParseReference_inl ic2 err Hparse). done.
  - rewrite (ParseReference_ok ic1 ref Hparse).
    rewrite Href in Hparse. rewrite (ParseReference_ok ic2 ref Hparse). done.
Qed.

Lemma ParseReference_overwrites_witness :
  resolved (@ParseReference docker_reference
              (NewImageC (set_Tag "old" (set_Registry "gcr.io"
                 (set_Reference "myregistry.example.com:5000/app:v2" opts0))))).1
  = ("myregistry.example.com:5000", "app", "v2").
Proof.
  rewrite (proj2 (ParseReference_overwrites (H := docker_reference)
             (NewImageC (set_Tag "old" (set_Registry "gcr.io"
                (set_Reference "myregistry.example.com:5000/app:v2" opts0))))
             (NewImageC (set_Reference "myregistry.example.com:5000/app:v2" opts0))
             eq_refl) eq_refl).
  reflexivity.
Defined.

(** X4: after a successful [ParseReference] the registry is never the
    default marker of the reference library: the marker is replaced by
    the URL of the docker registry. *)
Theorem ParseReference_registry_not_marker `{ReferenceParser} (ic : ImageC) :
  (ParseReference ic).2 = None →
  Registry (Opts (ParseReference ic).1) ≠ reference.DefaultHostname
  ∧ (Registry (Opts (ParseReference ic).1) = DefaultDockerURL
     ∨ ∃ ref, ParseNamed (Reference (Opts ic)) = inr ref
              ∧ Registry (Opts (ParseReference ic).1) = reference.Hostname ref).
Proof.
  destruct (ParseNamed (Reference (Opts ic))) as [err|ref] eqn:Hparse.
  - by rewrite (ParseReference_inl ic err Hparse).
  - rewrite (ParseReference_ok ic ref Hparse). intros _. cbn.
    destruct (String.eqb_spec (reference.Hostname ref) reference.DefaultHostname).
    + split; [done|by left].
    + split; [done|]. right. by exists ref.
Qed.

Lemma ParseReference_registry_not_marker_witness :
  Registry (Opts (@ParseReference docker_reference
                    (NewImageC (set_Reference "docker.io/library/busybox" opts0))).1)
  ≠ "docker.io".
Proof.
  exact (proj1 (ParseReference_registry_not_marker (H := docker_reference)
                  (NewImageC (set_Reference "docker.io/library/busybox" opts0)) eq_refl)).
Defined.

(** ** LayersToDownload *)

Section LayersToDownload_more.
Context `{JSONDecoder}.

(** A failure to decode an entry is the failure of every longer chain. *)
Lemma decoded_error_down (m : Manifest) (i : nat) (err : error) :
  i ≤ length (ManifestHistory m) →
  decoded m i = inl err → decoded m 0 = inl err.
Proof.
  induction i as [|k IH]; [done|]. intros Hk Hfail. apply IH; [lia|].
  destruct (lookup_lt_is_Some_2 (ManifestHistory m) k) as [h Hh]; [lia|].
  by rewrite (decoded_step _ _ _ Hh), Hfail.
Qed.

(** With at least as many layers as history entries the loop returns:
    the layers when all entries decode, and otherwise the error of the
    oldest entry that does not. *)
Lemma LayersToDownload_from_returns (m : Manifest) (storename : string)
    (lc : LayerCache.t) (n : nat) (v1 : docker.V1Image)
    (images : list (option ImageWithMeta)) :
  n ≤ length (ManifestHistory m) →
  length (ManifestHistory m) ≤ length (FSLayers m) →
  length images = length (FSLayers m) →
  decoded m n = inr v1 →
  match decoded m 0 with
  | inl err =>
      LayersToDownload_from m storename lc n v1 images
      = Returns (inl (Errorf "Failed to unmarshall image history: " (Error err)))
  | inr _ => ∃ out, LayersToDownload_from m storename lc n v1 images = Returns (inr out)
  end.
Proof.
  intros Hn Hlen. revert v1 images.
  induction n as [|i IH]; intros v1 images Himages Hdec.
  - rewrite Hdec. by eexists.
  - cbn [LayersToDownload_from].
    destruct (lookup_lt_is_Some_2 (ManifestHistory m) i) as [h Hh]; [lia|].
    destruct (lookup_lt_is_Some_2 (FSLayers m) i) as [l Hl]; [lia|].
    rewrite Hh, Hl.
    destruct (Unmarshal (V1Compatibility h) v1) as [err|v] eqn:Hv.
    + assert (decoded m i = inl err) as Hfail
        by (by rewrite (decoded_step _ _ _ Hh), Hdec).
      by rewrite (decoded_error_down m i err ltac:(lia) Hfail).
    + rewrite slice_set_lt by lia. cbn [mbind run_bind].
      rewrite populate_Returns by lia. cbn [mbind run_bind]. apply IH.
      * lia.
      * by rewrite length_insert.
      * by rewrite (decoded_step _ _ _ Hh), Hdec.
Qed.

Lemma LayersToDownload_returned (ic : ImageC) (lc : LayerCache.t) (m : Manifest)
    (out : list (option ImageWithMeta)) :
  ImageManifestSchema1 (Opts ic) = Some m →
  LayersToDownload ic lc = Returns (inr out) →
  length (ManifestHistory m) ≤ length (FSLayers m)
  ∧ length out = length (FSLayers m)
  ∧ (∀ j, length (ManifestHistory m) ≤ j → j < length (FSLayers m) → out !! j = Some None)
  ∧ (∀ i, i < length (ManifestHistory m) →
       ∃ h l v, ManifestHistory m !! i = Some h ∧ FSLayers m !! i = Some l
                ∧ decoded m i = inr v
                ∧ out !! i = Some (Some (from_cache lc
                                           (fresh_layer (Storename (Opts ic)) v h l)))).
Proof.
  intros Hm Hrun. unfold LayersToDownload in Hrun. rewrite Hm in Hrun.
  apply LayersToDownload_from_inv in Hrun as (Hlen & Hkeep & Hrec); [|apply decoded_end].
  rewrite length_replicate in Hlen.
  assert (length (ManifestHistory m) ≤ length (FSLayers m)) as Hle.
  { destruct (length (ManifestHistory m)) as [|k] eqn:Hn; [lia|].
    destruct (Hrec k ltac:(lia)) as (_ & l & _ & _ & Hl%lookup_lt_Some & _). lia. }
  repeat split; try done.
  intros j Hj Hlt. rewrite Hkeep by done. by apply lookup_replicate_2.
Qed.

Lemma from_cache_finished (lc : LayerCache.t) (img : ImageWithMeta) :
  Downloading img = false → Downloading (from_cache lc img) = false.
Proof.
  intros Himg. unfold from_cache. destruct (lc !! ID img) as [c|]; [|done].
  by destruct (Downloading c) eqn:Hc.
Qed.

Lemma from_cache_ID (lc : LayerCache.t) (img : ImageWithMeta) :
  well_keyed lc → ID (from_cache lc img) = ID img.
Proof.
  intros Hkeys. unfold from_cache. destruct (lc !! ID img) as [c|] eqn:Hc; [|done].
  destruct (Downloading c); [done|]. by apply Hkeys.
Qed.

End LayersToDownload_more.

(** X5: whenever [LayersToDownload] returns layers, there are as many
    of them as the manifest has FS layers, the manifest has no more
    history entries than FS layers, the entries at the indices of the
    history are records, and the entries after them are nil. *)
Theorem LayersToDownload_shape `{JSONDecoder} (ic : ImageC) (lc : LayerCache.t)
    (m : Manifest) (out : list (option ImageWithMeta)) :
  ImageManifestSchema1 (Opts ic) = Some m →
  LayersToDownload ic lc = Returns (inr out) →
  length out = length (FSLayers m)
  ∧ length (ManifestHistory m) ≤ length (FSLayers m)
  ∧ (∀ i, i < length (ManifestHistory m) → ∃ r, out !! i = Some (Some r))
  ∧ (∀ j, length (ManifestHistory m) ≤ j → j < length (FSLayers m) → out !! j = Some None).
Proof.
  intros Hm Hrun.
  destruct (LayersToDownload_returned ic lc m out Hm Hrun) as (Hle & Hlen & Hnil & Hrec).
  repeat split; try done.
  intros i Hi. destruct (Hrec i Hi) as (h & l & v & _ & _ & _ & Hout). by eexists.
Qed.

Lemma LayersToDownload_shape_witness :
  ∃ top base,
    @LayersToDownload flat_json (with_manifest long_manifest) ∅
    = Returns (inr [Some top; Some base; None]).
Proof.
  eexists _, _.
  assert (@LayersToDownload flat_json (with_manifest long_manifest) ∅ = Returns (inr _))
    as Hrun by (vm_compute; reflexivity).
  pose proof (LayersToDownload_shape (H := flat_json) (with_manifest long_manifest) ∅
                long_manifest _ eq_refl Hrun)
    as (_ & _ & _ & Hnil).
  specialize (Hnil 2 ltac:(cbn; lia) ltac:(cbn; lia)).
  exact Hrun.
Defined.

Lemma LayersToDownload_short `{JSONDecoder} (ic : ImageC) (lc : LayerCache.t)
    (m : Manifest) :
  ImageManifestSchema1 (Opts ic) = Some m →
  length (FSLayers m) < length (ManifestHistory m) →
  LayersToDownload ic lc = Panics index_out_of_range.
Proof.
  intros Hm Hlt. unfold LayersToDownload. rewrite Hm.
  destruct (length (ManifestHistory m)) as [|i] eqn:Hn; [lia|].
  cbn [LayersToDownload_from].
  rewrite (lookup_ge_None_2 (FSLayers m) i) by lia.
  by destruct (ManifestHistory m !! i).
Qed.

(** X6: a manifest with fewer FS layers than history entries makes
    [LayersToDownload] panic with an index out of range, whatever the
    entries and the layer cache hold: the layer of the last history
    entry is read before anything is decoded. *)
Theorem LayersToDownload_too_few_layers `{JSONDecoder} (ic : ImageC) (lc : LayerCache.t)
    (m : Manifest) :
  ImageManifestSchema1 (Opts ic) = Some m →
  length (FSLayers m) < length (ManifestHistory m) →
  LayersToDownload ic lc = Panics index_out_of_range.
Proof. apply LayersToDownload_short. Qed.

Lemma LayersToDownload_too_few_layers_witness :
  @LayersToDownload flat_json (with_manifest short_manifest) ∅
  = Panics index_out_of_range.
Proof.
  apply (LayersToDownload_too_few_layers (H := flat_json) (with_manifest short_manifest) ∅
           short_manifest eq_refl).
  cbn. lia.
Defined.

Lemma LayersToDownload_decode_error_any `{JSONDecoder} (ic : ImageC) (lc : LayerCache.t)
    (m : Manifest) :
  ImageManifestSchema1 (Opts ic) = Some m →
  length (ManifestHistory m) ≤ length (FSLayers m) →
  match decoded m 0 with
  | inl err =>
      LayersToDownload ic lc
      = Returns (inl (Errorf "Failed to unmarshall image history: " (Error err)))
  | inr _ => ∃ out, LayersToDownload ic lc = Returns (inr out)
  end.
Proof.
  intros Hm Hle. unfold LayersToDownload. rewrite Hm.
  apply LayersToDownload_from_returns; [done|done| |apply decoded_end].
  by rewrite length_replicate.
Qed.

(** X7: with at least as many FS layers as history entries,
    [LayersToDownload] does not panic: it returns the layers when every
    history entry decodes, and otherwise the error "Failed to unmarshall
    image history" with the error of the oldest entry that does not
    decode, and no layers. *)
Theorem LayersToDownload_decode_error `{JSONDecoder} (ic : ImageC) (lc : LayerCache.t)
    (m : Manifest) :
  ImageManifestSchema1 (Opts ic) = Some m →
  length (ManifestHistory m) ≤ length (FSLayers m) →
  match decoded m 0 with
  | inl err =>
      LayersToDownload ic lc
      = Returns (inl (Errorf "Failed to unmarshall image history: " (Error err)))
  | inr _ => ∃ out, LayersToDownload ic lc = Returns (inr out)
  end.
Proof. apply LayersToDownload_decode_error_any. Qed.

Lemma LayersToDownload_decode_error_witness :
  @LayersToDownload flat_json (with_manifest broken_manifest) ∅
  = Returns (inl (errorString
      "Failed to unmarshall image history: invalid character looking for beginning of value")).
Proof.
  exact (LayersToDownload_decode_error (H := flat_json) (with_manifest broken_manifest) ∅
           broken_manifest eq_refl ltac:(cbn; lia)).
Defined.

(** X8: no record that [LayersToDownload] returns is marked as being
    downloaded: a fresh record is not, and a cached record that is
    takes no record's place. *)
Theorem LayersToDownload_none_downloading `{JSONDecoder} (ic : ImageC)
    (lc : LayerCache.t) (out : list (option ImageWithMeta)) (i : nat)
    (r : ImageWithMeta) :
  LayersToDownload ic lc = Returns (inr out) →
  out !! i = Some (Some r) →
  Downloading r = false.
Proof.
  intros Hrun Hr.
  destruct (ImageManifestSchema1 (Opts ic)) as [m|] eqn:Hm;
    [|by unfold LayersToDownload in Hrun; rewrite Hm in Hrun].
  destruct (LayersToDownload_returned ic lc m out Hm Hrun) as (Hle & Hlen & Hnil & Hrec).
  destruct (decide (i < length (ManifestHistory m))) as [Hi|Hi].
  - destruct (Hrec i Hi) as (h & l & v & _ & _ & _ & Hout).
    rewrite Hr in Hout. injection Hout as ->. by apply from_cache_finished.
  - assert (i < length (FSLayers m)) as Hlt
      by (rewrite <- Hlen; by eapply lookup_lt_Some).
    rewrite Hnil in Hr by lia. done.
Qed.

Lemma LayersToDownload_none_downloading_witness :
  ∃ out r,
    @LayersToDownload flat_json (with_manifest busybox_manifest)
      (LayerCache.Add (LayerCache.Add ∅ cached_top) loading_base) = Returns (inr out)
    ∧ out !! 1 = Some (Some r) ∧ ID r = "base" ∧ Downloading r = false.
Proof.
  eexists _, _.
  assert (@LayersToDownload flat_json (with_manifest busybox_manifest)
            (LayerCache.Add (LayerCache.Add ∅ cached_top) loading_base) = Returns (inr _))
    as Hrun by (vm_compute; reflexivity).
  split; [exact Hrun|]. split; [reflexivity|]. split; [reflexivity|].
  exact (LayersToDownload_none_downloading (H := flat_json)
           (with_manifest busybox_manifest)
           (LayerCache.Add (LayerCache.Add ∅ cached_top) loading_base) _ 1 _ Hrun eq_refl).
Defined.

(** X9: when the layer cache keeps every record under its own ID, the
    record at each index of the history has the ID of the decoded
    history entry of that index, whether it is fresh or comes from the
    cache. *)
Theorem LayersToDownload_ids `{JSONDecoder} (ic : ImageC) (lc : LayerCache.t)
    (m : Manifest) (out : list (option ImageWithMeta)) (i : nat) :
  well_keyed lc →
  ImageManifestSchema1 (Opts ic) = Some m →
  LayersToDownload ic lc = Returns (inr out) →
  i < length (ManifestHistory m) →
  ∃ v r, decoded m i = inr v ∧ out !! i = Some (Some r) ∧ ID r = docker.v1ID v.
Proof.
  intros Hkeys Hm Hrun Hi.
  destruct (LayersToDownload_returned ic lc m out Hm Hrun) as (_ & _ & _ & Hrec).
  destruct (Hrec i Hi) as (h & l & v & _ & _ & Hv & Hout).
  eexists v, _. split; [done|]. split; [done|]. by rewrite from_cache_ID.
Qed.

Section layer_cache_facts.

Lemma well_keyed_empty : well_keyed ∅.
Proof. intros id layer Hl. by rewrite lookup_empty in Hl. Qed.

Lemma well_keyed_Add (lc : LayerCache.t) (layer : ImageWithMeta) :
  well_keyed lc → well_keyed (LayerCache.Add lc layer).
Proof.
  intros Hkeys id l. unfold LayerCache.Add. rewrite lookup_insert.
  case_decide; [by intros [= <-]|apply Hkeys].
Qed.

Lemma well_keyed_remember (lc : LayerCache.t) (layers : list (option ImageWithMeta)) :
  well_keyed lc → well_keyed (remember lc layers).
Proof.
  intros Hkeys. induction layers as [|[l|] layers IH]; cbn; [done| |done].
  by apply well_keyed_Add.
Qed.

Lemma layer_ids_lookup (layers : list (option ImageWithMeta)) (i : nat)
    (r : ImageWithMeta) :
  layers !! i = Some (Some r) → ID r ∈ layer_ids layers.
Proof.
  intros Hr. apply list_elem_of_omap. exists (Some r).
  split; [by eapply list_elem_of_lookup_2|done].
Qed.

(** A record that has been added is found under its ID, when no other
    record of the slice has that ID. *)
Lemma remember_lookup (lc : LayerCache.t) (layers : list (option ImageWithMeta))
    (i : nat) (r : ImageWithMeta) :
  NoDup (layer_ids layers) →
  layers !! i = Some (Some r) →
  remember lc layers !! ID r = Some r.
Proof.
  revert i. induction layers as [|o layers IH]; intros i Hnodup Hr; [done|].
  destruct i as [|k]; cbn in Hr.
  - injection Hr as ->. cbn. unfold LayerCache.Add. apply lookup_insert_eq.
  - destruct o as [l|]; cbn in *.
    + apply NoDup_cons in Hnodup as [Hnotin Hnodup].
      unfold LayerCache.Add. rewrite lookup_insert_ne; [by eapply IH|].
      intros Heq. apply Hnotin. rewrite Heq. by eapply layer_ids_lookup.
    + by eapply IH.
Qed.

End layer_cache_facts.

Section repeated_pull.
Context `{JSONDecoder}.

Lemma remember_elem (layers : list (option ImageWithMeta)) (id : string)
    (c : ImageWithMeta) :
  remember ∅ layers !! id = Some c → ∃ j, layers !! j = Some (Some c).
Proof.
  induction layers as [|[l|] layers IH]; cbn.
  - by rewrite lookup_empty.
  - unfold LayerCache.Add. rewrite lookup_insert. case_decide.
    + intros [= <-]. by exists 0.
    + intros [j Hj]%IH. by exists (S j).
  - intros [j Hj]%IH. by exists (S j).
Qed.

(** The layer cache that holds the records of a first pull of a
    manifest whose entries form a chain agrees with the manifest, so
    that the records of a second pull reach "scratch" as well. *)
Lemma first_pull_agrees (ic : ImageC) (m : Manifest) (out : list (option ImageWithMeta)) :
  ImageManifestSchema1 (Opts ic) = Some m →
  is_chain m →
  LayersToDownload ic ∅ = Returns (inr out) →
  cache_agrees (remember ∅ out) m.
Proof.
  intros Hm Hchain Hrun i v c Hi Hv Hc _.
  destruct (LayersToDownload_returned ic ∅ m out Hm Hrun) as (_ & Hlen & Hnil & Hrec).
  pose proof (well_keyed_remember ∅ out well_keyed_empty _ _ Hc) as Hid.
  destruct (remember_elem out _ c Hc) as [j Hj].
  assert (j < length (ManifestHistory m)) as Hjlt.
  { destruct (decide (j < length (ManifestHistory m))) as [|Hge]; [done|].
    assert (j < length (FSLayers m)) by (rewrite <- Hlen; by eapply lookup_lt_Some).
    rewrite Hnil in Hj by lia. done. }
  destruct (Hrec j Hjlt) as (h & l & vj & _ & _ & Hvj & Hout).
  rewrite from_cache_not_cached in Hout by (intros c'; by rewrite lookup_empty).
  rewrite Hj in Hout. injection Hout as ->. cbn in Hid.
  destruct (Hchain i v Hi Hv) as (_ & _ & Huniq).
  assert (j = i) as -> by (by apply (Huniq j vj)).
  assert (vj = v) as -> by congruence. done.
Qed.

End repeated_pull.

Lemma LayersToDownload_ids_witness :
  ∃ out r,
    @LayersToDownload flat_json (with_manifest busybox_manifest)
      (LayerCache.Add ∅ cached_top) = Returns (inr out)
    ∧ out !! 0 = Some (Some r) ∧ ID r = "top" ∧ DiffID r = "sha256:d1".
Proof.
  assert (@LayersToDownload flat_json (with_manifest busybox_manifest)
            (LayerCache.Add ∅ cached_top) = Returns (inr [Some cached_top; _]))
    as Hrun by (vm_compute; reflexivity).
  destruct (LayersToDownload_ids (H := flat_json) (with_manifest busybox_manifest)
              (LayerCache.Add ∅ cached_top) busybox_manifest _ 0
              (well_keyed_Add _ _ well_keyed_empty) eq_refl Hrun ltac:(cbn; lia))
    as (v & r & Hv & Hr & Hid).
  vm_compute in Hv. injection Hv as <-. injection Hr as <-.
  eexists _, cached_top. split; [exact Hrun|]. split; [reflexivity|].
  split; [exact Hid|reflexivity].
Defined.

(** X10: once the records that [LayersToDownload] has returned are
    stored in the layer cache, [LayersToDownload] returns the same
    records again, now all from the cache, provided that the cache keeps
    every record under its own ID and that no two of the records have
    the same ID. *)
Theorem LayersToDownload_again `{JSONDecoder} (ic : ImageC) (lc : LayerCache.t)
    (out : list (option ImageWithMeta)) :
  well_keyed lc →
  NoDup (layer_ids out) →
  LayersToDownload ic lc = Returns (inr out) →
  LayersToDownload ic (remember lc out) = Returns (inr out).
Proof.
  intros Hkeys Hnodup Hrun.
  destruct (ImageManifestSchema1 (Opts ic)) as [m|] eqn:Hm;
    [|by unfold LayersToDownload in Hrun; rewrite Hm in Hrun].
  destruct (LayersToDownload_returned ic lc m out Hm Hrun) as (Hle & Hlen & Hnil & Hrec).
  assert (∃ v0, decoded m 0 = inr v0) as [v0 Hv0].
  { destruct (length (ManifestHistory m)) as [|k] eqn:Hn.
    - exists docker.zeroV1Image. rewrite <- Hn. apply decoded_end.
    - destruct (Hrec 0 ltac:(lia)) as (_ & _ & v & _ & _ & Hv & _). by exists v. }
  pose proof (LayersToDownload_decode_error_any ic (remember lc out) m Hm Hle) as Hagain.
  rewrite Hv0 in Hagain. destruct Hagain as [out' Hrun']. rewrite Hrun'.
  destruct (LayersToDownload_returned ic _ m out' Hm Hrun')
    as (_ & Hlen' & Hnil' & Hrec').
  do 2 f_equal. apply list_eq. intros i.
  destruct (decide (i < length (ManifestHistory m))) as [Hi|Hi].
  - destruct (Hrec i Hi) as (h & l & v & Hh & Hl & Hv & Hout).
    destruct (Hrec' i Hi) as (h' & l' & v' & Hh' & Hl' & Hv' & Hout').
    assert (h' = h ∧ l' = l ∧ v' = v) as (-> & -> & ->) by (split_and!; congruence).
    rewrite Hout', Hout. do 2 f_equal.
    set (img := fresh_layer (Storename (Opts ic)) v h l) in *.
    pose proof (remember_lookup lc out i _ Hnodup Hout) as Hfound.
    rewrite (from_cache_ID lc img Hkeys) in Hfound.
    unfold from_cache at 1. rewrite Hfound.
    by rewrite (from_cache_finished lc img eq_refl).
  - destruct (decide (i < length (FSLayers m))) as [Hlt|Hge].
    + by rewrite Hnil, Hnil' by lia.
    + by rewrite !lookup_ge_None_2 by lia.
Qed.

Lemma LayersToDownload_again_witness :
  ∃ out,
    @LayersToDownload flat_json (with_manifest busybox_manifest) ∅ = Returns (inr out)
    ∧ @LayersToDownload flat_json (with_manifest busybox_manifest) (remember ∅ out)
      = Returns (inr out)
    ∧ length out = 2.
Proof.
  eexists.
  assert (@LayersToDownload flat_json (with_manifest busybox_manifest) ∅ = Returns (inr _))
    as Hrun by (vm_compute; reflexivity).
  split; [exact Hrun|]. split; [|reflexivity].
  apply (LayersToDownload_again (H := flat_json) (with_manifest busybox_manifest) ∅ _
           well_keyed_empty); [|exact Hrun].
  apply (bool_decide_unpack _). vm_compute. reflexivity.
Defined.

(** ** updateRepositoryCache *)

Section updateRepositoryCache_more.
Context `{ReferenceParser} `{PortLayerStore}.

(** Binding a reference that is bound already changes nothing in the
    cache; what remains is to persist it. *)
Lemma AddReference_again (rc : cache.Repo) (ref : reference.Named) (id layerID : string)
    (force : bool) :
  cache.Get rc ref = Some id →
  cache.Layers rc !! layerID = Some id →
  cache.AddReference rc ref id force layerID true
  = (rc, Save (cache.References rc) (cache.Layers rc)).
Proof.
  unfold cache.Get, cache.AddReference. intros Href Hlayer. cbn.
  rewrite !insert_id by done. by destruct rc.
Qed.

Lemma AddReference_saved (rc rc' : cache.Repo) (ref : reference.Named)
    (id layerID : string) (force : bool) (err : option error) :
  cache.AddReference rc ref id force layerID true = (rc', err) →
  Save (cache.References rc') (cache.Layers rc') = err
  ∧ cache.Get rc' ref = Some id
  ∧ cache.Layers rc' !! layerID = Some id.
Proof.
  unfold cache.AddReference, cache.Get. intros [= <- <-]. cbn.
  by rewrite !lookup_insert_eq.
Qed.

(** The outcomes of [updateRepositoryCache], one by one. *)
Lemma updateRepositoryCache_cases (ic ic' : ImageC) (rc rc' : cache.Repo)
    (err : option error) :
  updateRepositoryCache ic rc = Returns (ic', rc', err) →
  ∃ layer0 rest,
    ImageLayers ic = Some layer0 :: rest
    ∧ ((∃ e, ParseNamed (Reference (Opts ic)) = inl e ∧ ic' = ic ∧ rc' = rc
             ∧ err = Some (Errorf "Unable to parse reference: " (Error e)))
       ∨ ∃ ref id,
           ParseNamed (Reference (Opts ic)) = inr ref
           ∧ id = (if String.eqb (ImageID ic) "" then cache.GetImageID rc (ID layer0)
                   else ImageID ic)
           ∧ ic' = (if String.eqb (ImageID ic) "" then set_ImageID id ic else ic)
           ∧ ((id = "" ∧ rc' = rc ∧ err = Some (ErrImageIDNotFound (ID layer0)))
              ∨ (id ≠ ""
                 ∧ ∃ rc1 e1,
                     cache.AddReference rc ref id true (ID layer0) true = (rc1, e1)
                     ∧ ((∃ e, e1 = Some e ∧ rc' = rc1 ∧ err = Some (ErrAddReference ref e))
                        ∨ (e1 = None
                           ∧ ((∃ e, ParseNamed (reference.Name ref +:+ "@"
                                                +:+ ManifestDigest (Opts ic)) = inl e
                                    ∧ rc' = rc1
                                    ∧ err = Some (Errorf "Unable to parse digest: "
                                                         (Error e)))
                              ∨ ∃ dig e2,
                                  ParseNamed (reference.Name ref +:+ "@"
                                              +:+ ManifestDigest (Opts ic)) = inr dig
                                  ∧ cache.AddReference rc1 dig id true (ID layer0) true
                                    = (rc', e2)
                                  ∧ err = (ErrAddDigest dig <$> e2))))))).
Proof.
  unfold updateRepositoryCache. intros Hrun.
  destruct (ImageLayers ic) as [|[layer0|] rest]; [done| |done].
  exists layer0, rest. split; [done|].
  destruct (ParseNamed (Reference (Opts ic))) as [e|ref] eqn:Href.
  { left. exists e. by simplify_eq. }
  right. exists ref. eexists. split; [done|]. split; [done|].
  assert (ImageID (if String.eqb (ImageID ic) ""
                   then set_ImageID (cache.GetImageID rc (ID layer0)) ic else ic)
          = if String.eqb (ImageID ic) "" then cache.GetImageID rc (ID layer0)
            else ImageID ic) as Hid by (by destruct (String.eqb (ImageID ic) "")).
  assert (Opts (if String.eqb (ImageID ic) ""
                then set_ImageID (cache.GetImageID rc (ID layer0)) ic else ic)
          = Opts ic) as Hopts by (by destruct (String.eqb (ImageID ic) "")).
  rewrite Hid, Hopts in Hrun.
  assert ((if String.eqb (ImageID ic) ""
           then set_ImageID (cache.GetImageID rc (ID layer0)) ic else ic)
          = if String.eqb (ImageID ic) ""
            then set_ImageID (if String.eqb (ImageID ic) ""
                              then cache.GetImageID rc (ID layer0) else ImageID ic) ic
            else ic) as Hic by (by destruct (String.eqb (ImageID ic) "")).
  rewrite Hic in Hrun. clear Hid Hopts Hic.
  set (id := if String.eqb (ImageID ic) "" then cache.GetImageID rc (ID layer0)
             else ImageID ic) in *.
  destruct (String.eqb_spec id "") as [Hempty|Hne].
  { injection Hrun as <- <- <-. split; [done|]. left. done. }
  destruct (cache.AddReference rc ref id true (ID layer0) true) as [rc1 [e1|]] eqn:Hadd1.
  { injection Hrun as <- <- <-. split; [done|]. right. split; [done|].
    exists rc1, (Some e1). split; [done|]. left. by exists e1. }
  destruct (ParseNamed (reference.Name ref +:+ "@" +:+ ManifestDigest (Opts ic)))
    as [e|dig] eqn:Hdig.
  { injection Hrun as <- <- <-. split; [done|]. right. split; [done|].
    exists rc1, None. split; [done|]. right. split; [done|]. left. by exists e. }
  destruct (cache.AddReference rc1 dig id true (ID layer0) true) as [rc2 e2] eqn:Hadd2.
  assert (rc' = rc2 ∧ err = (ErrAddDigest dig <$> e2)) as [-> ->]
    by (destruct e2; by simplify_eq).
  assert (ic' = if String.eqb (ImageID ic) "" then set_ImageID id ic else ic) as ->
    by (destruct e2; by simplify_eq).
  split; [done|]. right. split; [done|].
  exists rc1, None. split; [done|]. right. split; [done|]. right.
  by exists dig, e2.
Qed.

End updateRepositoryCache_more.

(** X11: [updateRepositoryCache] writes nothing of the receiver but an
    empty image ID: the options and the layers are as before and an
    image ID that was known is kept, whatever the outcome; and when the
    reference does not parse, the call fails with "Unable to parse
    reference" and leaves the receiver and the repository cache as they
    were. *)
Theorem updateRepositoryCache_frame `{ReferenceParser} `{PortLayerStore}
    (ic ic' : ImageC) (rc rc' : cache.Repo) (err : option error) :
  updateRepositoryCache ic rc = Returns (ic', rc', err) →
  Opts ic' = Opts ic
  ∧ ImageLayers ic' = ImageLayers ic
  ∧ (ImageID ic ≠ "" → ImageID ic' = ImageID ic)
  ∧ (∀ e, ParseNamed (Reference (Opts ic)) = inl e →
       ic' = ic ∧ rc' = rc
       ∧ err = Some (Errorf "Unable to parse reference: " (Error e))).
Proof.
  intros (layer0 & rest & Hlayers & Hcases)%updateRepositoryCache_cases.
  destruct Hcases as [(e & Hparse & -> & -> & ->)|(ref & id & Hparse & _ & -> & _)].
  - split_and!; [done|done|done|]. intros e' He'.
    rewrite Hparse in He'. by injection He' as <-.
  - destruct (String.eqb_spec (ImageID ic) ""); split_and!; try done.
    all: intros e' He'; congruence.
Qed.

Lemma updateRepositoryCache_frame_witness :
  ∃ err,
    @updateRepositoryCache docker_reference reliable_store misspelt_busybox cache.emptyRepo
    = Returns (misspelt_busybox, cache.emptyRepo, Some err).
Proof.
  assert (∃ ic' rc' err,
            @updateRepositoryCache docker_reference reliable_store misspelt_busybox
              cache.emptyRepo = Returns (ic', rc', err)) as (ic' & rc' & err & Hrun)
    by (eexists _, _, _; vm_compute; reflexivity).
  destruct (updateRepositoryCache_frame (H := docker_reference) (H0 := reliable_store)
              _ _ _ _ _ Hrun) as (_ & _ & _ & Hfail).
  destruct (Hfail _ eq_refl) as (Hic & Hrc & Herr).
  rewrite Hic, Hrc, Herr in Hrun. eexists. exact Hrun.
Defined.

(** X12: a second [updateRepositoryCache] after a successful one finds
    both references bound to the image ID.  Whatever the port layer
    answers the second time (it is a second store here, since
    persisting can succeed once and fail later), the receiver and the
    repository cache stay as the first call left them.  The second call
    returns nil when the port layer persists the cache again, and fails
    otherwise with the error of one of the two bindings, never with
    the error of a parse or of a missing image ID. *)
Theorem updateRepositoryCache_twice `{ReferenceParser} (first second : PortLayerStore)
    (ic ic' : ImageC) (rc rc' : cache.Repo) :
  @updateRepositoryCache _ first ic rc = Returns (ic', rc', None) →
  ∃ err,
    @updateRepositoryCache _ second ic' rc' = Returns (ic', rc', err)
    ∧ (@Save second (cache.References rc') (cache.Layers rc') = None → err = None)
    ∧ (∀ e, err = Some e →
         ∃ ref cause, e = ErrAddReference ref cause ∨ e = ErrAddDigest ref cause).
Proof.
  intros (layer0 & rest & Hlayers & Hcases)%updateRepositoryCache_cases.
  destruct Hcases as [(e & _ & _ & _ & ?)|(ref & id & Hparse & Hid & Hic' & Hcases)];
    [done|].
  destruct Hcases as [(_ & _ & ?)|(Hne & rc1 & e1 & Hadd1 & Hcases)]; [done|].
  destruct Hcases as [(e & _ & _ & ?)|(-> & Hcases)]; [done|].
  destruct Hcases as [(e & _ & _ & ?)|(dig & e2 & Hdig & Hadd2 & Herr)]; [done|].
  destruct e2 as [e2|]; [done|].
  apply AddReference_saved in Hadd1 as (_ & Htag & Hlayer).
  pose proof (AddReference_keeps (H0 := first) rc1 dig ref id (ID layer0) true true Htag)
    as Hkept.
  pose proof Hadd2 as (_ & Hbound & Hlayer')%AddReference_saved.
  rewrite Hadd2 in Hkept. cbn in Hkept.
  assert (ImageID ic' = id ∧ Opts ic' = Opts ic ∧ ImageLayers ic' = ImageLayers ic)
    as (Hid' & Hopts & Hlayers').
  { subst ic'. by destruct (String.eqb (ImageID ic) ""). }
  unfold updateRepositoryCache. rewrite Hlayers', Hlayers, Hopts, Hparse, Hid'.
  cbv beta zeta. rewrite (proj2 (String.eqb_neq id "")) by done. cbv iota.
  rewrite Hid', (proj2 (String.eqb_neq id "")) by done.
  rewrite (AddReference_again (H0 := second) rc' ref id (ID layer0) true Hkept Hlayer').
  destruct (@Save second (cache.References rc') (cache.Layers rc')) as [cause|] eqn:Hsave.
  - eexists. split; [reflexivity|]. split; [done|].
    intros e [= <-]. exists ref, cause. by left.
  - rewrite Hopts, Hdig.
    rewrite (AddReference_again (H0 := second) rc' dig id (ID layer0) true Hbound Hlayer'),
      Hsave.
    eexists. split; [reflexivity|]. split; done.
Qed.

Lemma updateRepositoryCache_twice_witness :
  ∃ rc' err,
    @updateRepositoryCache docker_reference reliable_store pulled_busybox cache.emptyRepo
    = Returns (pulled_busybox, rc', None)
    ∧ @updateRepositoryCache docker_reference small_store pulled_busybox rc'
      = Returns (pulled_busybox, rc', Some err)
    ∧ cache.Get rc' (reference.namedRef "busybox") = Some "e292aa76ad3b".
Proof.
  assert (∃ rc',
            @updateRepositoryCache docker_reference reliable_store pulled_busybox
              cache.emptyRepo = Returns (pulled_busybox, rc', None)) as (rc' & Hrun)
    by (eexists; vm_compute; reflexivity).
  destruct (updateRepositoryCache_twice (H := docker_reference) reliable_store small_store
              _ _ _ _ Hrun) as (err & Hagain & Hnil & _).
  vm_compute in Hrun. injection Hrun as <-.
  destruct err as [err|].
  - eexists _, err. split; [vm_compute; reflexivity|]. split; [exact Hagain|].
    vm_compute. reflexivity.
  - vm_compute in Hagain. discriminate Hagain.
Defined.

(** ** WriteImageBlob *)

(** X13: when the tar file of the layer cannot be opened, or its size
    cannot be read, [WriteImageBlob] returns the error and nothing has
    changed: the files, the image store (the store writer is not
    called) and the progress output are as before. *)
Theorem WriteImageBlob_not_written `{URLParser} `{ImageStoreWriter} (ic : ImageC)
    (image : ImageWithMeta) (cleanup : bool) (w : World) (destination : string) :
  DestinationDirectory (Opts ic) = Returns destination →
  let tar := path.Join [destination; ID image; ID image +:+ ".tar"] in
  (∀ e, os_Open (fs w) tar = inl e →
     WriteImageBlob ic image cleanup w
     = Returns (w, Some (Errorf "Failed to open file: " (Error e))))
  ∧ (∀ f e, os_Open (fs w) tar = inr f → File_Stat (fs w) f = inl e →
       WriteImageBlob ic image cleanup w
       = Returns (w, Some (Errorf "Failed to stat file: " (Error e)))).
Proof.
  intros Hdest tar. unfold WriteImageBlob. rewrite Hdest. cbn [mbind run_bind]. fold tar.
  split.
  - intros e Hopen. by rewrite Hopen.
  - intros f e Hopen Hstat. by rewrite Hopen, Hstat.
Qed.

Lemma WriteImageBlob_not_written_witness :
  ∃ err,
    @WriteImageBlob go_url map_os list_store (NewImageC busybox_options) base_layer true
      scratch_world
    = Returns (scratch_world, Some err).
Proof.
  eexists.
  apply (proj1 (WriteImageBlob_not_written (H := go_url) (H1 := list_store)
                  (NewImageC busybox_options) base_layer true scratch_world
                  "images/https/registry-1.docker.io/v2/library/busybox/latest" eq_refl)).
  vm_compute. reflexivity.
Defined.

Section WriteImageBlob_more.
Context `{URLParser} `{ImageStoreWriter}.

(** The reports of the reader are not the completion event. *)
Lemma pull_complete_not_reported (image : ImageWithMeta) (f : File) (size : Z) (n : nat) :
  pull_complete image ∉ replicate n (progress_report (extracting image f size)).
Proof. intros [Heq _]%elem_of_replicate. discriminate Heq. Qed.

Lemma added_app (before events : list Progress) : added before (before ++ events) = events.
Proof. unfold added. by rewrite drop_app_length. Qed.

End WriteImageBlob_more.

(** X14: the progress output of a call that has reached the store
    writer.  The reader reports "Extracting" while the store reads the
    stream and when it is closed at the return; between the two,
    "Pull complete" is reported, once, exactly when the store writer has
    succeeded, also when the cleanup fails afterwards, in which case the
    call returns "Failed to remove download directory" although the
    layer is written.  When the writer fails, the reader's reports are
    all that is added.  The completion event is among the added events
    only if the writer has succeeded, and a call that returns no error
    has written the layer and, when asked to clean up, has removed the
    directory. *)
Theorem WriteImageBlob_completion `{URLParser} `{ImageStoreWriter} (ic : ImageC)
    (image : ImageWithMeta) (cleanup : bool) (w w' : World) (destination : string)
    (err : option error) :
  DestinationDirectory (Opts ic) = Returns destination →
  WriteImageBlob ic image cleanup w = Returns (w', err) →
  let tar := path.Join [destination; ID image; ID image +:+ ".tar"] in
  let report f size := progress_report (extracting image f size) in
  let reported f size := reports (store w) (Host (Opts ic)) image (extracting image f size) in
  (∀ f size store', os_Open (fs w) tar = inr f → File_Stat (fs w) f = inr size →
     WriteImage (store w) (Host (Opts ic)) image (extracting image f size)
     = (store', None) →
     store w' = store'
     ∧ output w' = output w ++ replicate (reported f size).1 (report f size)
                   ++ [pull_complete image]
                   ++ replicate (reported f size).2 (report f size)
     ∧ (cleanup = true → ∀ fs' e, os_RemoveAll (fs w) destination = (fs', Some e) →
          err = Some (Errorf "Failed to remove download directory: " (Error e))))
  ∧ (∀ f size store' e, os_Open (fs w) tar = inr f → File_Stat (fs w) f = inr size →
       WriteImage (store w) (Host (Opts ic)) image (extracting image f size)
       = (store', Some e) →
       store w' = store'
       ∧ output w' = output w ++ replicate (reported f size).1 (report f size)
                     ++ replicate (reported f size).2 (report f size))
  ∧ (pull_complete image ∈ added (output w) (output w') →
     ∃ f size,
       os_Open (fs w) tar = inr f ∧ File_Stat (fs w) f = inr size
       ∧ WriteImage (store w) (Host (Opts ic)) image (extracting image f size)
         = (store w', None))
  ∧ (err = None →
     ∃ f size,
       os_Open (fs w) tar = inr f ∧ File_Stat (fs w) f = inr size
       ∧ WriteImage (store w) (Host (Opts ic)) image (extracting image f size)
         = (store w', None)
       ∧ (cleanup = true → os_RemoveAll (fs w) destination = (fs w', None))).
Proof.
  intros Hdest Hrun tar report reported. unfold WriteImageBlob in Hrun.
  rewrite Hdest in Hrun. cbn [mbind run_bind] in Hrun. fold tar in Hrun.
  assert (∀ l : list Progress, pull_complete image ∈ added l l → False) as Hnone.
  { intros l. unfold added. rewrite drop_all. by intros ?%elem_of_nil. }
  destruct (os_Open (fs w) tar) as [e|f] eqn:Hopen.
  { injection Hrun as <- <-. split_and!; try done. by intros ?%Hnone. }
  destruct (File_Stat (fs w) f) as [e|size] eqn:Hstat.
  { injection Hrun as <- <-.
    split_and!; [| |by intros ?%Hnone|done];
      intros f' size'; intros; simplify_eq; congruence. }
  assert (∀ f' size', (inr f : error + File) = inr f' → File_Stat (fs w) f' = inr size' →
            f' = f ∧ size' = size) as Hsame.
  { intros f' size' [= <-] Hstat'. rewrite Hstat in Hstat'. by injection Hstat' as <-. }
  fold (extracting image f size) in Hrun. cbv zeta in Hrun.
  fold (reported f size) in Hrun. fold (report f size) in Hrun.
  destruct (WriteImage (store w) (Host (Opts ic)) image (extracting image f size))
    as [store' [e|]] eqn:Hwrite.
  { injection Hrun as <- <-. cbn [store output fs]. split_and!; [| | |done].
    - intros f' size' store'' Hopen' Hstat' Hwrite'.
      destruct (Hsame _ _ Hopen' Hstat') as [-> ->]. by rewrite Hwrite in Hwrite'.
    - intros f' size' store'' e' Hopen' Hstat' Hwrite'.
      destruct (Hsame _ _ Hopen' Hstat') as [-> ->]. rewrite Hwrite in Hwrite'.
      by injection Hwrite' as <- <-.
    - rewrite added_app. intros [Hin|Hin]%elem_of_app;
        by apply pull_complete_not_reported in Hin. }
  assert (∀ w1 e1,
            store w1 = store' →
            output w1 = output w ++ replicate (reported f size).1 (report f size)
                        ++ [pull_complete image]
                        ++ replicate (reported f size).2 (report f size) →
            (cleanup = true → ∀ fs' e, os_RemoveAll (fs w) destination = (fs', Some e) →
               e1 = Some (Errorf "Failed to remove download directory: " (Error e))) →
            (∀ f' size' store'', (inr f : error + File) = inr f' →
               File_Stat (fs w) f' = inr size' →
               WriteImage (store w) (Host (Opts ic)) image (extracting image f' size')
               = (store'', None) →
               store w1 = store''
               ∧ output w1 = output w ++ replicate (reported f' size').1 (report f' size')
                             ++ [pull_complete image]
                             ++ replicate (reported f' size').2 (report f' size')
               ∧ (cleanup = true →
                  ∀ fs' e, os_RemoveAll (fs w) destination = (fs', Some e) →
                    e1 = Some (Errorf "Failed to remove download directory: " (Error e))))
            ∧ (∀ f' size' store'' e', (inr f : error + File) = inr f' →
                 File_Stat (fs w) f' = inr size' →
                 WriteImage (store w) (Host (Opts ic)) image (extracting image f' size')
                 = (store'', Some e') →
                 store w1 = store''
                 ∧ output w1 = output w ++ replicate (reported f' size').1 (report f' size')
                               ++ replicate (reported f' size').2 (report f' size'))
            ∧ (pull_complete image ∈ added (output w) (output w1) →
               ∃ f' size',
                 (inr f : error + File) = inr f' ∧ File_Stat (fs w) f' = inr size'
                 ∧ WriteImage (store w) (Host (Opts ic)) image (extracting image f' size')
                   = (store w1, None))) as Hwritten.
  { intros w1 e1 Hstore Hout Hclean. split_and!.
    - intros f' size' store'' Hopen' Hstat' Hwrite'.
      destruct (Hsame _ _ Hopen' Hstat') as [-> ->]. rewrite Hwrite in Hwrite'.
      injection Hwrite' as <-. done.
    - intros f' size' store'' e' Hopen' Hstat' Hwrite'.
      destruct (Hsame _ _ Hopen' Hstat') as [-> ->]. by rewrite Hwrite in Hwrite'.
    - intros _. exists f, size. by rewrite Hstore. }
  destruct cleanup.
  - destruct (os_RemoveAll (fs w) destination) as [fs' [e|]] eqn:Hremove;
      injection Hrun as <- <-; set (w1 := Build_World _ _ _).
    + destruct (Hwritten w1 (Some (Errorf "Failed to remove download directory: "
                                          (Error e))) eq_refl)
        as (Hdone & Hfail & Hin);
        [by cbn; rewrite <- !app_assoc|by intros _ ? ? [= _ <-]|].
      split_and!; done.
    + destruct (Hwritten w1 None eq_refl) as (Hdone & Hfail & Hin);
        [by cbn; rewrite <- !app_assoc|by intros _ ? ? [=]|].
      split_and!; try done. intros _. by exists f, size.
  - injection Hrun as <- <-. set (w1 := Build_World _ _ _).
    destruct (Hwritten w1 None eq_refl) as (Hdone & Hfail & Hin);
      [by cbn; rewrite <- !app_assoc|done|].
    split_and!; try done. intros _. by exists f, size.
Qed.

Lemma WriteImageBlob_completion_witness :
  ∃ w' err,
    @WriteImageBlob go_url readonly_os readonly_store (NewImageC busybox_options)
      cached_top true readonly_world = Returns (w', Some err)
    ∧ @store readonly_os readonly_store w' = [("top", "layer.tar contents")]
    ∧ (progAction <$> @output readonly_os readonly_store w')
      = ["Extracting"; "Extracting"; "Pull complete"].
Proof.
  assert (∃ w' err,
            @WriteImageBlob go_url readonly_os readonly_store (NewImageC busybox_options)
              cached_top true readonly_world = Returns (w', Some err))
    as (w' & err & Hrun) by (eexists _, _; vm_compute; reflexivity).
  destruct (WriteImageBlob_completion (H := go_url) (H1 := readonly_store)
              (NewImageC busybox_options) cached_top true readonly_world w'
              "images/https/registry-1.docker.io/v2/library/busybox/latest" _
              eq_refl Hrun) as (Hdone & _ & _).
  destruct (Hdone "layer.tar contents" 18%Z [("top", "layer.tar contents")]
              eq_refl eq_refl eq_refl) as (Hstore & Hout & _).
  exists w', err. split; [exact Hrun|]. split; [exact Hstore|]. by rewrite Hout.
Defined.

(** ** CreateImageConfig *)

Section CreateImageConfig_more.
Context `{JSONDecoder} `{Digester}.

Lemma int64_wrap_add (a b : Z) : int64_wrap (int64_wrap a + b) = int64_wrap (a + b).
Proof.
  unfold int64_wrap. f_equal.
  replace ((a + 2 ^ 63) `mod` 2 ^ 64 - 2 ^ 63 + b + 2 ^ 63)%Z
    with ((a + 2 ^ 63) `mod` 2 ^ 64 + b)%Z by lia.
  rewrite Zplus_mod_idemp_l. f_equal. lia.
Qed.

Lemma int64_wrap_small (z : Z) : (- 2 ^ 63 ≤ z < 2 ^ 63)%Z → int64_wrap z = z.
Proof. intros Hz. unfold int64_wrap. rewrite Z.mod_small; lia. Qed.

Lemma total_size_snoc (chain : list ImageWithMeta) (l : ImageWithMeta) :
  total_size (chain ++ [l]) = (total_size chain + Size l)%Z.
Proof. induction chain as [|a chain IH]; cbn; [lia|]. unfold total_size in IH. lia. Qed.

Lemma decode_layers_snoc (image : docker.V1Image) (chain : list ImageWithMeta)
    (l : ImageWithMeta) :
  decode_layers image (chain ++ [l])
  = match Unmarshal (Meta l) image with
    | inl err => inl err
    | inr image => decode_layers image chain
    end.
Proof.
  induction chain as [|a chain IH]; cbn.
  - by destruct (Unmarshal (Meta l) image).
  - rewrite IH. by destruct (Unmarshal (Meta l) image).
Qed.

Lemma int64_wrap_idemp (z : Z) : int64_wrap (int64_wrap z) = int64_wrap z.
Proof.
  transitivity (int64_wrap (int64_wrap z + 0)); [by rewrite Z.add_0_r|].
  by rewrite int64_wrap_add, Z.add_0_r.
Qed.

(** The loop over records: it returns the error of the oldest record
    whose configuration does not decode, and otherwise the decoded
    configuration and the wrapped sum of the sizes. *)
Lemma CreateImageConfig_from_run (chain : list ImageWithMeta) (n : nat)
    (image : docker.V1Image) (rootFS : docker.RootFS) (history : list docker.History)
    (size : Z) :
  n ≤ length chain →
  int64_wrap size = size →
  match decode_layers image (take n chain) with
  | inl err =>
      CreateImageConfig_from (Some <$> chain) n image rootFS history size
      = Returns (inl (Errorf "Failed to unmarshall layer history: " (Error err)))
  | inr image' =>
      ∃ rootFS' history',
        CreateImageConfig_from (Some <$> chain) n image rootFS history size
        = Returns (inr (image', rootFS', history',
                        int64_wrap (size + total_size (take n chain))))
  end.
Proof.
  revert image rootFS history size.
  induction n as [|i IH]; intros image rootFS history size Hn Hsize.
  - rewrite take_0. cbn [decode_layers total_size foldr CreateImageConfig_from].
    exists rootFS, history. by rewrite Z.add_0_r, Hsize.
  - destruct (lookup_lt_is_Some_2 chain i) as [l Hl]; [lia|].
    rewrite (take_S_r _ _ _ Hl), decode_layers_snoc, total_size_snoc.
    cbn [CreateImageConfig_from]. rewrite list_lookup_fmap, Hl. cbn [fmap option_fmap option_map].
    destruct (Unmarshal (Meta l) image) as [err|v]; [done|].
    replace (size + (total_size (take i chain) + Size l))%Z
      with (size + Size l + total_size (take i chain))%Z by lia.
    rewrite <- (int64_wrap_add (size + Size l)).
    destruct (String.eqb (DiffID l) docker.DigestSHA256EmptyTar);
      apply IH; try lia; apply int64_wrap_idemp.
Qed.

(** The sizes of the records do not reach the document. *)
Lemma CreateImageConfig_from_document (chain1 chain2 : list ImageWithMeta) (n : nat)
    (image : docker.V1Image) (rootFS : docker.RootFS) (history : list docker.History)
    (size1 size2 : Z) :
  Forall2 same_document chain1 chain2 →
  document_of (CreateImageConfig_from (Some <$> chain1) n image rootFS history size1)
  = document_of (CreateImageConfig_from (Some <$> chain2) n image rootFS history size2).
Proof.
  intros Hsame. revert image rootFS history size1 size2.
  induction n as [|i IH]; intros image rootFS history size1 size2; [done|].
  cbn [CreateImageConfig_from]. rewrite !list_lookup_fmap.
  destruct (chain1 !! i) as [a|] eqn:Ha.
  - destruct (Forall2_lookup_l _ _ _ _ _ Hsame Ha) as (b & Hb & Hm & Hd).
    rewrite Hb. cbn. rewrite Hd, Hm. destruct (Unmarshal (Meta b) image); [done|].
    destruct (String.eqb _ _); apply IH.
  - destruct (chain2 !! i) as [b|] eqn:Hb; [|done].
    destruct (Forall2_lookup_r _ _ _ _ _ Hsame Hb) as (a & Ha' & _). congruence.
Qed.

(** The computation after a miss in the image cache, for records. *)
Lemma CreateImageConfig_miss (ic : ImageC) (rc : cache.Repo) (imgc : cache.ImageCache)
    (l : ImageWithMeta) (chain : list ImageWithMeta) :
  imgc !! cache.GetImageID rc (ID l) = None →
  CreateImageConfig ic rc imgc (Some <$> l :: chain)
  = (r ← CreateImageConfig_from (Some <$> l :: chain) (S (length chain))
           docker.zeroV1Image docker.NewRootFS [] 0%Z;
     match r with
     | inl err => Returns (inl err)
     | inr (image, rootFS, history, size) =>
         let result := result_image image rootFS history in
         match MarshalJSON result with
         | inl err =>
             Returns (inl (Errorf "Failed to marshall image metadata: " (Error err)))
         | inr imageConfigBytes =>
             match ImageManifestSchema1 (Opts ic) with
             | None => Panics nil_dereference
             | Some manifest =>
                 Returns (inr
                   {| cfgV1Image := metadata_image result image size (ID l);
                      cfgImageID := sha256_hex imageConfigBytes;
                      Digests := [ManifestDigest (Opts ic)];
                      Tags := [Tag (Opts ic)];
                      cfgName := Name manifest;
                      cfgDiffIDs := ∅;
                      cfgHistory := history;
                      cfgReference := Reference (Opts ic) |})
             end
         end
     end).
Proof.
  intros Hmiss. unfold CreateImageConfig. rewrite fmap_cons.
  unfold cache.ImageCache_Get. rewrite Hmiss.
  change (Some l :: (Some <$> chain)) with (Some <$> l :: chain).
  by rewrite length_fmap.
Qed.

End CreateImageConfig_more.

(** X15: when the image cache has no configuration for the first
    record, the outcome of [CreateImageConfig] on a slice of records is
    decided by the decoding of their configurations, oldest first, into
    one target: the error "Failed to unmarshall layer history" with the
    error of the oldest record that does not decode; else the error
    "Failed to marshall image metadata" when the document cannot be
    serialised; else a nil dereference when the receiver has no
    manifest, which therefore goes unnoticed on the two errors; else
    the configuration whose image ID is the digest of the document.  The
    document has a root filesystem of type "layers" with the diff IDs of
    the records that are not empty layers, oldest first, and a history
    with one entry for each record. *)
Theorem CreateImageConfig_outcome `{JSONDecoder} `{Digester} (ic : ImageC)
    (rc : cache.Repo) (imgc : cache.ImageCache) (l : ImageWithMeta)
    (chain : list ImageWithMeta) :
  imgc !! cache.GetImageID rc (ID l) = None →
  match decode_layers docker.zeroV1Image (l :: chain) with
  | inl err =>
      CreateImageConfig ic rc imgc (Some <$> l :: chain)
      = Returns (inl (Errorf "Failed to unmarshall layer history: " (Error err)))
  | inr image =>
      ∃ rootFS history,
        docker.Type_ rootFS = "layers"
        ∧ docker.DiffIDs rootFS
          = (DiffID <$> filter (λ l, is_empty_layer l = false) (rev (l :: chain)))
        ∧ (docker.EmptyLayer <$> history) = (is_empty_layer <$> rev (l :: chain))
        ∧
        match MarshalJSON (result_image image rootFS history) with
        | inl err =>
            CreateImageConfig ic rc imgc (Some <$> l :: chain)
            = Returns (inl (Errorf "Failed to marshall image metadata: " (Error err)))
        | inr doc =>
            match ImageManifestSchema1 (Opts ic) with
            | None =>
                CreateImageConfig ic rc imgc (Some <$> l :: chain) = Panics nil_dereference
            | Some m =>
                ∃ cfg,
                  CreateImageConfig ic rc imgc (Some <$> l :: chain) = Returns (inr cfg)
                  ∧ cfgImageID cfg = sha256_hex doc
                  ∧ cfgHistory cfg = history
            end
        end
  end.
Proof.
  intros Hmiss. rewrite (CreateImageConfig_miss ic rc imgc l chain Hmiss).
  pose proof (CreateImageConfig_from_run (l :: chain) (length (l :: chain))
                docker.zeroV1Image docker.NewRootFS [] 0%Z ltac:(lia) eq_refl) as Hloop.
  rewrite !firstn_all in Hloop.
  destruct (decode_layers docker.zeroV1Image (l :: chain)) as [err|image].
  - cbn [length] in Hloop. by rewrite Hloop.
  - destruct Hloop as (rootFS & history & Hloop). exists rootFS, history.
    pose proof (CreateImageConfig_from_inv (l :: chain) (length (l :: chain)) _ _ _ _ _ _ _ _
                  Hloop ltac:(lia)) as (Hd & Hh & Ht).
    rewrite firstn_all in Hd, Hh. split; [done|]. split; [done|]. split; [done|].
    cbn [length] in Hloop. rewrite Hloop. cbn [mbind run_bind]. cbv zeta.
    destruct (MarshalJSON (result_image image rootFS history)) as [err|doc]; [done|].
    destruct (ImageManifestSchema1 (Opts ic)) as [m|]; [|done]. by eexists.
Qed.

Lemma CreateImageConfig_outcome_witness :
  @CreateImageConfig flat_json text_digester (NewImageC opts0) cache.emptyRepo ∅
    [Some empty_top; Some broken_layer]
  = Returns (inl (errorString
      "Failed to unmarshall layer history: invalid character looking for beginning of value")).
Proof.
  exact (CreateImageConfig_outcome (H := flat_json) (H0 := text_digester) (NewImageC opts0)
           cache.emptyRepo ∅ empty_top [broken_layer] (lookup_empty _)).
Defined.

(** X16: what a computed configuration holds next to the image ID: the
    ID of the first record, the parent of the decoded configuration, the
    sum of the sizes of the records wrapped to 64 bits (the sum itself
    when it fits), the manifest digest, the tag and the reference of the
    options, the name of the manifest, and no diff-ID map entries at
    all: the map is made and never filled. *)
Theorem CreateImageConfig_metadata `{JSONDecoder} `{Digester} (ic : ImageC)
    (rc : cache.Repo) (imgc : cache.ImageCache) (l : ImageWithMeta)
    (chain : list ImageWithMeta) (cfg : ImageConfig) :
  imgc !! cache.GetImageID rc (ID l) = None →
  CreateImageConfig ic rc imgc (Some <$> l :: chain) = Returns (inr cfg) →
  ∃ m image,
    ImageManifestSchema1 (Opts ic) = Some m
    ∧ decode_layers docker.zeroV1Image (l :: chain) = inr image
    ∧ docker.v1ID (cfgV1Image cfg) = ID l
    ∧ docker.v1Parent (cfgV1Image cfg) = docker.v1Parent image
    ∧ docker.v1Size (cfgV1Image cfg) = int64_wrap (total_size (l :: chain))
    ∧ ((- 2 ^ 63 ≤ total_size (l :: chain) < 2 ^ 63)%Z →
       docker.v1Size (cfgV1Image cfg) = total_size (l :: chain))
    ∧ Digests cfg = [ManifestDigest (Opts ic)]
    ∧ Tags cfg = [Tag (Opts ic)]
    ∧ cfgReference cfg = Reference (Opts ic)
    ∧ cfgName cfg = Name m
    ∧ cfgDiffIDs cfg = ∅.
Proof.
  intros Hmiss. rewrite (CreateImageConfig_miss ic rc imgc l chain Hmiss).
  pose proof (CreateImageConfig_from_run (l :: chain) (length (l :: chain))
                docker.zeroV1Image docker.NewRootFS [] 0%Z ltac:(lia) eq_refl) as Hloop.
  rewrite !firstn_all in Hloop. cbn [length] in Hloop.
  destruct (decode_layers docker.zeroV1Image (l :: chain)) as [err|image].
  - by rewrite Hloop.
  - destruct Hloop as (rootFS & history & ->).
    cbn [mbind run_bind]. cbv zeta.
    destruct (MarshalJSON (result_image image rootFS history)) as [err|doc]; [done|].
    destruct (ImageManifestSchema1 (Opts ic)) as [m|]; [|done].
    intros [= <-]. exists m, image. rewrite Z.add_0_l. cbn.
    split_and!; try done. apply int64_wrap_small.
Qed.

Lemma CreateImageConfig_metadata_witness :
  ∃ cfg,
    @CreateImageConfig flat_json text_digester (with_manifest busybox_manifest)
      cache.emptyRepo ∅ [Some huge_layer; Some huge_layer] = Returns (inr cfg)
    ∧ docker.v1Size (cfgV1Image cfg) = (- 2 ^ 63)%Z
    ∧ cfgDiffIDs cfg = ∅.
Proof.
  eexists.
  assert (@CreateImageConfig flat_json text_digester (with_manifest busybox_manifest)
            cache.emptyRepo ∅ (Some <$> [huge_layer; huge_layer]) = Returns (inr _)) as Hrun
    by (vm_compute; reflexivity).
  destruct (CreateImageConfig_metadata (H := flat_json) (H0 := text_digester)
              (with_manifest busybox_manifest) cache.emptyRepo ∅ huge_layer [huge_layer]
              _ (lookup_empty _) Hrun)
    as (m & image & _ & _ & _ & _ & Hsize & _ & _ & _ & _ & _ & Hmap).
  split; [exact Hrun|]. split; [exact Hsize|exact Hmap].
Defined.

(** X17: the image ID covers the configuration texts and the diff IDs
    of the records and nothing else of them: two slices of records that
    agree in these two fields, with any IDs, parents, stores, blob sums
    and sizes, under any options and caches that miss, give the same
    image ID and the same history, and fail with the same errors. *)
Theorem CreateImageConfig_document_only `{JSONDecoder} `{Digester}
    (ic1 ic2 : ImageC) (rc1 rc2 : cache.Repo) (imgc1 imgc2 : cache.ImageCache)
    (chain1 chain2 : list ImageWithMeta) :
  Forall2 same_document chain1 chain2 →
  not_in_image_cache rc1 imgc1 chain1 →
  not_in_image_cache rc2 imgc2 chain2 →
  (∀ cfg1 cfg2,
     CreateImageConfig ic1 rc1 imgc1 (Some <$> chain1) = Returns (inr cfg1) →
     CreateImageConfig ic2 rc2 imgc2 (Some <$> chain2) = Returns (inr cfg2) →
     cfgImageID cfg1 = cfgImageID cfg2 ∧ cfgHistory cfg1 = cfgHistory cfg2)
  ∧ (∀ err,
       CreateImageConfig ic1 rc1 imgc1 (Some <$> chain1) = Returns (inl err)
       ↔ CreateImageConfig ic2 rc2 imgc2 (Some <$> chain2) = Returns (inl err)).
Proof.
  intros Hsame Hmiss1 Hmiss2.
  pose proof (Forall2_length _ _ _ Hsame) as Hlen.
  destruct chain1 as [|a chain1], chain2 as [|b chain2]; try done.
  pose proof (CreateImageConfig_from_document (a :: chain1) (b :: chain2)
                (S (length chain1)) docker.zeroV1Image docker.NewRootFS [] 0%Z 0%Z Hsame)
    as Hdoc.
  rewrite (CreateImageConfig_miss ic1 rc1 imgc1 a chain1 (Hmiss1 a eq_refl)),
    (CreateImageConfig_miss ic2 rc2 imgc2 b chain2 (Hmiss2 b eq_refl)).
  injection Hlen as <-.
  destruct (CreateImageConfig_from (Some <$> a :: chain1) _ _ _ _ _)
    as [[e1|[[[image1 rootFS1] history1] size1]]|w1];
    destruct (CreateImageConfig_from (Some <$> b :: chain2) _ _ _ _ _)
      as [[e2|[[[image2 rootFS2] history2] size2]]|w2];
    try discriminate Hdoc; cbn [mbind run_bind]; try done.
  - injection Hdoc as <-. done.
  - injection Hdoc as <- <- <-. cbv zeta.
    destruct (MarshalJSON (result_image image1 rootFS1 history1)) as [err|doc]; [done|].
    destruct (ImageManifestSchema1 (Opts ic1)), (ImageManifestSchema1 (Opts ic2));
      (split; [intros cfg1 cfg2 Hrun1 Hrun2; by simplify_eq|]); done.
Qed.

Lemma renamed_same_document :
  Forall2 same_document [empty_top; base_layer] [renamed_top; renamed_base].
Proof. repeat constructor. Qed.

Lemma CreateImageConfig_document_only_witness :
  ∃ cfg1 cfg2,
    @CreateImageConfig flat_json text_digester (with_manifest busybox_manifest)
      cache.emptyRepo ∅ [Some empty_top; Some base_layer] = Returns (inr cfg1)
    ∧ @CreateImageConfig flat_json text_digester (with_manifest long_manifest)
        cache.emptyRepo ∅ [Some renamed_top; Some renamed_base] = Returns (inr cfg2)
    ∧ docker.v1ID (cfgV1Image cfg1) ≠ docker.v1ID (cfgV1Image cfg2)
    ∧ cfgImageID cfg1 = cfgImageID cfg2.
Proof.
  eexists _, _.
  assert (@CreateImageConfig flat_json text_digester (with_manifest busybox_manifest)
            cache.emptyRepo ∅ (Some <$> [empty_top; base_layer]) = Returns (inr _)) as Hrun1
    by (vm_compute; reflexivity).
  assert (@CreateImageConfig flat_json text_digester (with_manifest long_manifest)
            cache.emptyRepo ∅ (Some <$> [renamed_top; renamed_base]) = Returns (inr _))
    as Hrun2 by (vm_compute; reflexivity).
  pose proof (proj1 (CreateImageConfig_document_only (H := flat_json) (H0 := text_digester)
                (with_manifest busybox_manifest) (with_manifest long_manifest)
                cache.emptyRepo cache.emptyRepo ∅ ∅ _ _
                renamed_same_document (nothing_cached _) (nothing_cached _))
                _ _ Hrun1 Hrun2) as [Hid _].
  split; [exact Hrun1|]. split; [exact Hrun2|]. split; [discriminate|exact Hid].
Defined.

Section CreateImageConfig_of_layers.
Context `{JSONDecoder} `{Digester}.

(** Records that carry the history entries decode as the history does. *)
Lemma decode_layers_history (chain : list ImageWithMeta) (hist : list History) :
  Forall2 (λ l h, Meta l = V1Compatibility h) chain hist →
  decode_layers docker.zeroV1Image chain = decode_chain hist.
Proof. induction 1 as [|l h chain hist Hl _ IH]; [done|]. cbn. by rewrite IH, Hl. Qed.

(** Records filled from the layers of a manifest none of which is
    cached: as many as history entries, each with the ID and the text
    of its entry. *)
Lemma filled_from_fresh (ic : ImageC) (lc : LayerCache.t) (m : Manifest)
    (out : list (option ImageWithMeta)) (chain : list ImageWithMeta) :
  ImageManifestSchema1 (Opts ic) = Some m →
  LayersToDownload ic lc = Returns (inr out) →
  not_cached lc m →
  Forall2 filled_from out chain →
  length chain = length (ManifestHistory m)
  ∧ Forall2 (λ l h, Meta l = V1Compatibility h) chain (ManifestHistory m)
  ∧ (∀ i l, chain !! i = Some l → ∃ v, decoded m i = inr v ∧ ID l = docker.v1ID v).
Proof.
  intros Hm Hrun Hfresh Hfilled.
  destruct (LayersToDownload_returned ic lc m out Hm Hrun) as (Hle & Hlen & Hnil & Hrec).
  pose proof (Forall2_length _ _ _ Hfilled) as Hsame.
  assert (length (ManifestHistory m) = length (FSLayers m)) as Heq.
  { destruct (decide (length (ManifestHistory m) = length (FSLayers m))) as [|Hne]; [done|].
    pose proof (Hnil (length (ManifestHistory m)) ltac:(lia) ltac:(lia)) as Hlast.
    destruct (Forall2_lookup_l _ _ _ _ _ Hfilled Hlast) as (y & _ & x & Hx & _). done. }
  assert (∀ i l, chain !! i = Some l →
            ∃ h v, ManifestHistory m !! i = Some h ∧ decoded m i = inr v
                   ∧ ID l = docker.v1ID v ∧ Meta l = V1Compatibility h) as Hall.
  { intros i l Hl.
    assert (i < length (ManifestHistory m)) as Hi
      by (apply lookup_lt_Some in Hl; lia).
    destruct (Hrec i Hi) as (h & fs & v & Hh & _ & Hv & Hout).
    rewrite from_cache_not_cached in Hout
      by (intros c Hc; exact (Hfresh i v c Hi Hv Hc)).
    destruct (Forall2_lookup_r _ _ _ _ _ Hfilled Hl) as (r & Hr & x & -> & Hid & Hmeta).
    rewrite Hout in Hr. injection Hr as <-. by exists h, v. }
  split; [lia|]. split.
  - apply Forall2_same_length_lookup_2; [lia|]. intros i l h Hl Hh.
    destruct (Hall i l Hl) as (h' & v & Hh' & _ & _ & Hmeta). congruence.
  - intros i l Hl. destruct (Hall i l Hl) as (h & v & _ & Hv & Hid & _). by exists v.
Qed.

End CreateImageConfig_of_layers.

(** X18: the layers that [LayersToDownload] returns for a manifest with
    more FS layers than history entries end in nil, and
    [CreateImageConfig] on them dereferences nil, unless the image cache
    has the configuration of the first record. *)
Theorem CreateImageConfig_nil_layers `{JSONDecoder} `{Digester} (ic : ImageC)
    (lc : LayerCache.t) (rc : cache.Repo) (imgc : cache.ImageCache) (m : Manifest)
    (layers : list (option ImageWithMeta)) :
  ImageManifestSchema1 (Opts ic) = Some m →
  length (ManifestHistory m) < length (FSLayers m) →
  LayersToDownload ic lc = Returns (inr layers) →
  (∀ l, head layers = Some (Some l) → imgc !! cache.GetImageID rc (ID l) = None) →
  CreateImageConfig ic rc imgc layers = Panics nil_dereference.
Proof.
  intros Hm Hlong Hrun Hmiss.
  destruct (LayersToDownload_returned ic lc m layers Hm Hrun) as (_ & Hlen & Hnil & _).
  destruct layers as [|[l|] rest]; [cbn in Hlen; lia| |done].
  unfold CreateImageConfig, cache.ImageCache_Get. rewrite (Hmiss l eq_refl).
  cbn [length CreateImageConfig_from].
  rewrite (Hnil (length rest)) by (cbn in Hlen; lia). done.
Qed.

Lemma CreateImageConfig_nil_layers_witness :
  ∃ layers,
    @LayersToDownload flat_json (with_manifest long_manifest) ∅ = Returns (inr layers)
    ∧ @CreateImageConfig flat_json text_digester (with_manifest long_manifest)
        cache.emptyRepo ∅ layers = Panics nil_dereference.
Proof.
  eexists.
  assert (@LayersToDownload flat_json (with_manifest long_manifest) ∅ = Returns (inr _))
    as Hrun by (vm_compute; reflexivity).
  split; [exact Hrun|].
  apply (CreateImageConfig_nil_layers (H := flat_json) (H0 := text_digester)
           (with_manifest long_manifest) ∅ cache.emptyRepo ∅ long_manifest _ eq_refl
           ltac:(cbn; lia) Hrun).
  intros l _. apply lookup_empty.
Defined.

(** X19: [CreateImageConfig] on the records of [LayersToDownload]: when
    none of the layers of the manifest is cached and the records keep
    their IDs and configuration texts, whatever diff IDs and sizes have
    been filled in, the configurations decode as the history entries
    did, so there is no decoding error and no panic: the result is the
    error "Failed to marshall image metadata" or a configuration with the
    ID and the parent of the newest history entry, the name of the
    manifest and one history entry for each entry of the manifest. *)
Theorem CreateImageConfig_after_LayersToDownload `{JSONDecoder} `{Digester}
    (ic : ImageC) (lc : LayerCache.t) (rc : cache.Repo) (imgc : cache.ImageCache)
    (m : Manifest) (out : list (option ImageWithMeta)) (chain : list ImageWithMeta) :
  ImageManifestSchema1 (Opts ic) = Some m →
  LayersToDownload ic lc = Returns (inr out) →
  not_cached lc m →
  Forall2 filled_from out chain →
  chain ≠ [] →
  not_in_image_cache rc imgc chain →
  ∃ v,
    decoded m 0 = inr v
    ∧ ((∃ err, CreateImageConfig ic rc imgc (Some <$> chain)
               = Returns (inl (Errorf "Failed to marshall image metadata: " (Error err))))
       ∨ (∃ cfg, CreateImageConfig ic rc imgc (Some <$> chain) = Returns (inr cfg)
                 ∧ docker.v1ID (cfgV1Image cfg) = docker.v1ID v
                 ∧ docker.v1Parent (cfgV1Image cfg) = docker.v1Parent v
                 ∧ cfgName cfg = Name m
                 ∧ length (cfgHistory cfg) = length (ManifestHistory m))).
Proof.
  intros Hm Hrun Hfresh Hfilled Hne Hmiss.
  destruct (filled_from_fresh ic lc m out chain Hm Hrun Hfresh Hfilled)
    as (Hlen & Hmeta & Hids).
  destruct chain as [|l chain]; [done|].
  destruct (Hids 0 l eq_refl) as (v & Hv & Hid). exists v. split; [done|].
  apply decode_layers_history in Hmeta.
  change (decode_chain (ManifestHistory m)) with (decoded m 0) in Hmeta.
  rewrite Hv in Hmeta.
  rewrite (CreateImageConfig_miss ic rc imgc l chain (Hmiss l eq_refl)).
  pose proof (CreateImageConfig_from_run (l :: chain) (length (l :: chain))
                docker.zeroV1Image docker.NewRootFS [] 0%Z ltac:(lia) eq_refl) as Hloop.
  rewrite !firstn_all, Hmeta in Hloop. cbn [length] in Hloop.
  destruct Hloop as (rootFS & history & Hloop). rewrite Hloop.
  cbn [mbind run_bind]. cbv zeta.
  destruct (MarshalJSON (result_image v rootFS history)) as [err|doc];
    [left; by exists err|].
  right. rewrite Hm. eexists. split; [done|]. cbn. split_and!; try done.
  apply CreateImageConfig_from_inv in Hloop as (_ & Hh & _); [|cbn; lia].
  apply (f_equal length) in Hh.
  rewrite length_app, !length_fmap, length_rev, length_take in Hh.
  cbn in Hh, Hlen. lia.
Qed.

Lemma CreateImageConfig_after_LayersToDownload_witness :
  ∃ cfg,
    @CreateImageConfig flat_json text_digester (with_manifest busybox_manifest)
      cache.emptyRepo ∅ [Some pulled_top; Some pulled_base] = Returns (inr cfg)
    ∧ docker.v1ID (cfgV1Image cfg) = "top"
    ∧ docker.v1Parent (cfgV1Image cfg) = "base"
    ∧ length (cfgHistory cfg) = 2.
Proof.
  assert (∃ out, @LayersToDownload flat_json (with_manifest busybox_manifest) ∅
                 = Returns (inr out)
                 ∧ Forall2 filled_from out [pulled_top; pulled_base])
    as (out & Hrun & Hfilled).
  { eexists. split; [vm_compute; reflexivity|].
    repeat constructor; eexists; (split; [reflexivity|]); split; reflexivity. }
  assert (not_cached (H := flat_json) ∅ busybox_manifest) as Hfresh.
  { intros i v c _ _ Hc. by rewrite lookup_empty in Hc. }
  destruct (CreateImageConfig_after_LayersToDownload (H := flat_json) (H0 := text_digester)
              (with_manifest busybox_manifest) ∅ cache.emptyRepo ∅ busybox_manifest
              out [pulled_top; pulled_base] eq_refl Hrun Hfresh Hfilled
              ltac:(discriminate) (nothing_cached _))
    as (v & Hv & [[err Herr]|(cfg & Hcfg & Hid & Hparent & _ & Hlen)]).
  - vm_compute in Herr. discriminate Herr.
  - vm_compute in Hv. injection Hv as <-.
    exists cfg. split; [exact Hcfg|]. split; [exact Hid|]. split; [exact Hparent|exact Hlen].
Defined.

(** ** PullImage *)

Section PullImage_more.
Context `{ReferenceParser} `{JSONDecoder} `{PullCollaborators}.

Lemma ParseReference_callers_part (ic ic' : ImageC) (err : option error) :
  ParseReference ic = (ic', err) →
  callers_part ic' = callers_part ic
  ∧ ImageManifestSchema1 (Opts ic') = ImageManifestSchema1 (Opts ic).
Proof.
  destruct (ParseNamed (Reference (Opts ic))) as [e|ref] eqn:Hparse.
  - rewrite (ParseReference_inl ic e Hparse). by intros [= <- _].
  - rewrite (ParseReference_ok ic ref Hparse). by intros [= <- _].
Qed.

(** A pull that stops before the manifest is fetched: the error is nil
    only when the port layer answered the ping with neither ok nor an
    error. *)
Lemma pull_connect_stops (ic ic' : ImageC) (err : option error) :
  pull_connect ic = inl (ic', err) →
  callers_part ic' = callers_part ic
  ∧ ImageManifestSchema1 (Opts ic') = ImageManifestSchema1 (Opts ic)
  ∧ (err = None → PingPortLayer (Host (Opts ic)) = (false, None)).
Proof.
  unfold pull_connect.
  destruct (ParseReference ic) as [ic1 [e|]] eqn:Hparse;
    apply ParseReference_callers_part in Hparse as [Hkeep Hm].
  - by intros [= <- <-].
  - assert (Host (Opts ic1) = Host (Opts ic)) as Hhost by (by injection Hkeep).
    repeat case_match; try done; intros [= <- <-];
      unfold callers_part in *; cbn in *;
      (split; [done|]); (split; [done|]); try done.
    intros ->. rewrite <- Hhost.
    match goal with
    | Hping : PingPortLayer _ = (?ok, _), Hor : _ || negb ?ok = true |- _ =>
        rewrite Hping; by destruct ok
    end.
Qed.

(** A pull that goes on to the manifest: the store name is the host. *)
Lemma pull_connect_goes (ic ic0 : ImageC) :
  pull_connect ic = inr ic0 →
  callers_part ic0 = callers_part ic ∧ sys_UUID = inr (Storename (Opts ic0)).
Proof.
  unfold pull_connect.
  destruct (ParseReference ic) as [ic1 [e|]] eqn:Hparse; [done|].
  apply ParseReference_callers_part in Hparse as [Hkeep _].
  repeat case_match; try done; intros [= <-];
    unfold callers_part in *; cbn in *; done.
Qed.

Lemma pull_schema1_stops (ic0 ic1 : ImageC) (err : option error) :
  pull_schema1 ic0 = inl (ic1, err) → ic1 = ic0 ∧ is_Some err.
Proof. unfold pull_schema1. repeat case_match; intros ?; by simplify_eq. Qed.

Lemma pull_schema2_keeps (ic : ImageC) :
  callers_part (pull_schema2 ic) = callers_part ic
  ∧ Storename (Opts (pull_schema2 ic)) = Storename (Opts ic)
  ∧ ImageManifestSchema1 (Opts (pull_schema2 ic)) = ImageManifestSchema1 (Opts ic).
Proof. unfold pull_schema2. by repeat case_match. Qed.

(** The layers of a pull that has fetched the schema 1 manifest. *)
Lemma pull_layers_cases (ic : ImageC) (lc : LayerCache.t) (m : Manifest) :
  ImageManifestSchema1 (Opts ic) = Some m →
  (length (FSLayers m) < length (ManifestHistory m)
   ∧ pull_layers ic lc = Panics index_out_of_range)
  ∨ (∃ err, LayersToDownload ic lc = Returns (inl err)
            ∧ pull_layers ic lc = Returns (ic, lc, Some err))
  ∨ (∃ layers, LayersToDownload ic lc = Returns (inr layers)
               ∧ pull_layers ic lc = Returns (DownloadLayers (set_ImageLayers layers ic) lc)).
Proof.
  intros Hm. unfold pull_layers.
  destruct (decide (length (FSLayers m) < length (ManifestHistory m))) as [Hlt|Hge].
  - left. split; [done|]. by rewrite (LayersToDownload_short ic lc m Hm Hlt).
  - right.
    pose proof (LayersToDownload_decode_error_any ic lc m Hm ltac:(lia)) as Hrun.
    destruct (decoded m 0) as [err|v].
    + left. eexists. split; [done|]. by rewrite Hrun.
    + right. destruct Hrun as [layers Hrun]. exists layers. split; [done|].
      rewrite Hrun. cbn [mbind run_bind].
      by destruct (DownloadLayers _ lc) as [[ic' lc'] [err|]].
Qed.

End PullImage_more.

(** X20: a pull that has fetched a schema 1 manifest with fewer FS
    layers than history entries does not return, whatever the schema 2
    fetch answers and whatever the layer cache holds: no error is
    returned and the downloader is not called, since [LayersToDownload]
    runs out of FS layers before it returns.  Said the other way
    round, the manifest of a pull that has returned after the fetch has
    at least as many FS layers as history entries. *)
Theorem PullImage_short_manifest `{ReferenceParser} `{JSONDecoder} `{PullCollaborators}
    (ic ic0 : ImageC) (lc : LayerCache.t) (m : Manifest) (d : string) :
  pull_connect ic = inr ic0 →
  FetchImageManifest (Opts ic0) 1 = inr (Schema1Value m, d) →
  length (FSLayers m) < length (ManifestHistory m) →
  ∀ result, PullImage ic lc ≠ Returns result.
Proof.
  intros Hconnect Hfetch Hlt result. unfold PullImage. rewrite Hconnect.
  unfold pull_schema1. rewrite Hfetch.
  set (ic1 := with_Opts _ _).
  destruct (pull_schema2_keeps ic1) as (_ & _ & Hm).
  destruct (pull_layers_cases (pull_schema2 ic1) lc m Hm)
    as [[_ ->]|[(err & Hrun & _)|(layers & Hrun & _)]]; [done| |].
  - by rewrite (LayersToDownload_short _ lc m Hm Hlt) in Hrun.
  - by rewrite (LayersToDownload_short _ lc m Hm Hlt) in Hrun.
Qed.

Lemma PullImage_short_manifest_witness :
  length (FSLayers short_manifest) < length (ManifestHistory short_manifest)
  ∧ ∀ result,
      @PullImage docker_reference flat_json short_registry
        (NewImageC (set_Reference "busybox" opts0)) ∅
      ≠ Returns result.
Proof.
  assert (∃ ic0, @pull_connect docker_reference short_registry
                   (NewImageC (set_Reference "busybox" opts0)) = inr ic0) as [ic0 Hconnect]
    by (eexists; vm_compute; reflexivity).
  assert (length (FSLayers short_manifest) < length (ManifestHistory short_manifest))
    as Hshort by (cbn; lia).
  split; [exact Hshort|].
  exact (PullImage_short_manifest (H := docker_reference) (H0 := flat_json)
           (H1 := short_registry) (NewImageC (set_Reference "busybox" opts0)) ic0 ∅
           short_manifest "sha256:schema1digest" Hconnect eq_refl Hshort).
Defined.

(** X21: what a [PullImage] that returns has done.  Either it called
    [DownloadLayers] and returns what that returned: the layer cache was
    the one given, and the receiver carried the schema 1 manifest just
    fetched, the host as the store name and the layers that
    [LayersToDownload] gave for them.  Or it stopped before: the layer
    cache, the layers, the image ID and the caller's options are as
    they were, and the error is nil only when the port layer answered
    the ping with neither ok nor an error, in which case no manifest has
    been fetched. *)
Theorem PullImage_result `{ReferenceParser} `{JSONDecoder} `{PullCollaborators}
    (ic ic' : ImageC) (lc lc' : LayerCache.t) (err : option error) :
  PullImage ic lc = Returns (ic', lc', err) →
  (∃ ic0 ic2 m d layers,
     pull_connect ic = inr ic0
     ∧ FetchImageManifest (Opts ic0) 1 = inr (Schema1Value m, d)
     ∧ callers_part ic2 = callers_part ic
     ∧ ImageManifestSchema1 (Opts ic2) = Some m
     ∧ sys_UUID = inr (Storename (Opts ic2))
     ∧ LayersToDownload ic2 lc = Returns (inr layers)
     ∧ DownloadLayers (set_ImageLayers layers ic2) lc = (ic', lc', err))
  ∨ (lc' = lc
     ∧ callers_part ic' = callers_part ic
     ∧ (err = None →
        PingPortLayer (Host (Opts ic)) = (false, None)
        ∧ ImageManifestSchema1 (Opts ic') = ImageManifestSchema1 (Opts ic))).
Proof.
  unfold PullImage.
  destruct (pull_connect ic) as [[ic1 e]|ic0] eqn:Hconnect.
  - intros [= <- <- <-]. right.
    destruct (pull_connect_stops ic ic1 e Hconnect) as (Hkeep & Hm & Hping).
    split; [done|]. split; [done|]. intros ->. by split; [apply Hping|].
  - destruct (pull_connect_goes ic ic0 Hconnect) as [Hkeep Hhost].
    destruct (pull_schema1 ic0) as [[ic1 e]|ic1] eqn:Hschema1.
    + intros [= <- <- <-]. right.
      destruct (pull_schema1_stops ic0 ic1 e Hschema1) as [-> [e' ->]]. done.
    + destruct (pull_schema1_inv ic0 ic1 Hschema1) as (m & d & Hfetch & ->).
      set (ic1 := with_Opts _ _).
      destruct (pull_schema2_keeps ic1) as (Hkeep2 & Hstore & Hm).
      destruct (pull_layers_cases (pull_schema2 ic1) lc m Hm)
        as [[_ ->]|[(e & _ & ->)|(layers & Hrun & ->)]]; [done| |].
      * intros [= <- <- <-]. right. split; [done|]. split; [|done].
        by rewrite Hkeep2, <- Hkeep.
      * intros [= Hdown]. left. exists ic0, (pull_schema2 ic1), m, d, layers.
        split_and!; try done.
        -- by rewrite Hkeep2, <- Hkeep.
        -- by rewrite Hstore.
Qed.

Lemma PullImage_result_witness :
  ∃ ic',
    @PullImage docker_reference flat_json silent_port_layer
      (NewImageC (set_Reference "busybox" opts0)) ∅
    = Returns (ic', ∅, None)
    ∧ ImageLayers ic' = []
    ∧ ImageManifestSchema1 (Opts ic') = None.
Proof.
  eexists.
  assert (@PullImage docker_reference flat_json silent_port_layer
            (NewImageC (set_Reference "busybox" opts0)) ∅ = Returns (_, ∅, None)) as Hrun
    by (vm_compute; reflexivity).
  split; [exact Hrun|].
  destruct (PullImage_result (H := docker_reference) (H0 := flat_json)
              (H1 := silent_port_layer) _ _ _ _ _ Hrun)
    as [(ic0 & ic2 & m & d & layers & _ & _ & _ & _ & _ & _ & Hdown)
       |(_ & Hkeep & Hnil)].
  - discriminate Hdown.
  - destruct (Hnil eq_refl) as [_ Hm]. split; [|exact Hm].
    exact (f_equal (λ p, p.1.1.1.1.1.1.1.1.1) Hkeep).
Defined.

(** X22: with a reference that does not parse, [PullImage] returns the
    error of the parser and has done nothing else: the receiver and the
    layer cache are as they were, with any host, port layer, registry
    and downloader. *)
Theorem PullImage_bad_reference `{ReferenceParser} `{JSONDecoder} `{PullCollaborators}
    (ic : ImageC) (lc : LayerCache.t) (err : error) :
  ParseNamed (Reference (Opts ic)) = inl err →
  PullImage ic lc = Returns (ic, lc, Some err).
Proof.
  intros Hparse. unfold PullImage, pull_connect.
  by rewrite (ParseReference_inl ic err Hparse).
Qed.

Lemma PullImage_bad_reference_witness :
  ∃ err,
    @PullImage docker_reference flat_json (one_registry (inl (errorString "manifest unknown")))
      misspelt_busybox ∅
    = Returns (misspelt_busybox, ∅, Some err).
Proof.
  eexists.
  apply (PullImage_bad_reference (H := docker_reference) (H0 := flat_json)
           (H1 := one_registry (inl (errorString "manifest unknown"))) misspelt_busybox ∅).
  vm_compute. reflexivity.
Defined.

(** ** updateRepositoryCache, then CreateImageConfig *)

(** X23: after [updateRepositoryCache] has succeeded, the repository
    cache gives the image ID of the receiver for the ID of its first
    layer, and the image ID is not empty; so [CreateImageConfig] on the
    layers of the receiver returns the configuration that the image
    cache holds under that image ID, without decoding a layer: the
    other layers may be nil and the manifest absent. *)
Theorem CreateImageConfig_after_update `{ReferenceParser} `{PortLayerStore}
    `{JSONDecoder} `{Digester} (ic ic' : ImageC) (rc rc' : cache.Repo)
    (imgc : cache.ImageCache) (cfg : ImageConfig) :
  updateRepositoryCache ic rc = Returns (ic', rc', None) →
  imgc !! ImageID ic' = Some cfg →
  ImageID ic' ≠ ""
  ∧ (∃ layer0 rest, ImageLayers ic' = Some layer0 :: rest
                    ∧ cache.GetImageID rc' (ID layer0) = ImageID ic')
  ∧ CreateImageConfig ic' rc' imgc (ImageLayers ic') = Returns (inr cfg).
Proof.
  intros Hrun Hcfg.
  destruct (updateRepositoryCache_cases ic ic' rc rc' None Hrun)
    as (layer0 & rest & Hlayers & [(e & _ & _ & _ & [=])|(ref & id & _ & Hid & Hic & Hrest)]).
  assert (ImageID ic' = id ∧ ImageLayers ic' = ImageLayers ic) as [Hid' Hsame].
  { rewrite Hic, Hid. by destruct (String.eqb (ImageID ic) "") eqn:Hempty. }
  destruct Hrest as [(_ & _ & [=])|(Hne & rc1 & e1 & _ & [(e & _ & _ & [=])|(_ & Hdig)])].
  destruct Hdig as [(e & _ & _ & [=])|(dig & e2 & _ & Hadd & _)].
  assert (cache.GetImageID rc' (ID layer0) = id) as Hlayer.
  { unfold cache.AddReference in Hadd. injection Hadd as <- _.
    unfold cache.GetImageID. cbn. by rewrite lookup_insert_eq. }
  rewrite Hid'. split; [done|]. rewrite Hsame, Hlayers. split; [by eexists _, _|].
  unfold CreateImageConfig, cache.ImageCache_Get. by rewrite Hlayer, <- Hid', Hcfg.
Qed.

Lemma CreateImageConfig_after_update_witness :
  ∃ rc',
    @updateRepositoryCache docker_reference reliable_store half_pulled cache.emptyRepo
    = Returns (half_pulled, rc', None)
    ∧ @CreateImageConfig flat_json text_digester half_pulled rc'
        {[ "e292aa76ad3b" := stored_config ]} [Some cached_top; None]
      = Returns (inr stored_config).
Proof.
  assert (∃ rc',
            @updateRepositoryCache docker_reference reliable_store half_pulled
              cache.emptyRepo = Returns (half_pulled, rc', None)) as (rc' & Hrun)
    by (eexists; vm_compute; reflexivity).
  exists rc'. split; [exact Hrun|].
  exact (proj2 (proj2 (CreateImageConfig_after_update (H := docker_reference)
                         (H0 := reliable_store) (H1 := flat_json) (H2 := text_digester)
                         half_pulled half_pulled cache.emptyRepo rc'
                         {[ "e292aa76ad3b" := stored_config ]} stored_config Hrun
                         (lookup_singleton_eq _ _)))).
Defined.

(** ** DestinationDirectory *)

Section DestinationDirectory_more.

(** A destination of one element is joined as it is. *)
Lemma join_element (d : string) :
  is_element d = true → join_root d = "" ∧ join_base d = [d].
Proof.
  intros Hd. destruct (is_element_spec d Hd) as (Hne & _ & _ & Hfree).
  unfold join_root, join_base.
  rewrite (is_rooted_element d Hd), (proj2 (String.eqb_neq d "") Hne),
    (Split_free d "/" Hfree).
  cbn [foldl]. by rewrite (clean_step_element _ _ _ d Hd).
Qed.

End DestinationDirectory_more.

(** X24: the layout of the output directory.  With a destination of
    one element, a registry URL whose scheme and host are single
    elements and whose path has no "." and ".." elements, an image name
    of single elements and a tag of one element, the directory is
    destination/scheme/host/path elements/image elements/tag, joined by
    single slashes. *)
Theorem DestinationDirectory_layout `{URLParser} (o : Options) (u : url.URL) :
  url_Parse (Registry o) = Some u →
  is_element (Destination o) = true →
  well_formed_tuple u o = true →
  is_clean_path (url.Path u) = true →
  DestinationDirectory o
  = Returns (Strings.Join (Destination o :: url.Scheme u :: url.UrlHost u ::
                             elements (url.Path u) ++ Strings.Split (Image o) "/"
                             ++ [Tag o]) "/").
Proof.
  intros Hu Hd Hwf Hpath.
  rewrite (DestinationDirectory_parsed o u Hu), (Join_tuple _ u o Hwf Hpath).
  destruct (join_element _ Hd) as [-> ->]. reflexivity.
Qed.

Lemma DestinationDirectory_layout_witness :
  @DestinationDirectory go_url busybox_options
  = Returns "images/https/registry-1.docker.io/v2/library/busybox/latest".
Proof.
  pose proof (DestinationDirectory_layout (H := go_url) busybox_options
                {| url.Scheme := "https"; url.Opaque := "";
                   url.UrlHost := "registry-1.docker.io"; url.Path := "/v2" |}
                ltac:(vm_compute; reflexivity) ltac:(vm_compute; reflexivity)
                ltac:(vm_compute; reflexivity) ltac:(vm_compute; reflexivity)) as Hdir.
  vm_compute in Hdir. vm_compute. exact Hdir.
Defined.
